(** * msh: a shallow embedding of [shuck.c]

    The interpreter core of the shell is embedded as Rocq functions:
    C strings are [string]s (the characters before the terminating NUL),
    a NULL-terminated [char **] array is a [list string], C [int]s are [Z],
    and everything the code obtains from the operating system (file
    status, globbing, process creation, the history file) is either an
    explicit oracle of the [World] record or explicit state.  So is what
    the C standard leaves open: a read through a pointer into an
    automatic array whose function has returned asks the oracle
    [w_stale], and a write past the end of a fixed array ends the run as
    [Undefined].  Rows stored by [fgets] are kept byte for byte and read
    as C strings, up to their first NUL, where the code reads them. *)

From Stdlib Require Import ZArith Lia Bool List.
From Stdlib Require Import Strings.String Strings.Ascii.
From Stdlib Require Import Numbers.DecimalString.
From Stdlib Require Import Numbers.DecimalPos Numbers.DecimalZ.
Import ListNotations.

Local Open Scope string_scope.
Local Open Scope list_scope.

(** ** C string primitives *)

Module CStr.

(** [strchr(set, c) != NULL] for a non-NUL character [c]. *)
Fixpoint mem (c : ascii) (set : string) : bool :=
  match set with
  | EmptyString => false
  | String d set' => if Ascii.eqb c d then true else mem c set'
  end.

(** [strspn(s, accept)]: length of the longest prefix of [s] made only of
    characters of [accept]. *)
Fixpoint strspn (s accept : string) : nat :=
  match s with
  | EmptyString => 0
  | String c s' => if mem c accept then S (strspn s' accept) else 0
  end.

(** [strcspn(s, reject)]: length of the longest prefix of [s] free of
    characters of [reject]. *)
Fixpoint strcspn (s reject : string) : nat :=
  match s with
  | EmptyString => 0
  | String c s' => if mem c reject then 0 else S (strcspn s' reject)
  end.

(** [strndup(s, n)] *)
Fixpoint take (n : nat) (s : string) : string :=
  match n, s with
  | S n', String c s' => String c (take n' s')
  | _, _ => EmptyString
  end.

(** pointer advance [s += n], for [n <= strlen(s)] *)
Fixpoint drop (n : nat) (s : string) : string :=
  match n, s with
  | S n', String _ s' => drop n' s'
  | _, _ => s
  end.

Definition is_empty (s : string) : bool :=
  match s with EmptyString => true | _ => false end.

(** [strcmp(a, b) == 0] *)
Definition streq (a b : string) : bool := String.eqb a b.

(** [strcmp(p, b) == 0] where the pointer [p] may be NULL ([None]);
    the result is [None] when NULL is dereferenced. *)
Definition streq_ptr (p : option string) (b : string) : option bool :=
  match p with
  | None => None
  | Some a => Some (streq a b)
  end.

Fixpoint all_chars (p : ascii -> bool) (s : string) : bool :=
  match s with
  | EmptyString => true
  | String c s' => if p c then all_chars p s' else false
  end.

Fixpoint any_char (p : ascii -> bool) (s : string) : bool :=
  match s with
  | EmptyString => false
  | String c s' => if p c then true else any_char p s'
  end.

(** The terminator of a C string. *)
Definition NUL : ascii := Ascii.zero.

(** The C string held by a buffer that [fgets] has filled: the bytes
    before the first NUL.  [fgets] stores a NUL byte of the input like
    any other byte, and every reader of the buffer ([tokenize],
    [printf("%s")]) stops there. *)
Fixpoint of_buffer (bytes : string) : string :=
  match bytes with
  | EmptyString => EmptyString
  | String c rest =>
      if Ascii.eqb c NUL then EmptyString else String c (of_buffer rest)
  end.

End CStr.

(** ** Constants of the program *)

Definition DEFAULT_PATH : string := "/bin:/usr/bin".
Definition DEFAULT_HISTORY_SHOWN : Z := 10.
Definition MAX_LINE_CHARS : nat := 1024.
Definition SPECIAL_CHARS : string := "!><|".

Definition TAB : ascii := Ascii.ascii_of_nat 9.
Definition LF : ascii := Ascii.ascii_of_nat 10.
Definition CR : ascii := Ascii.ascii_of_nat 13.
Definition NL : string := String LF EmptyString.

(** [" \t\r\n"] *)
Definition WORD_SEPARATORS : string :=
  String " " (String TAB (String CR (String LF EmptyString))).

(** ** tokenize *)

(** One pass of the [while] loop of [tokenize] per unit of fuel.  Every
    pass that adds a token consumes at least one character, so
    [length s] passes are enough (see [tokenize_loop_fuel]). *)
Fixpoint tokenize_loop (fuel : nat) (s separators special_chars : string)
  : list string :=
  match fuel with
  | O => []
  | S fuel' =>
      if CStr.is_empty s then [] else
      let s := CStr.drop (CStr.strspn s separators) s in
      if CStr.is_empty s then [] else
      let length := CStr.strcspn s separators in
      let length_without_specials := CStr.strcspn s special_chars in
      let length_without_specials :=
        if Nat.eqb length_without_specials 0 then 1%nat
        else length_without_specials in
      let length :=
        if Nat.ltb length_without_specials length
        then length_without_specials else length in
      let token := CStr.take length s in
      token :: tokenize_loop fuel' (CStr.drop length s) separators special_chars
  end.

Definition tokenize (s separators special_chars : string) : list string :=
  tokenize_loop (String.length s) s separators special_chars.

(** The call made by [main] and [execute_command]. *)
Definition tokenize_line (line : string) : list string :=
  tokenize line WORD_SEPARATORS SPECIAL_CHARS.

(** ** Integers *)

Local Open Scope Z_scope.

(** Conversion of a mathematical integer to a 32-bit C [int]. *)
Definition to_int (z : Z) : Z := (z + 2 ^ 31) mod 2 ^ 32 - 2 ^ 31.

Definition in_int_range (z : Z) : bool :=
  (- 2 ^ 31 <=? z) && (z <=? 2 ^ 31 - 1).

Definition LONG_MAX : Z := 2 ^ 63 - 1.
Definition LONG_MIN : Z := - 2 ^ 63.

(** [isdigit] *)
Definition isdigit (c : ascii) : bool :=
  let n := Ascii.nat_of_ascii c in Nat.leb 48 n && Nat.leb n 57.

(** [isspace] in the C locale *)
Definition isspace (c : ascii) : bool :=
  let n := Ascii.nat_of_ascii c in
  Nat.eqb n 32 || (Nat.leb 9 n && Nat.leb n 13).

Fixpoint digits_value_from (acc : Z) (s : string) : Z :=
  match s with
  | EmptyString => acc
  | String c s' =>
      digits_value_from (10 * acc + Z.of_nat (Ascii.nat_of_ascii c - 48)) s'
  end.

Definition digits_value (s : string) : Z := digits_value_from 0 s.

Fixpoint count_while (p : ascii -> bool) (s : string) : nat :=
  match s with
  | EmptyString => 0%nat
  | String c s' => if p c then S (count_while p s') else 0%nat
  end.

(** [strtol(s, &endptr, 10)]: the value and the text [endptr] points at.
    Out-of-range values saturate at [LONG_MIN] / [LONG_MAX]. *)
Definition strtol (s : string) : Z * string :=
  let s1 := CStr.drop (count_while isspace s) s in
  let '(neg, s2) :=
    match s1 with
    | String "-" r => (true, r)
    | String "+" r => (false, r)
    | _ => (false, s1)
    end in
  let n := count_while isdigit s2 in
  if Nat.eqb n 0 then (0, s)
  else
    let v := digits_value (CStr.take n s2) in
    let v := if neg then - v else v in
    (Z.max LONG_MIN (Z.min LONG_MAX v), CStr.drop n s2).

(** [atoi(s)], which the C library computes as [(int) strtol(s, NULL, 10)]. *)
Definition atoi (s : string) : Z := to_int (fst (strtol s)).

(** ["%d"] *)
Definition fmt_int (z : Z) : string := NilZero.string_of_int (Z.to_int z).

(** ** The operating system as seen by the interpreter *)

(** Open flags and permission bits, with their Linux values. *)
Definition O_RDONLY : Z := 0.
Definition O_WRONLY : Z := 1.
Definition O_CREAT : Z := 64.
Definition O_TRUNC : Z := 512.
Definition O_APPEND : Z := 1024.
Definition S_IRUSR : Z := 256.
Definition S_IWUSR : Z := 128.
Definition S_IFMT : Z := 61440.
Definition S_IFREG : Z := 32768.

Definition S_ISREG (mode : Z) : bool := Z.land mode S_IFMT =? S_IFREG.

(** An entry of a [posix_spawn_file_actions_t].  The source descriptor of
    a [dup2] action is always an element of the array
    [pipe_file_descriptors], named here by its index. *)
Inductive file_action :=
| AddOpen (fd : Z) (path : string) (oflag : Z) (mode : Z)
| AddDup2 (pipe_idx : Z) (newfd : Z).

(** What happens to a child: the results of [posix_spawn] and [waitpid]. *)
Inductive child :=
| SpawnFailed
| WaitFailed
| Exited (code : Z)
| Signaled.

(** Observable actions of the interpreter, in program order. *)
Inductive event :=
| Stdout (text : string)
| Stderr (text : string)
| Perror (ctx : string)
| PosixSpawn (pathname : string) (actions : list file_action)
             (argv : list string) (envp : list string)
| Chdir (dir : option string)
| MkPipe (idx : Z)
| Close (pipe_idx : Z).

(** The contents of [$HOME/.msh_history]; [None] when the file does not
    exist. *)
Definition hist := option string.

(** The places where [execute_command] reads a string through a pointer
    into an automatic array of a function that has already returned:
    the row [load_command] returns (a pointer into its [data]) is read by
    [printf] and then by [tokenize], and the line [check_glob] returns (a
    pointer to its [new]) is read by [tokenize]. *)
Inductive stale_use :=
| EchoRecalled
| TokenizeRecalled
| TokenizeExpanded.

Record World := {
  (** [stat(path, &s)]: [s.st_mode] when the call succeeds *)
  w_stat : string -> option Z;
  (** [faccessat(AT_FDCWD, path, X_OK, AT_EACCESS) == 0] *)
  w_access_x : string -> bool;
  (** the paths [glob] finds for a pattern under [GLOB_TILDE], in the
      order [glob] returns them; empty when nothing matches *)
  w_glob : string -> list string;
  (** fate of the child created by a [posix_spawn] call *)
  w_child : string -> list file_action -> list string -> list string -> child;
  (** [chdir(dir) == 0] *)
  w_chdir : string -> bool;
  (** [getcwd] *)
  w_getcwd : option string;
  (** [getenv("HOME")] *)
  w_home : option string;
  (** whether [fopen] on [$HOME/.msh_history] is permitted *)
  w_hist_open : bool;
  (** whether the [k]-th call of [pipe] succeeds *)
  w_pipe : Z -> bool;
  (** [w_stale use text]: the string read at [use] through a pointer to
      an automatic array that held [text] when its function returned.
      The array is dead by then and the C standard leaves the read
      undefined; what a run sees are the bytes the stack holds at that
      moment, [text] itself if nothing has overwritten them. *)
  w_stale : stale_use -> string -> string;
  (** the contents of the history file once the child of a
      [posix_spawn] call has run: a child may write to any file, and a
      redirection [> $HOME/.msh_history] makes it write to this one *)
  w_child_hist :
    string -> list file_action -> list string -> list string -> hist -> hist
}.

(** ** Control: output trace, early termination *)

(** Ways in which the interpreter process stops inside a command:
    [exit(status)], a failed [assert], or an execution the C standard
    leaves undefined (a NULL or out-of-bounds access, an uninitialised
    read). *)
Inductive halt :=
| Exit (status : Z)
| Abort
| Undefined.

Inductive outcome (A : Type) :=
| Done (a : A)
| Halt (h : halt).
Arguments Done {A} a.
Arguments Halt {A} h.

(** An action that only produces output. *)
Definition Act (A : Type) : Type := list event * outcome A.

Definition ret {A} (a : A) : Act A := ([], Done a).
Definition emit (e : event) : Act unit := ([e], Done tt).
Definition stop {A} (h : halt) : Act A := ([], Halt h).
Definition bind {A B} (m : Act A) (k : A -> Act B) : Act B :=
  match m with
  | (t, Done a) => let '(t', r) := k a in (t ++ t', r)
  | (t, Halt h) => (t, Halt h)
  end.

(** An action that may also read and write the history file. *)
Definition M (A : Type) : Type := hist -> hist * Act A.

Definition mret {A} (a : A) : M A := fun h => (h, ret a).
Definition lift {A} (m : Act A) : M A := fun h => (h, m).
Definition mget : M hist := fun h => (h, ret h).
Definition mbind {A B} (m : M A) (k : A -> M B) : M B :=
  fun h =>
    match m h with
    | (h1, (t, Done a)) =>
        let '(h2, (t', r)) := k a h1 in (h2, (t ++ t', r))
    | (h1, (t, Halt x)) => (h1, (t, Halt x))
    end.

Declare Scope act_scope.
Delimit Scope act_scope with act.
Notation "x <- m ;; k" := (bind m (fun x => k))
  (at level 61, m at next level, right associativity) : act_scope.
Notation "m ;; k" := (bind m (fun _ => k))
  (at level 61, right associativity) : act_scope.
Notation "x <-- m ;; k" := (mbind m (fun x => k))
  (at level 61, m at next level, right associativity) : act_scope.
Notation "m ;;; k" := (mbind m (fun _ => k))
  (at level 61, right associativity) : act_scope.
Local Open Scope act_scope.

(** [words[i]] for a NULL-terminated array: [None] stands for the NULL
    terminator and for anything outside the array. *)
Definition word_at (words : list string) (i : Z) : option string :=
  if i <? 0 then None else nth_error words (Z.to_nat i).

Definition trace_of {A} (m : Act A) : list event := fst m.
Definition result_of {A} (m : Act A) : outcome A := snd m.

Definition is_spawn (e : event) : bool :=
  match e with PosixSpawn _ _ _ _ => true | _ => false end.

(** Number of [posix_spawn] calls in a trace. *)
Definition spawn_count (t : list event) : nat :=
  List.length (filter is_spawn t).

(** The history file after the children spawned in the trace [t] have
    run, in the order of their [posix_spawn] calls; a call that failed has
    no child. *)
Definition child_step (w : World) (h : hist) (e : event) : hist :=
  match e with
  | PosixSpawn pathname actions argv envp =>
      match w_child w pathname actions argv envp with
      | SpawnFailed => h
      | _ => w_child_hist w pathname actions argv envp h
      end
  | _ => h
  end.

Definition hist_after (w : World) (t : list event) (h : hist) : hist :=
  fold_left (child_step w) t h.

(** An action that spawns children: they may change the history file
    while the interpreter waits for them. *)
Definition spawning {A} (w : World) (m : Act A) : M A :=
  fun h => (hist_after w (fst m) h, m).

(** ** redirection_check_arg *)

(** The counters the caller passes by reference. *)
Record counters := {
  c_input : Z;
  c_output : Z;
  c_pipes : Z
}.

(** The local error counters of [redirection_check_arg]. *)
Record errors := {
  input_err : Z;
  output_err : Z;
  pipe_err : Z
}.

Definition zero_counters : counters :=
  {| c_input := 0; c_output := 0; c_pipes := 0 |}.
Definition no_errors : errors :=
  {| input_err := 0; output_err := 0; pipe_err := 0 |}.

Definition add_input (c : counters) : counters :=
  {| c_input := c_input c + 1; c_output := c_output c; c_pipes := c_pipes c |}.
Definition add_output (c : counters) : counters :=
  {| c_input := c_input c; c_output := c_output c + 1; c_pipes := c_pipes c |}.
Definition add_pipe (c : counters) : counters :=
  {| c_input := c_input c; c_output := c_output c; c_pipes := c_pipes c + 1 |}.
Definition bump_input (e : errors) : errors :=
  {| input_err := input_err e + 1; output_err := output_err e;
     pipe_err := pipe_err e |}.
Definition bump_output (e : errors) : errors :=
  {| input_err := input_err e; output_err := output_err e + 1;
     pipe_err := pipe_err e |}.
Definition bump_pipe (e : errors) : errors :=
  {| input_err := input_err e; output_err := output_err e;
     pipe_err := pipe_err e + 1 |}.

(** The ['<'] block of the loop body; the boolean is [true] on [break]. *)
Definition redir_lt (count i : Z) (wd : string) (c : counters) (e : errors)
  : counters * errors * bool :=
  if CStr.streq wd "<" then
    if count <? 3 then (c, bump_input e, true)
    else if i =? 0 then (add_input c, e, false)
    else (c, bump_input e, true)
  else (c, e, false).

(** The ['>'] block; [None] when [words[i + 1]] is not a string. *)
Definition redir_gt (count : Z) (words : list string) (i : Z) (wd : string)
  (c : counters) (e : errors) : option (counters * errors) :=
  if CStr.streq wd ">" then
    let e := if count <? 3 then bump_output e else e in
    if i =? 0 then Some (c, bump_output e)
    else if i =? count - 3 then
      match word_at words (i + 1) with
      | None => None
      | Some next =>
          if CStr.streq next ">" then Some (add_output c, e)
          else Some (c, bump_output e)
      end
    else if i =? count - 2 then Some (add_output c, e)
    else Some (c, bump_output e)
  else Some (c, e).

(** The ['|'] block; [None] when [words[i - 1]] is not a string. *)
Definition redir_pipe (count : Z) (words : list string) (i : Z) (wd : string)
  (c : counters) (e : errors) : option (counters * errors) :=
  if CStr.streq wd "|" then
    let e := if count <? 3 then bump_pipe e else e in
    if i =? 0 then Some (c, bump_pipe e)
    else if i =? count - 1 then Some (c, bump_pipe e)
    else if 0 <? i then
      match word_at words (i - 1) with
      | None => None
      | Some prev =>
          if CStr.streq prev wd then Some (c, bump_pipe e)
          else Some (add_pipe c, e)
      end
    else Some (add_pipe c, e)
  else Some (c, e).

(** One iteration of the [for] loop: the state after it and whether the
    loop was left by [break]. *)
Definition redir_body (count : Z) (words : list string) (i : Z)
  (c : counters) (e : errors) : option (counters * errors * bool) :=
  match word_at words i with
  | None => None
  | Some wd =>
      let '(c, e, brk) := redir_lt count i wd c e in
      if brk then Some (c, e, true)
      else
        match redir_gt count words i wd c e with
        | None => None
        | Some (c, e) =>
            match redir_pipe count words i wd c e with
            | None => None
            | Some (c, e) => Some (c, e, false)
            end
        end
  end.

(** [for (int i = 0; i < count; i++)], at most [fuel] iterations. *)
Fixpoint redir_loop (fuel : nat) (count : Z) (words : list string) (i : Z)
  (c : counters) (e : errors) : option (counters * errors) :=
  match fuel with
  | O => Some (c, e)
  | S fuel' =>
      if i <? count then
        match redir_body count words i c e with
        | None => None
        | Some (c', e', true) => Some (c', e')
        | Some (c', e', false) => redir_loop fuel' count words (i + 1) c' e'
        end
      else Some (c, e)
  end.

Definition MSG_INPUT : string := "invalid input redirection" ++ NL.
Definition MSG_OUTPUT : string := "invalid output redirection" ++ NL.
Definition MSG_PIPE : string := "invalid pipe" ++ NL.

(** [redirection_check_arg(count, &input, &output, &pipe_count, words)]:
    the return value and the updated counters. *)
Definition redirection_check_arg (count : Z) (c0 : counters)
  (words : list string) : Act (Z * counters) :=
  match redir_loop (Z.to_nat count) count words 0 c0 no_errors with
  | None => stop Undefined
  | Some (c, e) =>
      if negb (input_err e =? 0) then
        emit (Stderr MSG_INPUT) ;; ret (1, c)
      else if negb (output_err e =? 0) then
        emit (Stderr MSG_OUTPUT) ;; ret (1, c)
      else if negb (pipe_err e =? 0) then
        emit (Stderr MSG_PIPE) ;; ret (1, c)
      else ret (0, c)
  end.

(** [input_r || output_r || pipe_count] *)
Definition redirected (c : counters) : bool :=
  negb (c_input c =? 0) || negb (c_output c =? 0) || negb (c_pipes c =? 0).

Definition MSG_BUILTIN (program : string) : string :=
  program ++ ": I/O redirection not permitted for builtin commands" ++ NL.

(** ** History file *)

(** [fgets(buf, n + 1, fp)] on the unread text [s]: the row read (at most
    [n] characters, ending after the first newline) and the text left. *)
Fixpoint fgets_take (n : nat) (s : string) : string * string :=
  match n, s with
  | S n', String c s' =>
      if Ascii.eqb c LF then (String c EmptyString, s')
      else let '(row, rest) := fgets_take n' s' in (String c row, rest)
  | _, _ => (EmptyString, s)
  end.

(** [while (fgets(data[i], MAX_LINE_CHARS, fp) != NULL) i++;] *)
Fixpoint read_rows (fuel : nat) (s : string) : list string :=
  match fuel with
  | O => []
  | S fuel' =>
      if CStr.is_empty s then []
      else
        let '(row, rest) := fgets_take (MAX_LINE_CHARS - 1) s in
        row :: read_rows fuel' rest
  end.

Definition file_rows (s : string) : list string :=
  read_rows (String.length s) s.

(** Number of rows of [char data[1000][MAX_LINE_CHARS]]. *)
Definition HISTORY_ROWS : Z := 1000.

(** The text [store_command] writes for [words]. *)
Fixpoint join_words (words : list string) : string :=
  match words with
  | [] => EmptyString
  | wd :: rest =>
      match rest with
      | [] => wd
      | _ => wd ++ " " ++ join_words rest
      end
  end.

Definition history_entry (words : list string) : string :=
  join_words words ++ NL.

Definition hist_text (h : hist) : string :=
  match h with Some s => s | None => EmptyString end.

(** [store_command]: [fopen(path, "a+")] creates the file if needed. *)
Definition store_command (w : World) (words : list string) : M unit :=
  fun h =>
    match w_home w with
    | None => (h, stop Undefined)
    | Some _ =>
        if w_hist_open w
        then (Some (hist_text h ++ history_entry words)%string, ret tt)
        else (h, emit (Perror "msh_history"))
    end.

(** The rows read from the history file by [load_command] and
    [print_history]: [Done None] when [fopen(path, "r")] fails. *)
Definition open_history (w : World) (h : hist) : Act (option (list string)) :=
  match w_home w with
  | None => stop Undefined
  | Some _ =>
      match h with
      | Some text =>
          if w_hist_open w then
            let data := file_rows text in
            if HISTORY_ROWS <? Z.of_nat (List.length data)
            then stop Undefined
            else ret (Some data)
          else emit (Perror "msh_history") ;; ret None
      | None => emit (Perror "msh_history") ;; ret None
      end
  end.

Definition MSG_BAD_REF : string := "!: invalid history reference" ++ NL.

(** [load_command(command_num)]; [None] is the NULL result.  The C
    function returns a pointer into its own automatic array [data]: the
    result here is the string that row holds when the function returns,
    and the caller, for whom the array is dead, reads it through
    [w_stale]. *)
Definition load_command (w : World) (h : hist) (command_num : Z)
  : Act (option string) :=
  rows <- open_history w h ;;
  match rows with
  | None => ret None
  | Some data =>
      let i := Z.of_nat (List.length data) in
      let max_history := i - 1 in
      if command_num =? -1 then
        match word_at data max_history with
        | Some row => ret (Some (CStr.of_buffer row))
        | None => stop Undefined
        end
      else if max_history <? command_num then
        emit (Stderr MSG_BAD_REF) ;; ret None
      else
        match word_at data command_num with
        | Some row => ret (Some (CStr.of_buffer row))
        | None => stop Undefined
        end
  end.

(** [for (int j = starting_point; j < i - 1; j++) printf("%d: %s", ...)] *)
Fixpoint print_loop (fuel : nat) (data : list string) (i j : Z) : Act unit :=
  match fuel with
  | O => ret tt
  | S fuel' =>
      if j <? i - 1 then
        match word_at data j with
        | Some row =>
            emit (Stdout (fmt_int j ++ ": " ++ CStr.of_buffer row)%string) ;;
            print_loop fuel' data i (j + 1)
        | None => stop Undefined
        end
      else ret tt
  end.

Definition print_history (w : World) (h : hist) (num : Z) : Act unit :=
  rows <- open_history w h ;;
  match rows with
  | None => ret tt
  | Some data =>
      let i := Z.of_nat (List.length data) in
      if in_int_range (i - 1 - num) then
        let starting_point := i - 1 - num in
        let starting_point :=
          if starting_point <? 0 then 0 else starting_point in
        print_loop (List.length data) data i starting_point
      else stop Undefined
  end.

(** [history_check_arg(&print_num, count, words)]: return value and the
    updated [*print_num]. *)
Definition numeric_arg_check (who : string) (num0 count : Z)
  (words : list string) : Act (Z * Z) :=
  if 2 <? count then
    emit (Stderr (who ++ ": too many arguments" ++ NL)%string) ;;
    ret (1, num0)
  else if count =? 2 then
    match word_at words 1 with
    | None => stop Undefined
    | Some arg =>
        if CStr.all_chars isdigit arg then ret (0, atoi arg)
        else
          emit (Stderr (who ++ ": " ++ arg ++ ": numeric argument required"
                          ++ NL)%string) ;;
          ret (1, num0)
    end
  else ret (0, num0).

Definition history_check_arg (print_num count : Z) (words : list string)
  : Act (Z * Z) :=
  numeric_arg_check "history" print_num count words.

Definition exclamation_check_arg (num count : Z) (words : list string)
  : Act (Z * Z) :=
  numeric_arg_check "!" num count words.

(** ** check_glob *)

Definition is_glob_char (c : ascii) : bool :=
  Ascii.eqb c "*" || Ascii.eqb c "?" || Ascii.eqb c "[" || Ascii.eqb c "~".

(** The first loop of [check_glob]: the indices written to [word_num],
    one per word that contains a glob character. *)
Fixpoint flagged_from (i : Z) (words : list string) : list Z :=
  match words with
  | [] => []
  | wd :: rest =>
      if CStr.any_char is_glob_char wd
      then i :: flagged_from (i + 1) rest
      else flagged_from (i + 1) rest
  end.

(** The entries visited by [for (i = 0; word_num[i] != '\0'; i++)]: the
    loop stops at the first entry equal to zero. *)
Fixpoint until_zero (word_num : list Z) : list Z :=
  match word_num with
  | [] => []
  | k :: rest => if k =? 0 then [] else k :: until_zero rest
  end.

(** [glob(pattern, GLOB_NOCHECK | GLOB_TILDE ...)]: the pattern itself
    is returned when nothing matches. *)
Definition glob_nocheck (w : World) (pattern : string) : list string :=
  match w_glob w pattern with
  | [] => [pattern]
  | found => found
  end.

(** The successive [glob] calls with [GLOB_APPEND]: [gl_pathv]. *)
Fixpoint glob_all (w : World) (words : list string) (called : list Z)
  : option (list string) :=
  match called with
  | [] => Some []
  | k :: rest =>
      match word_at words k, glob_all w words rest with
      | Some pattern, Some more => Some (glob_nocheck w pattern ++ more)
      | _, _ => None
      end
  end.

(** Capacity of [int word_num[100]]. *)
Definition WORD_NUM_SIZE : Z := 100.

(** [check_glob(words)]: [None] is the NULL result.  The C function
    returns a pointer to its own automatic array [new]: the result here
    is the line that array holds when the function returns, and the
    caller, for whom the array is dead, reads it through [w_stale]. *)
Definition check_glob (w : World) (words : list string)
  : Act (option string) :=
  let word_num := flagged_from 0 words in
  let symbol_count := Z.of_nat (List.length word_num) in
  if symbol_count =? 0 then ret None
  else if WORD_NUM_SIZE <=? symbol_count then stop Undefined
  else
    match until_zero word_num with
    | [] => stop Undefined
    | called =>
        match word_at words 0, glob_all w words called with
        | Some w0, Some gl_pathv =>
            let new := (w0 ++ " " ++ join_words gl_pathv ++ NL)%string in
            if Nat.leb MAX_LINE_CHARS (String.length new)
            then stop Undefined
            else ret (Some new)
        | _, _ => stop Undefined
        end
    end.

(** ** Builtins *)

Definition pwd (w : World) : Act unit :=
  match w_getcwd w with
  | Some cwd =>
      emit (Stdout ("current directory is '" ++ cwd ++ "'" ++ NL)%string)
  | None => emit (Perror "getcwd") ;; stop Undefined
  end.

Definition cd (w : World) (words : list string) : Act unit :=
  match word_at words 1 with
  | None => emit (Chdir (w_home w))
  | Some dir =>
      if w_chdir w dir then emit (Chdir (Some dir))
      else
        emit (Chdir (Some dir)) ;;
        emit (Stderr ("cd: " ++ dir ++ ": No such file or directory"
                        ++ NL)%string)
  end.

Definition MSG_EXIT_ARGS : string := "exit: too many arguments" ++ NL.

(** [do_exit(words)]: every path ends in [exit(exit_status)]. *)
Definition do_exit (words : list string) : Act unit :=
  match word_at words 0 with
  | None => stop Undefined
  | Some w0 =>
      if CStr.streq w0 "exit" then
        exit_status <-
          match word_at words 1 with
          | None => ret 0
          | Some w1 =>
              match word_at words 2 with
              | Some _ => emit (Stderr MSG_EXIT_ARGS) ;; ret 0
              | None =>
                  let '(v, endptr) := strtol w1 in
                  (if CStr.is_empty endptr then ret tt
                   else emit (Stderr ("exit: " ++ w1 ++
                                      ": numeric argument required" ++
                                      NL)%string)) ;;
                  ret (to_int v)
              end
          end ;;
        stop (Exit exit_status)
      else stop Abort
  end.

(** ** Running programs *)

Definition is_executable (w : World) (pathname : string) : bool :=
  match w_stat w pathname with
  | Some mode => S_ISREG mode && w_access_x w pathname
  | None => false
  end.

(** [strrchr(program, '/') != NULL] *)
Definition has_slash (program : string) : bool := CStr.mem "/" program.

(** The search loop over [path], written twice in the source (in
    [execute_command] and in [get_programs]): the first
    [path[i] "/" program] that is executable.  This is the result of
    the loop when every candidate it builds fits the array [pathname];
    [pathname_overflow] tells whether one does not. *)
Fixpoint find_in_path (w : World) (path : list string) (program : string)
  : option string :=
  match path with
  | [] => None
  | dir :: rest =>
      let pathname := (dir ++ "/" ++ program)%string in
      if is_executable w pathname then Some pathname
      else find_in_path w rest program
  end.

(** [strcpy(pathname, path[i]); strcat(pathname, "/");
    strcat(pathname, program)] into [char pathname[MAX_LINE_CHARS]]:
    whether one of the candidates the loop builds, up to the first
    executable one, does not fit the array. *)
Fixpoint pathname_overflow (w : World) (path : list string)
  (program : string) : bool :=
  match path with
  | [] => false
  | dir :: rest =>
      let pathname := (dir ++ "/" ++ program)%string in
      if Nat.leb MAX_LINE_CHARS (String.length pathname) then true
      else if is_executable w pathname then false
      else pathname_overflow w rest program
  end.

(** The search loop as it runs: writing past the end of [pathname] is
    undefined; otherwise the result is that of [find_in_path]. *)
Definition search_path (w : World) (path : list string) (program : string)
  : Act (option string) :=
  if pathname_overflow w path program then stop Undefined
  else ret (find_in_path w path program).

(** The pathname [execute_command] goes on with: the program itself
    when it holds a ['/'] or when the search finds nothing. *)
Definition resolve_program (w : World) (path : list string)
  (program : string) : Act string :=
  if has_slash program then ret program
  else
    found <- search_path w path program ;;
    ret (match found with
         | Some pathname => pathname
         | None => program
         end).

Definition MSG_STATUS (pathname : string) (code : Z) : string :=
  pathname ++ " exit status = " ++ fmt_int code ++ NL.

Definition MSG_NOT_FOUND (program : string) : string :=
  program ++ ": command not found" ++ NL.

Definition run_program (w : World) (pathname : string)
  (words environment : list string) : Act unit :=
  emit (PosixSpawn pathname [] words environment) ;;
  match w_child w pathname [] words environment with
  | SpawnFailed => emit (Perror "spawn") ;; stop Undefined
  | WaitFailed => emit (Perror "waitpid") ;; stop Undefined
  | Exited code => emit (Stdout (MSG_STATUS pathname code))
  | Signaled => ret tt
  end.

(** The file checks at the head of [in_out_redirection] and of [pipes]:
    [true] when the function goes on. *)
Definition check_files (w : World) (max input output : Z)
  (words : list string) : Act bool :=
  ok <-
    (if negb (input =? 0) then
       match word_at words 1 with
       | None => stop Undefined
       | Some file =>
           match w_stat w file with
           | None => emit (Perror file) ;; ret false
           | Some mode =>
               if Z.land mode S_IRUSR =? 0 then
                 emit (Stderr (file ++ ": Permission denied" ++ NL)%string) ;;
                 ret false
               else ret true
           end
       end
     else ret true) ;;
  if negb ok then ret false
  else if negb (output =? 0) then
    match word_at words (max - 1) with
    | None => stop Undefined
    | Some file =>
        match w_stat w file with
        | Some mode =>
            if Z.land mode S_IWUSR =? 0 then
              emit (Stderr (file ++ ": Permission denied" ++ NL)%string) ;;
              ret false
            else ret true
        | None => ret true
        end
    end
  else ret true.

(** File mode [0644]. *)
Definition MODE_0644 : Z := 420.

(** The [addopen] action for standard input, if ['<'] was given. *)
Definition input_actions (input : Z) (words : list string)
  : Act (list file_action) :=
  if negb (input =? 0) then
    match word_at words 1 with
    | Some file => ret [AddOpen 0 file O_RDONLY MODE_0644]
    | None => stop Undefined
    end
  else ret [].

(** The [addopen] action for standard output: [output == 1] for ['>'],
    [output == 2] for ['>' '>']. *)
Definition output_actions (max output : Z) (words : list string)
  : Act (list file_action) :=
  if output =? 1 then
    match word_at words (max - 1) with
    | Some file =>
        ret [AddOpen 1 file (Z.lor O_CREAT O_WRONLY) MODE_0644]
    | None => stop Undefined
    end
  else if output =? 2 then
    match word_at words (max - 1) with
    | Some file =>
        ret [AddOpen 1 file (Z.lor (Z.lor O_CREAT O_WRONLY) O_APPEND)
               MODE_0644]
    | None => stop Undefined
    end
  else ret [].

(** [while (strcmp(words[i], ">") != 0)]: the words before the first
    ['>']; [None] when the NULL terminator is reached first. *)
Fixpoint words_before_gt (rest : list string) : option (list string) :=
  match rest with
  | [] => None
  | wd :: rest' =>
      if CStr.streq wd ">" then Some []
      else
        match words_before_gt rest' with
        | Some args => Some (wd :: args)
        | None => None
        end
  end.

(** The argument vector built by [in_out_redirection] in an array of
    [max] pointers. *)
Definition redirection_arguments (max input output : Z)
  (words : list string) : Act (list string) :=
  let built :=
    if input =? 0 then words_before_gt words
    else if Nat.ltb (List.length words) 2 then None
    else if output =? 0 then Some (skipn 2 words)
    else words_before_gt (skipn 2 words) in
  match built with
  | None => stop Undefined
  | Some arguments =>
      if max <=? Z.of_nat (List.length arguments) then stop Undefined
      else ret arguments
  end.

Definition in_out_redirection (w : World) (max : Z) (program : string)
  (input output : Z) (words environment : list string) : Act unit :=
  ok <- check_files w max input output words ;;
  if negb ok then ret tt
  else
    acts_in <- input_actions input words ;;
    acts_out <- output_actions max output words ;;
    arguments <- redirection_arguments max input output words ;;
    let actions := acts_in ++ acts_out in
    emit (PosixSpawn program actions arguments environment) ;;
    match w_child w program actions arguments environment with
    | SpawnFailed => emit (Perror "spawn")
    | WaitFailed => emit (Perror "waitpid")
    | Exited code => emit (Stdout (MSG_STATUS program code))
    | Signaled => ret tt
    end.

(** ** Pipelines *)

(** The names [get_programs] refuses as pipeline stages. *)
Definition is_stage_builtin (wd : string) : bool :=
  CStr.streq wd "pwd" || CStr.streq wd "cd" || CStr.streq wd "history" ||
  CStr.streq wd "!".

(** [while (i < max)] of [get_programs]; [Done None] is the NULL result. *)
Fixpoint get_programs_loop (fuel : nat) (w : World) (path words : list string)
  (max i : Z) (new : bool) (programs : list string)
  : Act (option (list string)) :=
  match fuel with
  | O => ret (Some programs)
  | S fuel' =>
      if i <? max then
        match word_at words i with
        | None => stop Undefined
        | Some wd =>
            if CStr.streq wd ">" then ret (Some programs)
            else if CStr.streq wd "|" then
              get_programs_loop fuel' w path words max (i + 1) true programs
            else if new then
              (* strcpy(exe, words[i]) into char exe[MAX_LINE_CHARS] *)
              if Nat.leb MAX_LINE_CHARS (String.length wd) then
                stop Undefined
              else if is_stage_builtin wd then
                emit (Stderr (MSG_BUILTIN wd)) ;; ret None
              else
                found <- (if has_slash wd then ret (Some wd)
                          else search_path w path wd) ;;
                match found with
                | None => emit (Stderr (MSG_NOT_FOUND wd)) ;; ret None
                | Some program =>
                    get_programs_loop fuel' w path words max (i + 1) false
                      (programs ++ [program])
                end
            else get_programs_loop fuel' w path words max (i + 1) new programs
        end
      else ret (Some programs)
  end.

Definition get_programs (w : World) (max : Z) (words : list string)
  (input output : Z) (path : list string) : Act (option (list string)) :=
  let i := if negb (input =? 0) then 2 else 0 in
  get_programs_loop (Z.to_nat max) w path words max i true [].

(** [while (num < program_num)] of [get_arguments]: the index after
    [n] more ['|'] words; [None] when the NULL terminator is reached. *)
Fixpoint skip_stages (rest : list string) (i : Z) (n : nat) : option Z :=
  match n with
  | O => Some i
  | S n' =>
      match rest with
      | [] => None
      | wd :: rest' =>
          skip_stages rest' (i + 1) (if CStr.streq wd "|" then n' else n)
      end
  end.

(** [while (i < max)] of [get_arguments]: the words up to the next ['|']
    or ['>']. *)
Fixpoint collect_args (fuel : nat) (words : list string) (max i : Z)
  : option (list string) :=
  match fuel with
  | O => Some []
  | S fuel' =>
      if i <? max then
        match word_at words i with
        | None => None
        | Some wd =>
            if CStr.streq wd "|" then Some []
            else if CStr.streq wd ">" then Some []
            else
              match collect_args fuel' words max (i + 1) with
              | Some args => Some (wd :: args)
              | None => None
              end
        end
      else Some []
  end.

Definition get_arguments (max : Z) (words : list string) (input output : Z)
  (program_num : Z) : Act (list string) :=
  let i := if negb (input =? 0) then 2 else 0 in
  match skip_stages (skipn (Z.to_nat i) words) i (Z.to_nat program_num) with
  | None => stop Undefined
  | Some i =>
      match collect_args (Z.to_nat max) words max i with
      | None => stop Undefined
      | Some arguments =>
          if max <=? Z.of_nat (List.length arguments) then stop Undefined
          else ret arguments
      end
  end.

(** [for (int i = 0; i < pipe_count; i++) pipe(...)]: [true] when every
    pipe was created. *)
Fixpoint make_pipes (fuel : nat) (w : World) (i pipe_count : Z) : Act bool :=
  match fuel with
  | O => ret true
  | S fuel' =>
      if i <? pipe_count then
        if w_pipe w i then
          emit (MkPipe i) ;; make_pipes fuel' w (i + 1) pipe_count
        else emit (Perror "pipe") ;; ret false
      else ret true
  end.

(** One iteration of the [while (program > 0)] loop of [pipes]: [true]
    when the loop goes on, [false] when the function returns. *)
Definition pipe_stage (w : World) (max : Z) (programs : list string)
  (input output pipe_count : Z) (words environment : list string)
  (program i current_pipe : Z) : Act bool :=
  arguments <- get_arguments max words input output i ;;
  if program =? pipe_count + 1 then
    (* first program *)
    acts_in <- input_actions input words ;;
    let actions := acts_in ++ [AddDup2 (current_pipe + 1) 1] in
    match word_at programs i with
    | None => stop Undefined
    | Some prog =>
        emit (PosixSpawn prog actions arguments environment) ;;
        match w_child w prog actions arguments environment with
        | SpawnFailed => emit (Perror "spawn") ;; ret false
        | WaitFailed =>
            emit (Close (current_pipe + 1)) ;;
            emit (Perror "waitpid") ;; ret false
        | _ => emit (Close (current_pipe + 1)) ;; ret true
        end
    end
  else if program =? 1 then
    (* last program *)
    acts_out <- output_actions max output words ;;
    let actions := AddDup2 (current_pipe - 2) 0 :: acts_out in
    match word_at programs i with
    | None => stop Undefined
    | Some prog =>
        emit (PosixSpawn prog actions arguments environment) ;;
        match w_child w prog actions arguments environment with
        | SpawnFailed => emit (Perror "spawn") ;; ret false
        | WaitFailed => emit (Perror "waitpid") ;; ret false
        | Exited code => emit (Stdout (MSG_STATUS prog code)) ;; ret true
        | Signaled => ret true
        end
    end
  else
    (* middle programs *)
    let actions :=
      [AddDup2 (current_pipe - 2) 0; AddDup2 (current_pipe + 1) 1] in
    match word_at programs i with
    | None => stop Undefined
    | Some prog =>
        emit (PosixSpawn prog actions arguments environment) ;;
        match w_child w prog actions arguments environment with
        | SpawnFailed => emit (Perror "spawn") ;; ret false
        | WaitFailed =>
            emit (Close (current_pipe + 1)) ;;
            emit (Perror "waitpid") ;; ret false
        | _ => emit (Close (current_pipe + 1)) ;; ret true
        end
    end.

Fixpoint pipes_loop (fuel : nat) (w : World) (max : Z)
  (programs : list string) (input output pipe_count : Z)
  (words environment : list string) (program i current_pipe : Z)
  : Act unit :=
  match fuel with
  | O => ret tt
  | S fuel' =>
      if 0 <? program then
        go <- pipe_stage w max programs input output pipe_count words
                environment program i current_pipe ;;
        if go then
          pipes_loop fuel' w max programs input output pipe_count words
            environment (program - 1) (i + 1) (current_pipe + 2)
        else ret tt
      else ret tt
  end.

Definition pipes (w : World) (max : Z) (programs : list string)
  (input output pipe_count : Z) (words environment : list string)
  : Act unit :=
  ok <- check_files w max input output words ;;
  if negb ok then ret tt
  else
    made <- make_pipes (Z.to_nat pipe_count) w 0 pipe_count ;;
    if negb made then ret tt
    else
      pipes_loop (Z.to_nat (pipe_count + 1)) w max programs input output
        pipe_count words environment (pipe_count + 1) 0 0.

(** ** execute_command *)

(** What the ['!'] block leaves for the rest of [execute_command]:
    [words], [program], [number_arguments] and the three counters. *)
Definition command_ctx : Type :=
  list string * option string * Z * counters.

(** The block [if (strcmp(program, "!") == 0) { ... }]; [None] when the
    block returns from [execute_command]. *)
Definition bang_block (w : World) (program : string) (number_arguments : Z)
  (rc : counters) (words : list string) : M (option command_ctx) :=
  if redirected rc then
    lift (emit (Stderr (MSG_BUILTIN program))) ;;; mret None
  else
    r <-- lift (exclamation_check_arg (-1) number_arguments words) ;;
    let '(not_valid, command_num) := r in
    if negb (not_valid =? 0) then mret None
    else
      h <-- mget ;;
      command <-- lift (load_command w h command_num) ;;
      (* printf("%s", command), which prints "(null)" for NULL *)
      lift (emit (Stdout (match command with
                          | Some text => w_stale w EchoRecalled text
                          | None => "(null)"
                          end))) ;;;
      match command with
      | None => mret None
      | Some command =>
          let words := tokenize_line (w_stale w TokenizeRecalled command) in
          let program := word_at words 0 in
          let number_arguments := Z.of_nat (List.length words) in
          r <-- lift (redirection_check_arg number_arguments zero_counters
                        words) ;;
          let '(invalid_redir, rc) := r in
          if negb (invalid_redir =? 0) then mret None
          else mret (Some (words, program, number_arguments, rc))
      end.

(** The part of [execute_command] after the glob expansion: builtins
    [pwd], [cd] and [history], then external programs. *)
Definition dispatch (w : World) (program : string) (number_arguments : Z)
  (rc : counters) (words path environment : list string) : M unit :=
  if CStr.streq program "pwd" then
    if redirected rc then lift (emit (Stderr (MSG_BUILTIN program)))
    else if number_arguments =? 1 then lift (pwd w)
    else lift (emit (Stderr ("pwd: too many arguments" ++ NL)%string))
  else if CStr.streq program "cd" then
    if redirected rc then lift (emit (Stderr (MSG_BUILTIN program)))
    else if number_arguments <=? 2 then lift (cd w words)
    else lift (emit (Stderr ("cd: too many arguments" ++ NL)%string))
  else if CStr.streq program "history" then
    if redirected rc then lift (emit (Stderr (MSG_BUILTIN program)))
    else
      r <-- lift (history_check_arg DEFAULT_HISTORY_SHOWN number_arguments
                    words) ;;
      let '(not_valid, print_num) := r in
      if negb (not_valid =? 0) then mret tt
      else
        h <-- mget ;;
        lift (print_history w h print_num)
  else
    program <-- lift (resolve_program w path program) ;;
    if is_executable w program then
      if c_pipes rc =? 0 then
        if (c_input rc =? 0) && (c_output rc =? 0) then
          spawning w (run_program w program words environment)
        else
          spawning w
            (in_out_redirection w number_arguments program (c_input rc)
               (c_output rc) words environment)
      else
        programs <-- lift (get_programs w number_arguments words (c_input rc)
                             (c_output rc) path) ;;
        match programs with
        | None => mret tt
        | Some programs =>
            spawning w
              (pipes w number_arguments programs (c_input rc)
                 (c_output rc) (c_pipes rc) words environment)
        end
    else lift (emit (Stderr (MSG_NOT_FOUND program))).

(** The part of [execute_command] after [store_command]: the program
    named after a leading ['<'], [exit], the glob expansion, and the
    dispatch. *)
Definition after_store (w : World) (program : option string)
  (number_arguments : Z) (rc : counters)
  (words path environment : list string) : M unit :=
  match program with
  | None => lift (stop Undefined)
  | Some program =>
      match (if CStr.streq program "<" then word_at words 2
             else Some program) with
      | None => lift (stop Undefined)
      | Some program =>
          if CStr.streq program "exit" then lift (do_exit words)
          else
            new_word <-- lift (check_glob w words) ;;
            let words :=
              match new_word with
              | Some line => tokenize_line (w_stale w TokenizeExpanded line)
              | None => words
              end in
            dispatch w program number_arguments rc words path environment
      end
  end.

Definition execute_command (w : World) (words path environment : list string)
  : M unit :=
  let number_arguments := Z.of_nat (List.length words) in
  match word_at words 0 with
  | None => mret tt
  | Some program =>
      r <-- lift (redirection_check_arg number_arguments zero_counters
                    words) ;;
      let '(invalid_redir, rc) := r in
      if negb (invalid_redir =? 0) then mret tt
      else
        ctx <-- (if CStr.streq program "!"
                 then bang_block w program number_arguments rc words
                 else mret (Some (words, Some program, number_arguments,
                                  rc))) ;;
        match ctx with
        | None => mret tt
        | Some (words, program, number_arguments, rc) =>
            store_command w words ;;;
            after_store w program number_arguments rc words path environment
        end
  end.

(** ** main *)

Definition INTERACTIVE_PROMPT : string := "msh> ".

(** The main loop over the lines [fgets] delivers; [ws k] is the state
    of the operating system while line [k] is executed. *)
Fixpoint main_loop (ws : nat -> World) (path environ : list string)
  (interactive : bool) (k : nat) (lines : list string) : M unit :=
  (if interactive then lift (emit (Stdout INTERACTIVE_PROMPT))
   else mret tt) ;;;
  match lines with
  | [] => mret tt
  | line :: rest =>
      execute_command (ws k) (tokenize_line (CStr.of_buffer line)) path
        environ ;;;
      main_loop ws path environ interactive (S k) rest
  end.

Definition main (ws : nat -> World) (pathp : option string)
  (environ : list string) (interactive : bool) (stdin : string) : M Z :=
  let pathp := match pathp with Some p => p | None => DEFAULT_PATH end in
  let path := tokenize pathp ":" "" in
  main_loop ws path environ interactive 0 (file_rows stdin) ;;; mret 0.

(** ** The tokenizer as the specification words it *)

(** A scanner that reads the line one character at a time: a separator
    ends the current run, a special character ends the current run and
    is a token by itself, any other character extends the current run. *)
Definition flush (cur : string) : list string :=
  if CStr.is_empty cur then [] else [cur].

Fixpoint scan_tokens (separators special_chars cur s : string)
  : list string :=
  match s with
  | EmptyString => flush cur
  | String c s' =>
      if CStr.mem c separators then
        flush cur ++ scan_tokens separators special_chars EmptyString s'
      else if CStr.mem c special_chars then
        flush cur ++ String c EmptyString ::
          scan_tokens separators special_chars EmptyString s'
      else
        scan_tokens separators special_chars
          (cur ++ String c EmptyString)%string s'
  end.

Definition spec_tokenize (line : string) : list string :=
  scan_tokens WORD_SEPARATORS SPECIAL_CHARS EmptyString line.

(** The line with its separator characters removed. *)
Fixpoint without_separators (separators s : string) : string :=
  match s with
  | EmptyString => EmptyString
  | String c s' =>
      if CStr.mem c separators then without_separators separators s'
      else String c (without_separators separators s')
  end.

(** The tokens written one after the other. *)
Fixpoint concat_tokens (tokens : list string) : string :=
  match tokens with
  | [] => EmptyString
  | token :: rest => (token ++ concat_tokens rest)%string
  end.

(** The shape of a token: one special character, or a non-empty run
    without separators and without special characters. *)
Definition plain_char (separators special_chars : string) (c : ascii)
  : bool :=
  negb (CStr.mem c separators) && negb (CStr.mem c special_chars).

Definition token_shape (token : string) : Prop :=
  (exists c, token = String c EmptyString /\ CStr.mem c SPECIAL_CHARS = true
             /\ CStr.mem c WORD_SEPARATORS = false) \/
  (token <> EmptyString /\
   CStr.all_chars (plain_char WORD_SEPARATORS SPECIAL_CHARS) token = true).

(** ** The positional grammar of redirection and pipe tokens *)

(** ['<'] at position [i] of [count] words. *)
Definition lt_rule (count i : Z) : Prop := i = 0 /\ 3 <= count.

(** ['>'] at position [i]: second to last, or third to last and followed
    by another ['>']. *)
Definition gt_rule (count : Z) (words : list string) (i : Z) : Prop :=
  3 <= count /\ i <> 0 /\
  (i = count - 2 \/ (i = count - 3 /\ word_at words (i + 1) = Some ">")).

(** ['|'] at position [i]: strictly inside, not right after a ['|']. *)
Definition pipe_rule (count : Z) (words : list string) (i : Z) : Prop :=
  0 < i < count - 1 /\ word_at words (i - 1) <> Some "|".

(** Every occurrence of [token] in [words] is at a position allowed by
    [rule]. *)
Definition obeys (token : string) (rule : Z -> Prop) (words : list string)
  : Prop :=
  forall i, word_at words i = Some token -> rule i.

Definition count_of (words : list string) : Z := Z.of_nat (List.length words).

(** The occurrences of [token] from position [i] on obey [rule]. *)
Definition obeys_from (words : list string) (i : Z) (token : string)
  (rule : Z -> Prop) : Prop :=
  forall j, i <= j -> word_at words j = Some token -> rule j.

(** No error counter is negative. *)
Definition nonneg (e : errors) : Prop :=
  0 <= input_err e /\ 0 <= output_err e /\ 0 <= pipe_err e.

Definition lt_ok (words : list string) : Prop :=
  obeys "<" (lt_rule (count_of words)) words.
Definition gt_ok (words : list string) : Prop :=
  obeys ">" (gt_rule (count_of words) words) words.
Definition pipe_ok (words : list string) : Prop :=
  obeys "|" (pipe_rule (count_of words) words) words.

(** [validate(tokens)] as [execute_command] calls it. *)
Definition validate (words : list string) : Act (Z * counters) :=
  redirection_check_arg (count_of words) zero_counters words.

(** A line is rejected with [msg]: the validator prints [msg] and
    returns 1, and [execute_command] then does nothing else: it leaves
    the history file alone and calls nothing. *)
Definition rejects (words : list string) (msg : string) : Prop :=
  (exists c, validate words = ([Stderr msg], Done (1, c))) /\
  forall w path environment h,
    execute_command w words path environment h
    = (h, ([Stderr msg], Done tt)).

(** ** History listings *)

(** Whether a row of the history file ends with a newline. *)
Fixpoint ends_with_lf (row : string) : bool :=
  match row with
  | EmptyString => false
  | String c EmptyString => Ascii.eqb c LF
  | String _ rest => ends_with_lf rest
  end.

(** Every row [fgets] reads from [text] is a whole line: the text ends
    with a newline and no line is longer than the row buffer. *)
Definition lines_terminated (text : string) : bool :=
  forallb ends_with_lf (file_rows text).

(** Rows with their 0-based sequence numbers. *)
Fixpoint numbered_from (k : Z) (rows : list string) : list (Z * string) :=
  match rows with
  | [] => []
  | row :: rest => (k, row) :: numbered_from (k + 1) rest
  end.

Definition numbered (rows : list string) : list (Z * string) :=
  numbered_from 0 rows.

(** The last [n] elements of a list. *)
Definition last_n {A} (n : nat) (l : list A) : list A :=
  skipn (List.length l - n) l.

(** One line of the listing printed by [history]. *)
Definition show_entry (entry : Z * string) : event :=
  Stdout (fmt_int (fst entry) ++ ": " ++ CStr.of_buffer (snd entry))%string.

(** ** What a line leaves in the history file *)

Definition accepted (v : Act (Z * counters)) : option counters :=
  match v with
  | ([], Done (0, rc)) => Some rc
  | _ => None
  end.

(** The tokens a line starting with ['!'] is replaced by: those of the
    recalled line as [tokenize] reads it back, if the line has no
    redirection, its argument is valid, the recall succeeds and what is
    read back passes validation. *)
Definition recalled (w : World) (words : list string) (rc : counters)
  (h : hist) : option (list string) :=
  if redirected rc then None
  else
    match exclamation_check_arg (-1) (count_of words) words with
    | (_, Done (0, command_num)) =>
        match load_command w h command_num with
        | (_, Done (Some row)) =>
            let line := w_stale w TokenizeRecalled row in
            match accepted (validate (tokenize_line line)) with
            | Some _ => Some (tokenize_line line)
            | None => None
            end
        | _ => None
        end
    | _ => None
    end.

(** The finalized token sequence of a line, when there is one: the
    tokens themselves if they pass validation, or, for a line that starts
    with ['!'], the tokens recalled. *)
Definition finalized (w : World) (words : list string) (h : hist)
  : option (list string) :=
  match words with
  | [] => None
  | first :: _ =>
      match accepted (validate words) with
      | None => None
      | Some rc =>
          if CStr.streq first "!" then recalled w words rc h
          else Some words
      end
  end.


(** ** Sample environments *)

Module Sample.

(** [st_mode] of an executable regular file ([0100755]) and of a plain
    regular file ([0100644]). *)
Definition exe_mode : Z := 33261.
Definition file_mode : Z := 33188.

Fixpoint lookup {A} (key : string) (table : list (string * A)) : option A :=
  match table with
  | [] => None
  | (k, v) :: rest => if String.eqb key k then Some v else lookup key rest
  end.

(** An environment with the given files (path and mode; the files with
    an execute bit pass [faccessat]) and the given glob results, in which
    every child exits with status 0 and leaves the history file alone,
    and in which the bytes of a dead array are still there when they are
    read. *)
Definition world (files : list (string * Z))
  (globs : list (string * list string)) : World :=
  {| w_stat := fun p => lookup p files;
     w_access_x := fun p =>
       match lookup p files with
       | Some mode => negb (Z.land mode 64 =? 0)
       | None => false
       end;
     w_glob := fun p =>
       match lookup p globs with Some found => found | None => [] end;
     w_child := fun _ _ _ _ => Exited 0;
     w_chdir := fun _ => true;
     w_getcwd := Some "/home/u";
     w_home := Some "/home/u";
     w_hist_open := true;
     w_pipe := fun _ => true;
     w_stale := fun _ text => text;
     w_child_hist := fun _ _ _ _ h => h |}.

(** [/bin] holds [ls], [wc] and [echo]. *)
Definition bin_files : list (string * Z) :=
  [("/bin/ls", exe_mode); ("/bin/wc", exe_mode); ("/bin/echo", exe_mode)].

Definition plain : World := world bin_files [].

Definition path : list string := ["/bin"].

End Sample.

(** The count a [history] line asks for: the default for a bare
    [history], the value of its argument for [history n]. *)
Definition history_count (words : list string) : option Z :=
  match words with
  | [cmd] => if CStr.streq cmd "history" then Some DEFAULT_HISTORY_SHOWN
             else None
  | [cmd; arg] =>
      if CStr.streq cmd "history" && CStr.all_chars isdigit arg
      then Some (atoi arg) else None
  | _ => None
  end.

(** ** Opening a file for output *)

(** The effect of an [addopen] action on the file it names is that of
    [open(2)], which is not part of the program; the three definitions
    below are modelled from POSIX [open(2)] and [write(2)]: [O_CREAT]
    creates a missing file, [O_TRUNC] empties an existing one, a
    descriptor opened without [O_APPEND] writes from offset 0 over what
    is there, and one opened with [O_APPEND] writes at the end. *)
Definition has_flag (oflag flag : Z) : bool :=
  negb (Z.land oflag flag =? 0).

(** The contents of the file right after it was opened; [None] when
    [open] fails. *)
Definition opened_content (oflag : Z) (existing : option string)
  : option string :=
  match existing with
  | None => if has_flag oflag O_CREAT then Some EmptyString else None
  | Some text => Some (if has_flag oflag O_TRUNC then EmptyString else text)
  end.

(** The contents after the child wrote [data] in one go. *)
Definition written (oflag : Z) (content data : string) : string :=
  if has_flag oflag O_APPEND then (content ++ data)%string
  else (data ++ CStr.drop (String.length data) content)%string.

Definition output_file_after (oflag : Z) (existing : option string)
  (data : string) : option string :=
  match opened_content oflag existing with
  | Some content => Some (written oflag content data)
  | None => None
  end.

Module Cases.

(** The directory of [Sample.plain] with a writable file [out]. *)
Definition with_out : World :=
  Sample.world (Sample.bin_files ++ [("out", Sample.file_mode)]) [].

(** The current directory holds an executable [foo]; [/bin] does not. *)
Definition with_foo : World :=
  Sample.world (Sample.bin_files ++ [("foo", Sample.exe_mode)]) [].

(** The current directory holds [a.c] and [b.c]. *)
Definition with_sources : World :=
  Sample.world Sample.bin_files [("*.c", ["a.c"; "b.c"])].

(** The history file of [Sample.plain]. *)
Definition history_path : string := "/home/u/.msh_history".

(** What a child that writes ["hi"] and a newline to its standard
    output does to the history file: nothing, unless its standard output
    was opened on that file. *)
Definition echo_to (actions : list file_action) (h : hist) : hist :=
  match actions with
  | [AddOpen 1 file oflag _] =>
      if String.eqb file history_path
      then output_file_after oflag h ("hi" ++ NL)
      else h
  | _ => h
  end.

(** [Sample.plain] with the history file in place, where every child
    writes ["hi"] and a newline to its standard output. *)
Definition with_history : World :=
  let w := Sample.world
             (Sample.bin_files ++ [(history_path, Sample.file_mode)]) [] in
  {| w_stat := w_stat w;
     w_access_x := w_access_x w;
     w_glob := w_glob w;
     w_child := w_child w;
     w_chdir := w_chdir w;
     w_getcwd := w_getcwd w;
     w_home := w_home w;
     w_hist_open := w_hist_open w;
     w_pipe := w_pipe w;
     w_stale := w_stale w;
     w_child_hist := fun _ actions _ _ h => echo_to actions h |}.

(** [Sample.plain] where the array of [load_command] has been
    overwritten by the time the recalled row is read: [printf] finds a
    NUL byte at its start, [tokenize] the single byte ["x"]. *)
Definition with_clobbered_recall : World :=
  let w := Sample.plain in
  {| w_stat := w_stat w;
     w_access_x := w_access_x w;
     w_glob := w_glob w;
     w_child := w_child w;
     w_chdir := w_chdir w;
     w_getcwd := w_getcwd w;
     w_home := w_home w;
     w_hist_open := w_hist_open w;
     w_pipe := w_pipe w;
     w_stale := fun use text =>
       match use with
       | EchoRecalled => EmptyString
       | TokenizeRecalled => "x"
       | TokenizeExpanded => text
       end;
     w_child_hist := w_child_hist w |}.

End Cases.

(** A run of [k] copies of the character [c]. *)
Fixpoint run_of (c : ascii) (k : nat) : string :=
  match k with
  | O => EmptyString
  | S k' => String c (run_of c k')
  end.

Definition long_history : string := "history " ++ run_of "0" 1014 ++ "1".

(** ** Actions that leave the history file as it is *)

Definition keeps_hist {A} (m : M A) : Prop := forall h, fst (m h) = h.

(** An action that calls [posix_spawn] nowhere. *)
Definition nospawn {A} (m : Act A) : Prop :=
  Forall (fun e => is_spawn e = false) (fst m).

(** An action that leaves the history file as it is and spawns nothing. *)
Definition inert {A} (m : M A) : Prop :=
  forall h, fst (m h) = h /\ nospawn (snd (m h)).


(** ** Commands *)

(** The word that names the command of a line: the first word, or the
    third when the first is ['<']. *)
Definition command_of (words : list string) : option string :=
  match word_at words 0 with
  | Some first =>
      if CStr.streq first "<" then word_at words 2 else Some first
  | None => None
  end.

(** The builtins whose branch of [execute_command] tests the
    redirection counters. *)
Definition checked_builtin (program : string) : bool :=
  CStr.streq program "pwd" || CStr.streq program "cd" ||
  CStr.streq program "history".

(** The pathname [execute_command] tests and runs for [program]. *)
Definition resolved (w : World) (path : list string) (program : string)
  : string :=
  if has_slash program then program
  else
    match find_in_path w path program with
    | Some pathname => pathname
    | None => program
    end.

(** The search for [program] writes no candidate past the end of
    [pathname]: there is no search, or every candidate the loop builds
    fits. *)
Definition fits (w : World) (path : list string) (program : string)
  : Prop :=
  has_slash program = true \/ pathname_overflow w path program = false.

(** An action that neither calls [exit] nor fails an assertion. *)
Definition quiet {A} (m : Act A) : Prop :=
  match snd m with
  | Halt (Exit _) => False
  | Halt Abort => False
  | _ => True
  end.

Definition mquiet {A} (m : M A) : Prop := forall h, quiet (snd (m h)).

(** ** Further vocabulary *)

(** [strchr(separators, c) != NULL] as a predicate on characters. *)
Definition is_separator (separators : string) (c : ascii) : bool :=
  CStr.mem c separators.

Definition not_separator (separators : string) (c : ascii) : bool :=
  negb (CStr.mem c separators).

(** The entry a [!] line refers to: [-1], the last one, for a bare [!],
    the value of the argument for [! n]. *)
Definition bang_reference (words : list string) : option Z :=
  match words with
  | [cmd] => if CStr.streq cmd "!" then Some (-1) else None
  | [cmd; arg] =>
      if CStr.streq cmd "!" && CStr.all_chars isdigit arg
      then Some (atoi arg) else None
  | _ => None
  end.

(** The result of a line with [text] printed in front of its output. *)
Definition after_echo (text : string) (r : hist * Act unit)
  : hist * Act unit :=
  (fst r, (Stdout text :: fst (snd r), snd (snd r))).

(** Sum of the three error counters of [redirection_check_arg]. *)
Definition err_sum (e : errors) : Z :=
  input_err e + output_err e + pipe_err e.

(** The counter a well-placed token adds to. *)
Definition count_step (wd : string) (c : counters) : counters :=
  if CStr.streq wd "<" then add_input c
  else if CStr.streq wd ">" then add_output c
  else if CStr.streq wd "|" then add_pipe c
  else c.

Fixpoint count_steps (words : list string) (c : counters) : counters :=
  match words with
  | [] => c
  | wd :: rest => count_steps rest (count_step wd c)
  end.

(** Number of occurrences of [token] in [words]. *)
Definition occurrences (token : string) (words : list string) : Z :=
  Z.of_nat (count_occ string_dec words token).

(** No word of the line is a redirection or pipe token. *)
Definition no_redirection (words : list string) : Prop :=
  ~ In "<"%string words /\ ~ In ">"%string words /\ ~ In "|"%string words.

(** A directory the path search passes over: its candidate fits the
    array [pathname] and is not an executable regular file. *)
Definition passed_over (w : World) (program dir : string) : Prop :=
  (String.length (dir ++ "/" ++ program) < 1024)%nat /\
  is_executable w (dir ++ "/" ++ program) = false.

(** The words that name the input file of a line: ['<'] and the file. *)
Definition input_words (infile : option string) : list string :=
  match infile with
  | Some file => ["<"; file]
  | None => []
  end.

(** Where the output of a line goes. *)
Inductive out_target : Type :=
| NoOutput
| Truncate (file : string)
| Append (file : string).

(** The words that name the output file of a line. *)
Definition output_words (o : out_target) : list string :=
  match o with
  | NoOutput => []
  | Truncate file => [">"; file]
  | Append file => [">"; ">"; file]
  end.

(** The counters [input] and [output] the validation finds for them. *)
Definition input_count (infile : option string) : Z :=
  match infile with Some _ => 1 | None => 0 end.

Definition output_count (o : out_target) : Z :=
  match o with NoOutput => 0 | Truncate _ => 1 | Append _ => 2 end.

Definition input_open (infile : option string) : list file_action :=
  match infile with
  | Some file => [AddOpen 0 file O_RDONLY MODE_0644]
  | None => []
  end.

Definition output_open (o : out_target) : list file_action :=
  match o with
  | NoOutput => []
  | Truncate file => [AddOpen 1 file (Z.lor O_CREAT O_WRONLY) MODE_0644]
  | Append file =>
      [AddOpen 1 file (Z.lor (Z.lor O_CREAT O_WRONLY) O_APPEND) MODE_0644]
  end.

(** What is reported once a child has been spawned and waited for. *)
Definition child_report (program : string) (c : child) : list event :=
  match c with
  | SpawnFailed => [Perror "spawn"]
  | WaitFailed => [Perror "waitpid"]
  | Exited code => [Stdout (MSG_STATUS program code)]
  | Signaled => []
  end.

(** A row as [fgets] delivers it: between 1 and 1023 characters, with a
    newline at its end or nowhere. *)
Definition row_shape (row : string) : Prop :=
  (1 <= String.length row <= 1023)%nat /\
  exists body,
    CStr.mem LF body = false /\ (row = (body ++ NL)%string \/ row = body).


(** The words of a pipeline: its stages with ['|'] between them. *)
Fixpoint join_stages (stages : list (list string)) : list string :=
  match stages with
  | [] => []
  | stage :: rest =>
      match rest with
      | [] => stage
      | _ => stage ++ "|"%string :: join_stages rest
      end
  end.

(** A stage: at least one word, none of them ['|'] or ['>']. *)
Definition stage_ok (stage : list string) : Prop :=
  stage <> [] /\ ~ In "|"%string stage /\ ~ In ">"%string stage.

(** The word that names the program of a stage. *)
Definition stage_command (stage : list string) : string :=
  hd EmptyString stage.

(** Resolution of the commands of the stages, one after the other,
    stopping at the first that is refused or that does not fit the
    array it is copied to. *)
Fixpoint resolve_commands (w : World) (path commands programs : list string)
  : Act (option (list string)) :=
  match commands with
  | [] => ret (Some programs)
  | cmd :: rest =>
      if Nat.leb MAX_LINE_CHARS (String.length cmd) then stop Undefined
      else if is_stage_builtin cmd then
        emit (Stderr (MSG_BUILTIN cmd)) ;; ret None
      else
        found <- (if has_slash cmd then ret (Some cmd)
                  else search_path w path cmd) ;;
        match found with
        | None => emit (Stderr (MSG_NOT_FOUND cmd)) ;; ret None
        | Some program =>
            resolve_commands w path rest (programs ++ [program])
        end
  end.

(** The file actions of stage [k] of [n]: entry [2 i] of the descriptor
    array is the read end of pipe [i], entry [2 i + 1] its write end. *)
Definition stage_actions (n : nat) (infile : option string) (o : out_target)
  (k : nat) : list file_action :=
  if Nat.eqb k 0 then input_open infile ++ [AddDup2 1 1]
  else if Nat.eqb (S k) n then
    AddDup2 (2 * Z.of_nat k - 2) 0 :: output_open o
  else [AddDup2 (2 * Z.of_nat k - 2) 0; AddDup2 (2 * Z.of_nat k + 1) 1].

(** What stage [k] of [n] does when its child is spawned and waited
    for. *)
Definition stage_events (w : World) (n : nat) (infile : option string)
  (o : out_target) (environment programs : list string)
  (stages : list (list string)) (k : nat) : list event :=
  PosixSpawn (nth k programs EmptyString) (stage_actions n infile o k)
    (nth k stages []) environment ::
  (if Nat.eqb (S k) n then
     child_report (nth k programs EmptyString)
       (w_child w (nth k programs EmptyString) (stage_actions n infile o k)
          (nth k stages []) environment)
   else [Close (2 * Z.of_nat k + 1)]).

Definition made_pipes (k d : nat) : list event :=
  map (fun i => MkPipe (Z.of_nat i)) (seq k d).

(** What the program reads of the rows of a text: of each row that
    [fgets] stores, the C string at its start. *)
Definition seen_rows (s : string) : list string :=
  map CStr.of_buffer (file_rows s).

(** [seen] is the part of [row] before its first NUL byte. *)
Definition c_string_of (seen row : string) : Prop :=
  CStr.mem CStr.NUL seen = false /\
  (row = seen \/
   exists rest, row = (seen ++ String CStr.NUL rest)%string).

(** * Properties *)

(** ** Strings *)

Module StrFacts.

Lemma app_nil_r (s : string) : (s ++ "")%string = s.
Proof. induction s as [|c s IH]; simpl; [reflexivity | now rewrite IH]. Qed.

Lemma app_assoc (a b c : string) :
  ((a ++ b) ++ c)%string = (a ++ (b ++ c))%string.
Proof. induction a as [|x a IH]; simpl; [reflexivity | now rewrite IH]. Qed.

Lemma length_app (a b : string) :
  String.length (a ++ b) = (String.length a + String.length b)%nat.
Proof. induction a as [|x a IH]; simpl; [reflexivity | now rewrite IH]. Qed.

Lemma take_drop (n : nat) (s : string) :
  (CStr.take n s ++ CStr.drop n s)%string = s.
Proof.
  revert s; induction n as [|n IH]; intros [|c s]; simpl; try reflexivity.
  now rewrite IH.
Qed.

Lemma length_drop (n : nat) (s : string) :
  String.length (CStr.drop n s) = (String.length s - n)%nat.
Proof.
  revert s; induction n as [|n IH]; intros [|c s]; simpl; auto with arith.
Qed.

Lemma all_chars_app (p : ascii -> bool) (a b : string) :
  CStr.all_chars p (a ++ b) = CStr.all_chars p a && CStr.all_chars p b.
Proof.
  induction a as [|x a IH]; simpl; [reflexivity |].
  destruct (p x); simpl; auto.
Qed.

End StrFacts.

(** ** tokenize *)

Section Tokenizer.

Variables separators special_chars : string.

Local Abbreviation plain := (plain_char separators special_chars).
Local Abbreviation scan := (scan_tokens separators special_chars).

Lemma scan_skip_separators (s : string) :
  scan "" s = scan "" (CStr.drop (CStr.strspn s separators) s).
Proof.
  induction s as [|c s IH]; simpl; [reflexivity |].
  destruct (CStr.mem c separators) eqn:Hc; simpl.
  - exact IH.
  - now rewrite Hc.
Qed.

Lemma drop_strspn_head (s : string) c r :
  CStr.drop (CStr.strspn s separators) s = String c r ->
  CStr.mem c separators = false.
Proof.
  induction s as [|d s IH]; simpl; [discriminate |].
  destruct (CStr.mem d separators) eqn:Hd; simpl.
  - exact IH.
  - intros [= -> ->]. exact Hd.
Qed.

(** The token length chosen by [tokenize] is the length of the leading
    run of plain characters. *)
Lemma min_strcspn (s : string) :
  Nat.min (CStr.strcspn s separators) (CStr.strcspn s special_chars)
  = count_while plain s.
Proof.
  induction s as [|c s IH]; [reflexivity |].
  cbn [CStr.strcspn count_while]. unfold plain_char at 1.
  destruct (CStr.mem c separators), (CStr.mem c special_chars);
    cbn [negb andb]; try reflexivity.
  rewrite <- IH. reflexivity.
Qed.

Lemma scan_plain_run (s cur : string) :
  scan cur s =
  scan (cur ++ CStr.take (count_while plain s) s)
       (CStr.drop (count_while plain s) s).
Proof.
  revert cur; induction s as [|c s IH]; intros cur.
  - simpl. now rewrite StrFacts.app_nil_r.
  - cbn [count_while]. unfold plain_char at 1 3.
    destruct (CStr.mem c separators) eqn:H1;
      [| destruct (CStr.mem c special_chars) eqn:H2];
      cbn [negb andb CStr.take CStr.drop].
    + now rewrite StrFacts.app_nil_r.
    + now rewrite StrFacts.app_nil_r.
    + cbn [scan_tokens]. rewrite H1, H2, IH.
      now rewrite StrFacts.app_assoc.
Qed.

Lemma scan_at_boundary (s cur : string) :
  count_while plain s = 0%nat ->
  scan cur s = flush cur ++ scan "" s.
Proof.
  destruct s as [|c s]; intros H.
  - simpl. now rewrite app_nil_r.
  - cbn [count_while] in H. unfold plain_char in H. cbn [scan_tokens].
    destruct (CStr.mem c separators); [reflexivity |].
    destruct (CStr.mem c special_chars); [reflexivity | discriminate].
Qed.

Lemma count_while_drop (s : string) :
  count_while plain (CStr.drop (count_while plain s) s) = 0%nat.
Proof.
  induction s as [|c s IH]; simpl; [reflexivity |].
  destruct (plain c) eqn:H; simpl; [exact IH | now rewrite H].
Qed.

(** One unit of fuel per character is enough, and with that much fuel
    the loop of [tokenize] computes what the scanner computes. *)
Lemma tokenize_loop_scan (fuel : nat) (s : string) :
  (String.length s <= fuel)%nat ->
  tokenize_loop fuel s separators special_chars = scan "" s.
Proof.
  revert s; induction fuel as [|fuel IH]; intros s Hlen.
  - destruct s; [reflexivity | simpl in Hlen; lia].
  - cbn [tokenize_loop].
    destruct s as [|c0 s0] eqn:Hs; [reflexivity |].
    cbn [CStr.is_empty]. rewrite <- Hs in *. clear c0 s0 Hs.
    rewrite (scan_skip_separators s).
    pose proof (StrFacts.length_drop (CStr.strspn s separators) s) as Hd.
    destruct (CStr.drop (CStr.strspn s separators) s) as [|c r] eqn:Hr;
      [reflexivity |].
    pose proof (drop_strspn_head _ _ _ Hr) as Hc.
    cbn [CStr.is_empty].
    set (t := String c r) in *.
    assert (Hmin := min_strcspn t).
    assert (Hlt : (String.length t <= S fuel)%nat) by lia.
    destruct (CStr.mem c special_chars) eqn:Hsp.
    + (* a special character: a token of length one *)
      subst t. cbn [CStr.strcspn]. rewrite Hc, Hsp. cbn [Nat.eqb].
      assert (Hone : (if Nat.ltb 1 (S (CStr.strcspn r separators))
                      then 1%nat else S (CStr.strcspn r separators))
                     = 1%nat).
      { destruct (CStr.strcspn r separators); reflexivity. }
      rewrite Hone. cbn [CStr.take CStr.drop].
      cbn [scan_tokens]. rewrite Hc, Hsp. cbn [flush CStr.is_empty app].
      f_equal. apply IH. simpl in Hlt. lia.
    + (* a run of plain characters *)
      assert (Hpos : exists k, count_while plain t = S k).
      { subst t. unfold plain_char. simpl. rewrite Hc, Hsp. simpl. eauto. }
      destruct Hpos as [k Hk].
      assert (Hnz : Nat.eqb (CStr.strcspn t special_chars) 0 = false).
      { subst t. simpl. now rewrite Hsp. }
      rewrite Hnz.
      assert (Hsel : (if Nat.ltb (CStr.strcspn t special_chars)
                           (CStr.strcspn t separators)
                      then CStr.strcspn t special_chars
                      else CStr.strcspn t separators)
                     = count_while plain t).
      { rewrite <- Hmin.
        destruct (Nat.ltb_spec (CStr.strcspn t special_chars)
                    (CStr.strcspn t separators)); lia. }
      rewrite Hsel.
      rewrite (scan_plain_run t ""), scan_at_boundary
        by apply count_while_drop.
      cbn [String.append]. rewrite Hk.
      subst t. cbn [CStr.take flush CStr.is_empty app].
      f_equal. rewrite <- Hk. apply IH.
      rewrite StrFacts.length_drop, Hk. cbn [String.length] in Hlt |- *. lia.
Qed.

Lemma tokenize_loop_fuel (fuel : nat) (s : string) :
  (String.length s <= fuel)%nat ->
  tokenize_loop fuel s separators special_chars
  = tokenize s separators special_chars.
Proof.
  intros H. unfold tokenize.
  rewrite !tokenize_loop_scan; auto.
Qed.

Lemma flush_shape (P : string -> Prop) (cur : string) :
  (cur <> EmptyString -> P cur) -> Forall P (flush cur).
Proof.
  destruct cur as [|c cur]; intros H; constructor;
    [apply H; discriminate | constructor].
Qed.

(** Every token the scanner emits is non-empty, and is a single special
    character or a run of plain characters. *)
Lemma scan_shape (s cur : string) :
  CStr.all_chars plain cur = true ->
  Forall (fun token =>
            (exists c, token = String c EmptyString /\
                       CStr.mem c special_chars = true /\
                       CStr.mem c separators = false) \/
            (token <> EmptyString /\ CStr.all_chars plain token = true))
         (scan cur s).
Proof.
  revert cur; induction s as [|c s IH]; intros cur Hcur; cbn [scan_tokens].
  - apply flush_shape. intros Hne. right. now split.
  - destruct (CStr.mem c separators) eqn:H1.
    + apply Forall_app; split; [| now apply IH].
      apply flush_shape. intros Hne. right. now split.
    + destruct (CStr.mem c special_chars) eqn:H2.
      * apply Forall_app; split.
        { apply flush_shape. intros Hne. right. now split. }
        constructor; [left; eauto | now apply IH].
      * apply IH. rewrite StrFacts.all_chars_app, Hcur.
        cbn [CStr.all_chars andb]. unfold plain_char. now rewrite H1, H2.
Qed.

Lemma concat_tokens_app (a b : list string) :
  concat_tokens (a ++ b) = (concat_tokens a ++ concat_tokens b)%string.
Proof.
  induction a as [|t a IH]; [reflexivity |].
  cbn [app concat_tokens]. now rewrite IH, StrFacts.app_assoc.
Qed.

Lemma concat_flush (cur : string) : concat_tokens (flush cur) = cur.
Proof.
  destruct cur; [reflexivity |]. cbn [flush CStr.is_empty concat_tokens].
  apply StrFacts.app_nil_r.
Qed.

(** The scanner neither drops nor invents a character: its tokens,
    written one after the other, are the line without its separators. *)
Lemma scan_concat (s cur : string) :
  concat_tokens (scan cur s)
  = (cur ++ without_separators separators s)%string.
Proof.
  revert cur; induction s as [|c s IH]; intros cur;
    cbn [scan_tokens without_separators].
  - now rewrite concat_flush, StrFacts.app_nil_r.
  - destruct (CStr.mem c separators) eqn:H1.
    + now rewrite concat_tokens_app, concat_flush, IH.
    + destruct (CStr.mem c special_chars) eqn:H2.
      * rewrite concat_tokens_app, concat_flush. cbn [concat_tokens].
        now rewrite IH.
      * now rewrite IH, StrFacts.app_assoc.
Qed.

End Tokenizer.

Lemma tokenize_line_spec (line : string) :
  tokenize_line line = spec_tokenize line.
Proof.
  unfold tokenize_line, tokenize, spec_tokenize.
  now apply tokenize_loop_scan.
Qed.

Lemma tokenize_line_shape (line : string) :
  Forall token_shape (tokenize_line line).
Proof.
  rewrite tokenize_line_spec. unfold spec_tokenize, token_shape.
  now apply scan_shape.
Qed.

Lemma tokenize_line_concat (line : string) :
  concat_tokens (tokenize_line line)
  = without_separators WORD_SEPARATORS line.
Proof.
  rewrite tokenize_line_spec. unfold spec_tokenize.
  now rewrite scan_concat.
Qed.

(** C7.  [tokenize] on an input line yields exactly the maximal runs of
    non-separator characters, cut so that each special character
    ([!], [<], [>], [|]) is a token of its own whatever surrounds it:
    it computes what the character-by-character scanner computes, every
    token is a single special character or a non-empty run free of
    separators and special characters, and the tokens together are the
    line without its separators.  ["a>>b"] gives the four tokens [a],
    [>], [>], [b] and ["ls -l | wc"] gives [ls], [-l], [|], [wc]. *)
Theorem tokenize_isolates_specials :
  (forall line, tokenize_line line = spec_tokenize line) /\
  (forall line, Forall token_shape (tokenize_line line)) /\
  (forall line, concat_tokens (tokenize_line line)
                = without_separators WORD_SEPARATORS line) /\
  tokenize_line "a>>b" = ["a"; ">"; ">"; "b"] /\
  tokenize_line "ls -l | wc" = ["ls"; "-l"; "|"; "wc"].
Proof.
  split; [exact tokenize_line_spec |].
  split; [exact tokenize_line_shape |].
  split; [exact tokenize_line_concat |].
  split; reflexivity.
Qed.

(** ** redirection_check_arg *)

Section Validator.

Variable words : list string.

Local Abbreviation count := (count_of words).

Lemma word_at_in_range (i : Z) :
  0 <= i < count -> exists wd, word_at words i = Some wd.
Proof.
  intros [H0 H1]. unfold word_at.
  destruct (Z.ltb_spec i 0); [lia |].
  destruct (nth_error words (Z.to_nat i)) eqn:E; [eauto |].
  apply nth_error_None in E. unfold count_of in H1. lia.
Qed.

Lemma word_at_range (i : Z) (wd : string) :
  word_at words i = Some wd -> 0 <= i < count.
Proof.
  unfold word_at. destruct (Z.ltb_spec i 0); [discriminate |].
  intros E. assert (nth_error words (Z.to_nat i) <> None) as N by congruence.
  apply nth_error_Some in N. unfold count_of. lia.
Qed.

Lemma streq_true (a b : string) : CStr.streq a b = true <-> a = b.
Proof. apply String.eqb_eq. Qed.

Lemma streq_false (a b : string) : CStr.streq a b = false <-> a <> b.
Proof. apply String.eqb_neq. Qed.

(** Effect of one iteration on the error counters. *)
Lemma redir_body_spec (i : Z) (wd : string) (c : counters) (e : errors) :
  word_at words i = Some wd -> nonneg e ->
  exists c' e' brk,
    redir_body count words i c e = Some (c', e', brk) /\
    nonneg e' /\
    (input_err e' = 0 <->
       input_err e = 0 /\ (wd = "<"%string -> lt_rule count i)) /\
    (brk = false <-> (wd = "<"%string -> lt_rule count i)) /\
    (brk = false ->
       (output_err e' = 0 <->
          output_err e = 0 /\ (wd = ">"%string -> gt_rule count words i)) /\
       (pipe_err e' = 0 <->
          pipe_err e = 0 /\ (wd = "|"%string -> pipe_rule count words i))).
Proof.
  intros Hw (Hi & Ho & Hp).
  pose proof (word_at_range _ _ Hw) as Hr.
  unfold redir_body. rewrite Hw.
  destruct (String.eqb_spec wd "<") as [-> | Nlt].
  { (* '<' *)
    unfold redir_lt. cbn [CStr.streq String.eqb Ascii.eqb Bool.eqb].
    unfold lt_rule.
    destruct (Z.ltb_spec count 3); [| destruct (Z.eqb_spec i 0)].
    - do 3 eexists; split; [reflexivity |]. unfold nonneg; simpl.
      repeat split; intros; try lia; try discriminate;
        try (exfalso; intuition lia).
    - do 3 eexists; split; [reflexivity |]. unfold nonneg; simpl.
      repeat split; intros; try lia; try discriminate; intuition lia.
    - do 3 eexists; split; [reflexivity |]. unfold nonneg; simpl.
      repeat split; intros; try lia; try discriminate;
        try (exfalso; intuition lia). }
  assert (Hlt : redir_lt count i wd c e = (c, e, false)).
  { unfold redir_lt. apply streq_false in Nlt. now rewrite Nlt. }
  rewrite Hlt.
  destruct (String.eqb_spec wd ">") as [-> | Ngt].
  { (* '>' *)
    unfold redir_gt, redir_pipe, gt_rule.
    cbn [CStr.streq String.eqb Ascii.eqb Bool.eqb].
    destruct (Z.eqb_spec i 0);
      [| destruct (Z.eqb_spec i (count - 3));
         [| destruct (Z.eqb_spec i (count - 2))]].
    - do 3 eexists; split; [reflexivity |]. unfold nonneg.
      destruct (Z.ltb_spec count 3); simpl;
        repeat split; intros; try lia; try discriminate;
          try (exfalso; intuition lia); intuition (try discriminate; lia).
    - destruct (word_at_in_range (i + 1)) as [next Hn]; [lia |].
      rewrite Hn.
      destruct (Z.ltb_spec count 3); [lia |].
      destruct (String.eqb_spec next ">") as [-> | Nn].
      + do 3 eexists; split; [reflexivity |]. unfold nonneg; simpl.
        repeat split; intros; try lia; try discriminate;
          intuition (try discriminate; lia).
      + apply streq_false in Nn. rewrite Nn. apply streq_false in Nn.
        do 3 eexists; split; [reflexivity |]. unfold nonneg; simpl.
        repeat split; intros; try lia; try discriminate;
          try (exfalso; intuition (try congruence; lia));
          intuition (try discriminate; try congruence; lia).
    - destruct (Z.ltb_spec count 3); [lia |].
      do 3 eexists; split; [reflexivity |]. unfold nonneg; simpl.
      repeat split; intros; try lia; try discriminate;
        intuition (try discriminate; lia).
    - do 3 eexists; split; [reflexivity |]. unfold nonneg.
      destruct (Z.ltb_spec count 3); simpl;
        repeat split; intros; try lia; try discriminate;
          try (exfalso; intuition lia); intuition (try discriminate; lia). }
  assert (Hgt : redir_gt count words i wd c e = Some (c, e)).
  { unfold redir_gt. apply streq_false in Ngt. now rewrite Ngt. }
  rewrite Hgt.
  destruct (String.eqb_spec wd "|") as [-> | Npipe].
  { (* '|' *)
    unfold redir_pipe, pipe_rule.
    cbn [CStr.streq String.eqb Ascii.eqb Bool.eqb].
    destruct (Z.eqb_spec i 0);
      [| destruct (Z.eqb_spec i (count - 1))].
    - do 3 eexists; split; [reflexivity |]. unfold nonneg.
      destruct (Z.ltb_spec count 3); simpl;
        repeat split; intros; try lia; try discriminate;
          try (exfalso; intuition lia); intuition (try discriminate; lia).
    - do 3 eexists; split; [reflexivity |]. unfold nonneg.
      destruct (Z.ltb_spec count 3); simpl;
        repeat split; intros; try lia; try discriminate;
          try (exfalso; intuition lia); intuition (try discriminate; lia).
    - destruct (Z.ltb_spec 0 i); [| lia].
      destruct (Z.ltb_spec count 3); [lia |].
      destruct (word_at_in_range (i - 1)) as [prev Hpv]; [lia |].
      rewrite Hpv.
      destruct (String.eqb_spec prev "|") as [-> | Np].
      + do 3 eexists; split; [reflexivity |]. unfold nonneg; simpl.
        repeat split; intros; try lia; try discriminate;
          try (exfalso; intuition (try congruence; lia));
          intuition (try discriminate; try congruence; lia).
      + apply streq_false in Np. rewrite Np. apply streq_false in Np.
        do 3 eexists; split; [reflexivity |]. unfold nonneg; simpl.
        repeat split; intros; try lia; try discriminate;
          intuition (try discriminate; try congruence; lia). }
  assert (Hpipe : redir_pipe count words i wd c e = Some (c, e)).
  { unfold redir_pipe. apply streq_false in Npipe. now rewrite Npipe. }
  rewrite Hpipe.
  do 3 eexists; split; [reflexivity |]. unfold nonneg.
  repeat split; intros; try lia; try discriminate;
    intuition (try discriminate; try congruence; lia).
Qed.

Lemma obeys_from_step (i : Z) (wd token : string) (rule : Z -> Prop) :
  word_at words i = Some wd ->
  (obeys_from words i token rule <->
   (wd = token -> rule i) /\ obeys_from words (i + 1) token rule).
Proof.
  intros Hw. unfold obeys_from. split.
  - intros H. split.
    + intros ->. apply H; [lia | exact Hw].
    + intros j Hj. apply H. lia.
  - intros [H0 H1] j Hj Hwj.
    destruct (Z.eq_dec j i) as [-> | Hne].
    + apply H0. congruence.
    + apply H1; [lia | exact Hwj].
Qed.

Lemma obeys_from_end (i : Z) (token : string) (rule : Z -> Prop) :
  count <= i -> obeys_from words i token rule.
Proof.
  intros Hi j Hj Hw. apply word_at_range in Hw. lia.
Qed.

(** Invariant of the [for] loop: an error counter is zero at the end
    exactly when it was zero and no later token broke its rule.  The
    [break] on a misplaced ['<'] leaves later tokens unexamined, so the
    other two counters are described only when ['<'] is well placed. *)
Lemma redir_loop_spec (fuel : nat) : forall i c e,
  0 <= i -> i + Z.of_nat fuel = count -> nonneg e ->
  exists c' e',
    redir_loop fuel count words i c e = Some (c', e') /\
    nonneg e' /\
    (input_err e' = 0 <->
       input_err e = 0 /\ obeys_from words i "<" (lt_rule count)) /\
    (obeys_from words i "<" (lt_rule count) ->
       (output_err e' = 0 <->
          output_err e = 0 /\ obeys_from words i ">" (gt_rule count words)) /\
       (pipe_err e' = 0 <->
          pipe_err e = 0 /\ obeys_from words i "|" (pipe_rule count words))).
Proof.
  induction fuel as [|fuel IH]; intros i c e Hi Hfuel Hnn.
  - exists c, e. cbn [redir_loop].
    split; [reflexivity |]. split; [exact Hnn |].
    assert (Hend : count <= i) by lia.
    pose proof (obeys_from_end i "<" (lt_rule count) Hend) as H1.
    pose proof (obeys_from_end i ">" (gt_rule count words) Hend) as H2.
    pose proof (obeys_from_end i "|" (pipe_rule count words) Hend) as H3.
    split; [tauto | intros _; tauto].
  - cbn [redir_loop].
    destruct (Z.ltb_spec i count) as [Hlt | Hge]; [| lia].
    destruct (word_at_in_range i) as [wd Hw]; [lia |].
    destruct (redir_body_spec i wd c e Hw Hnn)
      as (c1 & e1 & brk & Hbody & Hnn1 & Hin & Hbrk & Hrest).
    rewrite Hbody.
    pose proof (obeys_from_step i wd "<" (lt_rule count) Hw) as Slt.
    pose proof (obeys_from_step i wd ">" (gt_rule count words) Hw) as Sgt.
    pose proof (obeys_from_step i wd "|" (pipe_rule count words) Hw) as Spp.
    destruct brk.
    + exists c1, e1. split; [reflexivity |]. split; [exact Hnn1 |].
      assert (Hno : ~ (wd = "<"%string -> lt_rule count i)).
      { intros H. apply Hbrk in H. discriminate. }
      split.
      * split; [intros H; apply Hin in H; tauto | intros [_ H]; tauto].
      * intros H. tauto.
    + destruct (IH (i + 1) c1 e1) as (c2 & e2 & Hloop & Hnn2 & Hin2 & Hrest2);
        [lia | lia | exact Hnn1 |].
      exists c2, e2. split; [exact Hloop |]. split; [exact Hnn2 |].
      specialize (Hrest eq_refl). destruct Hrest as [Hout Hpp].
      split; [tauto |].
      intros H. apply Slt in H. destruct H as [H0 H1].
      specialize (Hrest2 H1). tauto.
Qed.

(** The error counters after the whole loop. *)
Lemma redir_loop_all :
  exists c e,
    redir_loop (Z.to_nat count) count words 0 zero_counters no_errors
      = Some (c, e) /\
    nonneg e /\
    (input_err e = 0 <-> lt_ok words) /\
    (lt_ok words ->
       (output_err e = 0 <-> gt_ok words) /\
       (pipe_err e = 0 <-> pipe_ok words)).
Proof.
  assert (Hall : forall t r, obeys_from words 0 t r <-> obeys t r words).
  { intros t r. unfold obeys_from, obeys. split; intros H j.
    - intros Hw. apply H; [| exact Hw]. apply word_at_range in Hw. lia.
    - intros _. apply H. }
  destruct (redir_loop_spec (Z.to_nat count) 0 zero_counters no_errors)
    as (c & e & Hloop & Hnn & Hin & Hrest).
  - lia.
  - unfold count_of. lia.
  - unfold nonneg; simpl; lia.
  - exists c, e. split; [exact Hloop |]. split; [exact Hnn |].
    unfold lt_ok, gt_ok, pipe_ok. rewrite <- !Hall.
    cbn [input_err output_err pipe_err no_errors] in *.
    split; [tauto |]. intros H. specialize (Hrest H). tauto.
Qed.

End Validator.

Lemma validate_cases (words : list string) :
  (lt_ok words /\ gt_ok words /\ pipe_ok words /\
   exists c, validate words = ([], Done (0, c))) \/
  (~ lt_ok words /\
   exists c, validate words = ([Stderr MSG_INPUT], Done (1, c))) \/
  (lt_ok words /\ ~ gt_ok words /\
   exists c, validate words = ([Stderr MSG_OUTPUT], Done (1, c))) \/
  (lt_ok words /\ gt_ok words /\ ~ pipe_ok words /\
   exists c, validate words = ([Stderr MSG_PIPE], Done (1, c))).
Proof.
  destruct (redir_loop_all words) as (c & e & Hloop & Hnn & Hin & Hrest).
  unfold validate, redirection_check_arg. rewrite Hloop.
  destruct (Z.eqb_spec (input_err e) 0) as [Ei | Ei]; cbn [negb].
  - assert (Hlt : lt_ok words) by tauto.
    destruct (Hrest Hlt) as [Hout Hpp].
    destruct (Z.eqb_spec (output_err e) 0) as [Eo | Eo]; cbn [negb].
    + destruct (Z.eqb_spec (pipe_err e) 0) as [Ep | Ep]; cbn [negb].
      * left. do 3 (split; [tauto |]). now exists c.
      * right; right; right. do 3 (split; [tauto |]). now exists c.
    + right; right; left. do 2 (split; [tauto |]). now exists c.
  - right; left. split; [tauto | now exists c].
Qed.

Lemma validate_nil : validate [] = ([], Done (0, zero_counters)).
Proof. reflexivity. Qed.

Lemma execute_rejected (words : list string) (msg : string) (c : counters) :
  validate words = ([Stderr msg], Done (1, c)) ->
  forall w path environment h,
    execute_command w words path environment h
    = (h, ([Stderr msg], Done tt)).
Proof.
  intros Hv w path environment h.
  destruct words as [|w0 ws]; [rewrite validate_nil in Hv; discriminate |].
  unfold execute_command. cbn [word_at Z.ltb Z.compare Z.to_nat nth_error].
  fold (count_of (w0 :: ws)). fold (validate (w0 :: ws)). rewrite Hv.
  reflexivity.
Qed.

Lemma messages_distinct :
  MSG_INPUT <> MSG_OUTPUT /\ MSG_INPUT <> MSG_PIPE /\ MSG_OUTPUT <> MSG_PIPE.
Proof. repeat split; intros H; vm_compute in H; discriminate. Qed.

(** C8.  Over a token sequence of length [count], [validate] accepts
    exactly when every ['<'] is at position 0 with [count >= 3], every
    ['>'] is at position [count-2], or at [count-3] directly followed by
    another ['>'] (never at position 0, and with [count >= 3]), and every
    ['|'] is strictly between 0 and [count-1] and not right after a
    ['|'].  A misplaced ['<'] gives the input error; otherwise a misplaced
    ['>'] gives the output error; otherwise a misplaced ['|'] gives the
    pipe error; and a rejected line prints that one message, leaves the
    history file alone and spawns no process. *)
Theorem validate_positional_grammar (words : list string) :
  ((exists c, validate words = ([], Done (0, c))) <->
   lt_ok words /\ gt_ok words /\ pipe_ok words) /\
  (rejects words MSG_INPUT <-> ~ lt_ok words) /\
  (rejects words MSG_OUTPUT <-> lt_ok words /\ ~ gt_ok words) /\
  (rejects words MSG_PIPE <->
   lt_ok words /\ gt_ok words /\ ~ pipe_ok words) /\
  (forall w path environment h,
     (exists c, validate words = ([], Done (0, c))) \/
     (fst (execute_command w words path environment h) = h /\
      spawn_count
        (trace_of (snd (execute_command w words path environment h)))
      = 0%nat)).
Proof.
  destruct messages_distinct as (D1 & D2 & D3).
  unfold rejects.
  destruct (validate_cases words)
    as [(L & G & P & c & Hv) | [(L & c & Hv) | [(L & G & c & Hv)
       | (L & G & P & c & Hv)]]];
    pose proof (execute_rejected words) as Hex;
    rewrite Hv in *.
  - split; [split; [tauto | eauto] |].
    split; [split; [intros [[c' Hc'] _]; discriminate | tauto] |].
    split; [split; [intros [[c' Hc'] _]; discriminate | tauto] |].
    split; [split; [intros [[c' Hc'] _]; discriminate | tauto] |].
    intros w path environment h. left. eauto.
  - specialize (Hex _ _ eq_refl).
    split; [split; [intros [c' Hc']; discriminate | tauto] |].
    split; [split; [tauto | intros _; split; eauto] |].
    split; [split; [intros [[c' Hc'] _]; congruence | tauto] |].
    split; [split; [intros [[c' Hc'] _]; congruence | tauto] |].
    intros w path environment h. right. rewrite Hex. now split.
  - specialize (Hex _ _ eq_refl).
    split; [split; [intros [c' Hc']; discriminate | tauto] |].
    split; [split; [intros [[c' Hc'] _]; congruence | tauto] |].
    split; [split; [tauto | intros _; split; eauto] |].
    split; [split; [intros [[c' Hc'] _]; congruence | tauto] |].
    intros w path environment h. right. rewrite Hex. now split.
  - specialize (Hex _ _ eq_refl).
    split; [split; [intros [c' Hc']; discriminate | tauto] |].
    split; [split; [intros [[c' Hc'] _]; congruence | tauto] |].
    split; [split; [intros [[c' Hc'] _]; congruence | tauto] |].
    split; [split; [tauto | intros _; split; eauto] |].
    intros w path environment h. right. rewrite Hex. now split.
Qed.

(** ** The history file *)

Module Rows.

Lemma fgets_take_split (n : nat) : forall s row rest,
  fgets_take n s = (row, rest) -> s = (row ++ rest)%string.
Proof.
  induction n as [|n IH]; intros s row rest.
  - destruct s; intros [= <- <-]; reflexivity.
  - destruct s as [|c s]; cbn [fgets_take]; [intros [= <- <-]; reflexivity |].
    destruct (Ascii.eqb c LF); [intros [= <- <-]; reflexivity |].
    destruct (fgets_take n s) as [r t] eqn:E.
    intros [= <- <-]. simpl. f_equal. now apply IH.
Qed.

(** A read from a non-empty text takes at least one character. *)
Lemma fgets_take_progress (n : nat) (c : ascii) (s : string) :
  exists row rest,
    fgets_take (S n) (String c s) = (row, rest) /\
    (String.length rest <= String.length s)%nat.
Proof.
  destruct (fgets_take (S n) (String c s)) as [row rest] eqn:E.
  exists row, rest. split; [reflexivity |].
  pose proof (fgets_take_split _ _ _ _ E) as Hs.
  cbn [fgets_take] in E.
  destruct (Ascii.eqb c LF).
  - injection E as <- <-. lia.
  - destruct (fgets_take n s) as [r t] eqn:E'. injection E as <- <-.
    apply fgets_take_split in E'. subst s.
    rewrite StrFacts.length_app. lia.
Qed.

Lemma read_rows_enough (k1 : nat) : forall k2 s,
  (String.length s <= k1)%nat -> (String.length s <= k2)%nat ->
  read_rows k1 s = read_rows k2 s.
Proof.
  induction k1 as [|k1 IH]; intros k2 s H1 H2.
  - destruct s; [| simpl in H1; lia]. destruct k2; reflexivity.
  - destruct s as [|c s]; [destruct k2; reflexivity |].
    destruct k2 as [|k2]; [simpl in H2; lia |].
    cbn [read_rows CStr.is_empty].
    change (MAX_LINE_CHARS - 1)%nat with (S 1022).
    destruct (fgets_take_progress 1022 c s) as (row & rest & E & Hr).
    rewrite E. f_equal. simpl in H1, H2. apply IH; lia.
Qed.

(** Once the fuel covers the text, more fuel changes nothing. *)
Lemma read_rows_fuel (fuel : nat) (s : string) :
  (String.length s <= fuel)%nat -> read_rows fuel s = file_rows s.
Proof. intros H. unfold file_rows. apply read_rows_enough; lia. Qed.

Lemma file_rows_cons (c : ascii) (s : string) :
  file_rows (String c s) =
  fst (fgets_take 1023 (String c s)) ::
  file_rows (snd (fgets_take 1023 (String c s))).
Proof.
  unfold file_rows at 1. cbn [String.length read_rows CStr.is_empty].
  change (MAX_LINE_CHARS - 1)%nat with 1023%nat.
  destruct (fgets_take_progress 1022 c s) as (row & rest & E & Hr).
  rewrite E. cbn [fst snd]. f_equal. now apply read_rows_fuel.
Qed.

(** A read that stopped at a newline is unaffected by text appended to
    the file. *)
Lemma fgets_take_app (n : nat) : forall s t row rest,
  fgets_take n s = (row, rest) -> ends_with_lf row = true ->
  fgets_take n (s ++ t) = (row, (rest ++ t)%string).
Proof.
  induction n as [|n IH]; intros s t row rest.
  - destruct s; intros [= <- <-]; discriminate.
  - destruct s as [|c s]; [intros [= <- <-]; discriminate |].
    cbn [fgets_take String.append].
    destruct (Ascii.eqb c LF) eqn:Ec; [intros [= <- <-]; reflexivity |].
    destruct (fgets_take n s) as [r u] eqn:E.
    intros [= <- <-] Hlf.
    assert (Hr : ends_with_lf r = true).
    { destruct r as [|d r]; [simpl in Hlf; congruence | exact Hlf]. }
    now rewrite (IH _ t _ _ E Hr).
Qed.

(** A newline-terminated line that fits the row buffer is read as one
    row. *)
Lemma fgets_take_line (n : nat) : forall body,
  CStr.mem LF body = false -> (String.length body < n)%nat ->
  fgets_take n (body ++ NL) = ((body ++ NL)%string, EmptyString).
Proof.
  induction n as [|n IH]; intros body Hb Hlen; [lia |].
  destruct body as [|c body].
  - reflexivity.
  - cbn [String.append fgets_take]. cbn [CStr.mem] in Hb.
    rewrite Ascii.eqb_sym.
    destruct (Ascii.eqb LF c); [discriminate |].
    rewrite IH; [reflexivity | exact Hb | simpl in Hlen; lia].
Qed.

Lemma ends_with_lf_line (body : string) : ends_with_lf (body ++ NL) = true.
Proof.
  induction body as [|c body IH]; [reflexivity |].
  cbn [String.append]. simpl.
  destruct (body ++ NL)%string eqn:E; [| exact IH].
  destruct body; discriminate.
Qed.

(** Appending one line to a file of whole lines appends one row: the
    new line gets the next sequence number. *)
Lemma file_rows_append (body : string) :
  CStr.mem LF body = false -> (String.length body < 1023)%nat ->
  forall text,
    lines_terminated text = true ->
    file_rows (text ++ body ++ NL) = file_rows text ++ [(body ++ NL)%string].
Proof.
  intros Hb Hlen text.
  remember (String.length text) as m eqn:Hm.
  revert text Hm. induction m as [m IH] using lt_wf_ind. intros text Hm Hlt.
  destruct text as [|c text].
  - cbn [String.append]. destruct (body ++ NL)%string as [|d l] eqn:E.
    { destruct body; discriminate. }
    rewrite file_rows_cons, <- E, (fgets_take_line 1023 body Hb Hlen).
    reflexivity.
  - unfold lines_terminated in Hlt. rewrite file_rows_cons in Hlt.
    cbn [forallb] in Hlt. apply andb_prop in Hlt. destruct Hlt as [H1 H2].
    cbn [String.append]. rewrite !file_rows_cons.
    destruct (fgets_take 1023 (String c text)) as [row rest] eqn:E.
    cbn [fst snd] in *.
    change (String c (text ++ body ++ NL))%string
      with (String c text ++ (body ++ NL))%string.
    rewrite (fgets_take_app _ _ _ _ _ E H1). cbn [fst snd app].
    f_equal.
    destruct (fgets_take_progress 1022 c text) as (row' & rest' & E' & Hr).
    change (S 1022) with 1023%nat in E'. rewrite E in E'.
    injection E' as <- <-.
    apply (IH (String.length rest)); [simpl in Hm; lia | reflexivity |].
    exact H2.
Qed.

End Rows.

(** ** Output actions *)

Lemma bind_emit {B} (e : event) (k : unit -> Act B) :
  bind (emit e) k = (e :: fst (k tt), snd (k tt)).
Proof. unfold bind, emit. destruct (k tt). reflexivity. Qed.

Lemma bind_ret {A B} (a : A) (k : A -> Act B) : bind (ret a) k = k a.
Proof. unfold bind, ret. destruct (k a). reflexivity. Qed.

Lemma word_at_app (pre suf : list string) (r : string) :
  word_at (pre ++ r :: suf) (Z.of_nat (List.length pre)) = Some r.
Proof.
  unfold word_at. destruct (Z.ltb_spec (Z.of_nat (List.length pre)) 0); [lia |].
  rewrite Nat2Z.id, nth_error_app2, Nat.sub_diag by lia. reflexivity.
Qed.

Lemma word_at_nat (words : list string) (n : nat) :
  word_at words (Z.of_nat n) = nth_error words n.
Proof.
  unfold word_at. destruct (Z.ltb_spec (Z.of_nat n) 0); [lia |].
  now rewrite Nat2Z.id.
Qed.

(** ** print_history *)

Module Listing.

Lemma removelast_skipn {A} (l : list A) : forall n,
  removelast (skipn n l) = skipn n (removelast l).
Proof.
  induction l as [|a l IH]; intros [|n]; try reflexivity.
  cbn [skipn]. rewrite IH. destruct l; [now destruct n | reflexivity].
Qed.

Lemma numbered_from_skipn (rows : list string) : forall n k,
  skipn n (numbered_from k rows)
  = numbered_from (k + Z.of_nat n) (skipn n rows).
Proof.
  induction rows as [|r rows IH]; intros [|n] k; cbn [skipn numbered_from];
    try reflexivity.
  - now rewrite Z.add_0_r.
  - rewrite IH. f_equal. lia.
Qed.

Lemma length_numbered_from (rows : list string) : forall k,
  List.length (numbered_from k rows) = List.length rows.
Proof.
  induction rows as [|r rows IH]; intros k; simpl; [reflexivity |].
  now rewrite IH.
Qed.

Lemma length_removelast {A} (l : list A) :
  List.length (removelast l) = (List.length l - 1)%nat.
Proof.
  induction l as [|a l IH]; [reflexivity |].
  destruct l; [reflexivity |].
  change (removelast (a :: a0 :: l)) with (a :: removelast (a0 :: l)).
  cbn [List.length] in *. lia.
Qed.

Lemma length_last_n {A} (n : nat) (l : list A) :
  (List.length (last_n n l) <= n)%nat.
Proof. unfold last_n. rewrite length_skipn. lia. Qed.

Lemma numbered_app (rows : list string) (row : string) : forall k,
  removelast (numbered_from k (rows ++ [row])) = numbered_from k rows.
Proof.
  induction rows as [|r rows IH]; intros k; [reflexivity |].
  cbn [app numbered_from]. 
  destruct (numbered_from (k + 1) (rows ++ [row])) eqn:E.
  - destruct rows; discriminate.
  - rewrite <- E. cbn [removelast]. rewrite E, <- E, IH. reflexivity.
Qed.

(** The loop prints the rows from position [length pre] up to, and not
    including, the last row. *)
Lemma print_loop_spec (suf : list string) : forall pre fuel,
  (List.length suf <= fuel)%nat ->
  print_loop fuel (pre ++ suf) (Z.of_nat (List.length (pre ++ suf)))
    (Z.of_nat (List.length pre))
  = (map show_entry
       (removelast (numbered_from (Z.of_nat (List.length pre)) suf)),
     Done tt).
Proof.
  induction suf as [|r suf IH]; intros pre fuel Hfuel.
  - rewrite app_nil_r. destruct fuel; [reflexivity |].
    cbn [print_loop].
    destruct (Z.ltb_spec (Z.of_nat (List.length pre))
                (Z.of_nat (List.length pre) - 1)); [lia | reflexivity].
  - destruct fuel as [|fuel]; [simpl in Hfuel; lia |].
    cbn [print_loop]. rewrite length_app. cbn [List.length].
    destruct suf as [|r2 suf].
    + match goal with
      | |- context [?a <? ?b] => destruct (Z.ltb_spec a b)
      end; [cbn [List.length] in *; lia | reflexivity].
    + match goal with
      | |- context [?a <? ?b] => destruct (Z.ltb_spec a b)
      end; [| cbn [List.length] in *; lia].
      rewrite word_at_app, bind_emit.
      specialize (IH (pre ++ [r]) fuel).
      rewrite <- app_assoc in IH. cbn [app] in IH.
      rewrite !length_app in IH. cbn [List.length] in IH.
      replace (Z.of_nat (List.length pre) + 1)
        with (Z.of_nat (List.length pre + 1)) by lia.
      cbn [List.length]. rewrite IH by (simpl in Hfuel; simpl; lia).
      cbn [fst snd numbered_from].
      replace (Z.of_nat (List.length pre) + 1)
        with (Z.of_nat (List.length pre + 1)) by lia.
      reflexivity.
Qed.

Lemma to_int_range (z : Z) : - 2 ^ 31 <= to_int z <= 2 ^ 31 - 1.
Proof.
  unfold to_int. pose proof (Z.mod_pos_bound (z + 2 ^ 31) (2 ^ 32)). lia.
Qed.

(** [print_history(num)] prints the last [num] rows of the file with the
    final row left out, each with its 0-based index, oldest first. *)
Lemma print_history_spec (w : World) (text : string) (num : Z) :
  w_home w <> None -> w_hist_open w = true ->
  (List.length (file_rows text) <= 1000)%nat ->
  0 <= num <= 2 ^ 31 - 1 ->
  print_history w (Some text) num
  = (map show_entry
       (last_n (Z.to_nat num) (removelast (numbered (file_rows text)))),
     Done tt).
Proof.
  intros Hhome Hopen Hrows Hnum.
  unfold print_history, open_history.
  destruct (w_home w); [| congruence]. rewrite Hopen.
  set (data := file_rows text) in *.
  unfold HISTORY_ROWS.
  destruct (Z.ltb_spec 1000 (Z.of_nat (List.length data))); [lia |].
  rewrite bind_ret.
  assert (Hr : in_int_range (Z.of_nat (List.length data) - 1 - num) = true).
  { unfold in_int_range. apply andb_true_intro; split; apply Z.leb_le; lia. }
  rewrite Hr.
  set (start := if Z.of_nat (List.length data) - 1 - num <? 0 then 0
                else Z.of_nat (List.length data) - 1 - num).
  assert (Hs : start = Z.of_nat (List.length data - 1 - Z.to_nat num)).
  { subst start.
    destruct (Z.ltb_spec (Z.of_nat (List.length data) - 1 - num) 0); lia. }
  set (sk := (List.length data - 1 - Z.to_nat num)%nat) in *.
  assert (Hle : (sk <= List.length data)%nat) by (subst sk; lia).
  pose proof (print_loop_spec (skipn sk data) (firstn sk data)
                (List.length data)) as Hp.
  rewrite firstn_skipn in Hp. rewrite length_firstn in Hp.
  replace (Nat.min sk (List.length data)) with sk in Hp by lia.
  rewrite Hs, Hp by (rewrite length_skipn; lia).
  f_equal. f_equal. unfold last_n, numbered.
  rewrite length_removelast, length_numbered_from.
  fold sk. rewrite <- removelast_skipn, numbered_from_skipn.
  reflexivity.
Qed.

End Listing.

(** ** execute_command and the history file *)

(** ** Children and the history file *)

Lemma hist_after_app (w : World) (t t' : list event) (h : hist) :
  hist_after w (t ++ t') h = hist_after w t' (hist_after w t h).
Proof. apply fold_left_app. Qed.

Lemma hist_after_nospawn (w : World) (t : list event) (h : hist) :
  Forall (fun e => is_spawn e = false) t -> hist_after w t h = h.
Proof.
  induction 1 as [|e t He Ht IH]; [reflexivity |].
  cbn [hist_after fold_left]. destruct e; try discriminate; exact IH.
Qed.


Lemma nospawn_ret {A} (a : A) : nospawn (ret a).
Proof. constructor. Qed.

Lemma nospawn_stop {A} (x : halt) : nospawn (@stop A x).
Proof. constructor. Qed.

Lemma nospawn_emit (e : event) : is_spawn e = false -> nospawn (emit e).
Proof. intros H. constructor; [exact H | constructor]. Qed.

Lemma nospawn_bind {A B} (m : Act A) (k : A -> Act B) :
  nospawn m -> (forall a, nospawn (k a)) -> nospawn (bind m k).
Proof.
  unfold nospawn, bind. destruct m as [t [a | x]]; cbn [fst].
  - intros Hm Hk. specialize (Hk a). destruct (k a) as [t' r].
    cbn [fst] in *. apply Forall_app. now split.
  - intros Hm _. exact Hm.
Qed.

Ltac nospawn_step :=
  first
    [ apply nospawn_ret | apply nospawn_stop
    | apply nospawn_emit; reflexivity
    | apply nospawn_bind; [| intros ?]
    | match goal with
      | |- nospawn (if ?b then _ else _) => destruct b
      | |- nospawn (match ?x with _ => _ end) => destruct x
      end ].

Ltac nospawn_auto := repeat nospawn_step.

Lemma nospawn_redirection_check_arg count c0 words :
  nospawn (redirection_check_arg count c0 words).
Proof. unfold redirection_check_arg. nospawn_auto. Qed.

Lemma nospawn_open_history w h : nospawn (open_history w h).
Proof. unfold open_history. nospawn_auto. Qed.

Lemma nospawn_load_command w h n : nospawn (load_command w h n).
Proof.
  unfold load_command. apply nospawn_bind; [apply nospawn_open_history |].
  intros rows. nospawn_auto.
Qed.

Lemma nospawn_print_loop (fuel : nat) : forall data i j,
  nospawn (print_loop fuel data i j).
Proof.
  induction fuel as [|fuel IH]; intros data i j; cbn [print_loop].
  - apply nospawn_ret.
  - destruct (j <? i - 1); [| apply nospawn_ret].
    destruct (word_at data j); [| apply nospawn_stop].
    apply nospawn_bind; [apply nospawn_emit; reflexivity | intros _; apply IH].
Qed.

Lemma nospawn_print_history w h num : nospawn (print_history w h num).
Proof.
  unfold print_history. apply nospawn_bind; [apply nospawn_open_history |].
  intros [data |]; [| apply nospawn_ret].
  destruct (in_int_range _); [apply nospawn_print_loop | apply nospawn_stop].
Qed.

Lemma nospawn_numeric_arg_check who num0 count words :
  nospawn (numeric_arg_check who num0 count words).
Proof. unfold numeric_arg_check. nospawn_auto. Qed.

Lemma nospawn_check_glob w words : nospawn (check_glob w words).
Proof. unfold check_glob. cbv zeta. nospawn_auto. Qed.

Lemma nospawn_pwd w : nospawn (pwd w).
Proof. unfold pwd. nospawn_auto. Qed.

Lemma nospawn_cd w words : nospawn (cd w words).
Proof. unfold cd. nospawn_auto. Qed.

Lemma nospawn_do_exit words : nospawn (do_exit words).
Proof. unfold do_exit. nospawn_auto. Qed.

Lemma nospawn_search_path w path program :
  nospawn (search_path w path program).
Proof. unfold search_path. nospawn_auto. Qed.

Lemma nospawn_resolve_program w path program :
  nospawn (resolve_program w path program).
Proof.
  unfold resolve_program. destruct (has_slash program); [apply nospawn_ret |].
  apply nospawn_bind; [apply nospawn_search_path | intros ?; apply nospawn_ret].
Qed.

Lemma nospawn_get_programs_loop (fuel : nat) :
  forall w path words max i new ps,
    nospawn (get_programs_loop fuel w path words max i new ps).
Proof.
  induction fuel as [|fuel IH]; intros w path words max i new ps;
    cbn [get_programs_loop]; [apply nospawn_ret |].
  destruct (i <? max); [| apply nospawn_ret].
  destruct (word_at words i) as [wd |]; [| apply nospawn_stop].
  destruct (CStr.streq wd ">"); [apply nospawn_ret |].
  destruct (CStr.streq wd "|"); [apply IH |].
  destruct new; [| apply IH].
  destruct (Nat.leb MAX_LINE_CHARS (String.length wd));
    [apply nospawn_stop |].
  destruct (is_stage_builtin wd); [nospawn_auto |].
  apply nospawn_bind.
  - destruct (has_slash wd); [apply nospawn_ret | apply nospawn_search_path].
  - intros [program |]; [apply IH | nospawn_auto].
Qed.

(** *** Actions on the history file *)

Lemma inert_mret {A} (a : A) : inert (mret a).
Proof. intros h. split; [reflexivity | constructor]. Qed.

Lemma inert_lift {A} (m : Act A) : nospawn m -> inert (lift m).
Proof. intros H h. split; [reflexivity | exact H]. Qed.

Lemma inert_mget : inert mget.
Proof. intros h. split; [reflexivity | constructor]. Qed.

Lemma inert_mbind {A B} (m : M A) (k : A -> M B) :
  inert m -> (forall a, inert (k a)) -> inert (mbind m k).
Proof.
  intros Hm Hk h. destruct (Hm h) as [F N]. unfold mbind, nospawn in *.
  destruct (m h) as [h1 [t [a | x]]]; cbn [fst snd] in *; subst h1;
    [| now split].
  destruct (Hk a h) as [F' N']. destruct (k a h) as [h2 [t' r]].
  cbn [fst snd] in *. split; [exact F' | apply Forall_app; now split].
Qed.




Lemma keeps_inert {A} (m : M A) : inert m -> keeps_hist m.
Proof. intros H h. apply H. Qed.

Ltac inert_auto :=
  repeat first
    [ apply inert_mret | apply inert_mget
    | apply inert_lift;
      first [ apply nospawn_ret | apply nospawn_stop
            | apply nospawn_emit; reflexivity
            | apply nospawn_pwd | apply nospawn_cd | apply nospawn_do_exit
            | apply nospawn_numeric_arg_check | apply nospawn_print_history
            | apply nospawn_load_command
            | apply nospawn_redirection_check_arg
            | apply nospawn_check_glob | apply nospawn_resolve_program
            | apply nospawn_get_programs_loop ]
    | apply inert_mbind; [| intros ?]
    | match goal with
      | |- inert (if ?b then _ else _) => destruct b
      | |- inert (match ?x with _ => _ end) => destruct x
      end ].




Lemma bang_block_inert w program n rc words :
  inert (bang_block w program n rc words).
Proof. unfold bang_block. cbv zeta. inert_auto. Qed.

Lemma bang_block_keeps w program n rc words :
  keeps_hist (bang_block w program n rc words).
Proof. apply keeps_inert, bang_block_inert. Qed.

Lemma accepted_code (words : list string) t code rc :
  validate words = (t, Done (code, rc)) ->
  accepted (validate words) = if code =? 0 then Some rc else None.
Proof.
  intros Hv.
  destruct (validate_cases words)
    as [(_ & _ & _ & c & H) | [(_ & c & H) | [(_ & _ & c & H)
       | (_ & _ & _ & c & H)]]];
    rewrite H in *; injection Hv as <- <- <-; reflexivity.
Qed.

Lemma accepted_halt (words : list string) t x :
  validate words = (t, Halt x) -> accepted (validate words) = None.
Proof.
  intros Hv. rewrite Hv. destruct t; reflexivity.
Qed.

Lemma result_mbind {A B} (m : M A) (k : A -> M B) (h : hist) :
  snd (snd (mbind m k h)) =
  match snd (snd (m h)) with
  | Done a => snd (snd (k a (fst (m h))))
  | Halt x => Halt x
  end.
Proof.
  unfold mbind. destruct (m h) as [h1 [t [a | x]]]; cbn [fst snd];
    [| reflexivity].
  destruct (k a h1) as [h2 [t' r]]. reflexivity.
Qed.

(** The ['!'] block hands on exactly the recalled tokens. *)
Lemma bang_block_recalled w program rc words h :
  match snd (snd (bang_block w program (count_of words) rc words h)) with
  | Done (Some (ws, _, _, _)) => recalled w words rc h = Some ws
  | _ => recalled w words rc h = None
  end.
Proof.
  unfold bang_block, recalled.
  destruct (redirected rc); [reflexivity |].
  rewrite result_mbind. cbn [lift fst snd].
  destruct (exclamation_check_arg (-1) (count_of words) words)
    as [t1 [[nv num] | x]]; cbn [fst snd]; [| reflexivity].
  destruct (Z.eqb_spec nv 0) as [-> | Hnv]; cbn [negb].
  2:{ cbn. destruct nv; try reflexivity; congruence. }
  rewrite result_mbind. cbn [mget ret fst snd].
  rewrite result_mbind. cbn [lift fst snd].
  destruct (load_command w h num) as [t2 [[row |] | x]]; cbn [fst snd];
    [| reflexivity | reflexivity].
  rewrite result_mbind. cbn [lift emit fst snd].
  rewrite result_mbind. cbn [lift fst snd]. cbv zeta.
  set (line := w_stale w TokenizeRecalled row).
  fold (count_of (tokenize_line line)).
  fold (validate (tokenize_line line)).
  destruct (validate (tokenize_line line)) as [t3 [[code rc'] | x]] eqn:Hv;
    cbn [fst snd].
  - rewrite <- Hv, (accepted_code _ _ _ _ Hv).
    destruct (Z.eqb_spec code 0); reflexivity.
  - rewrite <- Hv, (accepted_halt _ _ _ Hv). reflexivity.
Qed.

Lemma mbind_ret {A B} (a : A) (k : A -> M B) (h : hist) :
  mbind (mret a) k h = k a h.
Proof.
  unfold mbind, mret, ret. destruct (k a h) as [h2 [t r]]. reflexivity.
Qed.

Lemma mbind_get {B} (k : hist -> M B) (h : hist) :
  mbind mget k h = k h h.
Proof.
  unfold mbind, mget, ret. destruct (k h h) as [h2 [t r]]. reflexivity.
Qed.

Lemma mbind_lift_ret {A B} (a : A) (k : A -> M B) (h : hist) :
  mbind (lift (ret a)) k h = k a h.
Proof. apply mbind_ret. Qed.

Lemma mbind_store {B} w words (k : unit -> M B) h :
  w_home w <> None -> w_hist_open w = true ->
  mbind (store_command w words) k h
  = k tt (Some (hist_text h ++ history_entry words)%string).
Proof.
  intros Hhome Hopen. unfold mbind, store_command.
  destruct (w_home w); [| congruence]. rewrite Hopen. unfold ret.
  destruct (k tt _) as [h2 [t r]]. reflexivity.
Qed.

(** A line that passes validation and does not start with ['!'] is
    stored, then run. *)
Lemma execute_accepted w first rest rc path environment h :
  first <> "!"%string ->
  validate (first :: rest) = ([], Done (0, rc)) ->
  w_home w <> None -> w_hist_open w = true ->
  execute_command w (first :: rest) path environment h
  = after_store w (Some first) (count_of (first :: rest)) rc (first :: rest)
      path environment
      (Some (hist_text h ++ history_entry (first :: rest))%string).
Proof.
  intros Hne Hv Hhome Hopen.
  unfold execute_command.
  cbn [word_at Z.ltb Z.compare Z.to_nat nth_error].
  fold (count_of (first :: rest)). fold (validate (first :: rest)).
  rewrite Hv. change (@pair (list event) (outcome (Z * counters)) []
                        (Done (0, rc))) with (ret (0, rc)).
  rewrite mbind_lift_ret. cbn [Z.eqb negb].
  apply streq_false in Hne. rewrite Hne.
  rewrite mbind_ret. now apply mbind_store.
Qed.




(** ** History entries are single lines *)

Lemma mem_app (c : ascii) (a b : string) :
  CStr.mem c (a ++ b) = CStr.mem c a || CStr.mem c b.
Proof.
  induction a as [|x a IH]; [reflexivity |].
  cbn [String.append CStr.mem]. destruct (Ascii.eqb c x); [reflexivity | exact IH].
Qed.



Lemma length_history_entry (words : list string) :
  String.length (history_entry words)
  = S (String.length (join_words words)).
Proof.
  unfold history_entry. rewrite StrFacts.length_app. simpl. lia.
Qed.








(** ** The history builtin *)

Lemma isdigit_cases (c : ascii) :
  isdigit c = true ->
  is_glob_char c = false /\ Ascii.eqb LF c = false /\
  CStr.mem c SPECIAL_CHARS = false.
Proof.
  destruct c as [[] [] [] [] [] [] [] []]; vm_compute; intros H;
    try discriminate; repeat split.
Qed.

Lemma digits_no_glob (arg : string) :
  CStr.all_chars isdigit arg = true ->
  CStr.any_char is_glob_char arg = false.
Proof.
  induction arg as [|c arg IH]; [reflexivity |].
  cbn [CStr.all_chars CStr.any_char].
  destruct (isdigit c) eqn:Hc; [| discriminate].
  destruct (isdigit_cases c Hc) as (-> & _ & _). exact IH.
Qed.

Lemma digits_no_lf (arg : string) :
  CStr.all_chars isdigit arg = true -> CStr.mem LF arg = false.
Proof.
  induction arg as [|c arg IH]; [reflexivity |].
  cbn [CStr.all_chars CStr.mem].
  destruct (isdigit c) eqn:Hc; [| discriminate].
  destruct (isdigit_cases c Hc) as (_ & -> & _). exact IH.
Qed.

Lemma digits_not_special (arg : string) (c : ascii) :
  CStr.all_chars isdigit arg = true ->
  CStr.mem c SPECIAL_CHARS = true ->
  CStr.streq arg (String c EmptyString) = false.
Proof.
  intros Hd Hc. apply streq_false. intros ->.
  cbn [CStr.all_chars] in Hd.
  destruct (isdigit c) eqn:E; [| discriminate].
  destruct (isdigit_cases c E) as (_ & _ & H). congruence.
Qed.

Lemma validate_history_arg (arg : string) :
  CStr.all_chars isdigit arg = true ->
  validate ["history"; arg] = ([], Done (0, zero_counters)).
Proof.
  intros Hd.
  unfold validate, redirection_check_arg.
  change (count_of ["history"; arg]) with 2.
  change (Z.to_nat 2) with 2%nat.
  cbn [redir_loop]. change (0 <? 2) with true. cbv iota.
  change (redir_body 2 ["history"; arg] 0 zero_counters no_errors)
    with (Some (zero_counters, no_errors, false)).
  cbv iota. change (0 + 1 <? 2) with true. cbv iota.
  unfold redir_body. change (word_at ["history"; arg] (0 + 1)) with (Some arg).
  cbv iota. unfold redir_lt, redir_gt, redir_pipe.
  rewrite (digits_not_special arg "<" Hd eq_refl).
  rewrite (digits_not_special arg ">" Hd eq_refl).
  rewrite (digits_not_special arg "|" Hd eq_refl).
  reflexivity.
Qed.

Lemma check_glob_history_arg (w : World) (arg : string) :
  CStr.all_chars isdigit arg = true ->
  check_glob w ["history"; arg] = ret None.
Proof.
  intros Hd. unfold check_glob. cbn [flagged_from].
  change (CStr.any_char is_glob_char "history") with false. cbv iota.
  now rewrite (digits_no_glob arg Hd).
Qed.

Lemma execute_history (w : World) (path environment : list string)
  (h : hist) :
  w_home w <> None -> w_hist_open w = true ->
  execute_command w ["history"] path environment h
  = (Some (hist_text h ++ history_entry ["history"])%string,
     print_history w
       (Some (hist_text h ++ history_entry ["history"])%string)
       DEFAULT_HISTORY_SHOWN).
Proof.
  intros Hhome Hopen.
  rewrite (execute_accepted w "history" [] zero_counters);
    [| discriminate | reflexivity | exact Hhome | exact Hopen].
  unfold after_store.
  change (CStr.streq "history" "<") with false. cbv iota.
  change (CStr.streq "history" "exit") with false. cbv iota.
  change (check_glob w ["history"]) with (@ret (option string) None).
  rewrite mbind_lift_ret.
  unfold dispatch.
  change (CStr.streq "history" "pwd") with false. cbv iota.
  change (CStr.streq "history" "cd") with false. cbv iota.
  change (CStr.streq "history" "history") with true. cbv iota.
  change (redirected zero_counters) with false. cbv iota.
  change (history_check_arg DEFAULT_HISTORY_SHOWN (count_of ["history"])
            ["history"]) with (ret (0, DEFAULT_HISTORY_SHOWN)).
  rewrite mbind_lift_ret. cbn [Z.eqb negb]. rewrite mbind_get. reflexivity.
Qed.

Lemma execute_history_arg (w : World) (arg : string)
  (path environment : list string) (h : hist) :
  CStr.all_chars isdigit arg = true ->
  w_home w <> None -> w_hist_open w = true ->
  execute_command w ["history"; arg] path environment h
  = (Some (hist_text h ++ history_entry ["history"; arg])%string,
     print_history w
       (Some (hist_text h ++ history_entry ["history"; arg])%string)
       (atoi arg)).
Proof.
  intros Hd Hhome Hopen.
  rewrite (execute_accepted w "history" [arg] zero_counters);
    [| discriminate | now apply validate_history_arg | exact Hhome
     | exact Hopen].
  unfold after_store.
  change (CStr.streq "history" "<") with false. cbv iota.
  change (CStr.streq "history" "exit") with false. cbv iota.
  rewrite (check_glob_history_arg w arg Hd), mbind_lift_ret.
  unfold dispatch.
  change (CStr.streq "history" "pwd") with false. cbv iota.
  change (CStr.streq "history" "cd") with false. cbv iota.
  change (CStr.streq "history" "history") with true. cbv iota.
  change (redirected zero_counters) with false. cbv iota.
  unfold history_check_arg, numeric_arg_check.
  change (count_of ["history"; arg]) with 2.
  change (2 <? 2) with false. change (2 =? 2) with true. cbv iota.
  change (word_at ["history"; arg] 1) with (Some arg). cbv iota.
  rewrite Hd. rewrite mbind_lift_ret. cbn [Z.eqb negb].
  rewrite mbind_get. reflexivity.
Qed.

Lemma history_count_cases (words : list string) (n : Z) :
  history_count words = Some n ->
  (words = ["history"] /\ n = DEFAULT_HISTORY_SHOWN) \/
  (exists arg, words = ["history"; arg] /\
               CStr.all_chars isdigit arg = true /\ n = atoi arg).
Proof.
  destruct words as [|cmd [|arg [|x rest]]]; cbn [history_count];
    try discriminate.
  - destruct (CStr.streq cmd "history") eqn:E; [| discriminate].
    apply streq_true in E. intros [= <-]. left. now subst.
  - destruct (CStr.streq cmd "history") eqn:E; [| discriminate].
    destruct (CStr.all_chars isdigit arg) eqn:D; [| discriminate].
    apply streq_true in E. intros [= <-]. right. exists arg. now subst.
Qed.

(** The listing printed from a file that has just received [entry]. *)
Lemma listing_after_append (w : World) (text body : string) (n : Z) :
  w_home w <> None -> w_hist_open w = true ->
  lines_terminated text = true ->
  (List.length (file_rows text) < 1000)%nat ->
  CStr.mem LF body = false -> (String.length body < 1023)%nat ->
  0 <= n <= 2 ^ 31 - 1 ->
  print_history w (Some (text ++ body ++ NL)%string) n
  = (map show_entry (last_n (Z.to_nat n) (numbered (file_rows text))),
     Done tt).
Proof.
  intros Hhome Hopen Ht Hrows Hb Hlen Hn.
  pose proof (Rows.file_rows_append body Hb Hlen text Ht) as Happ.
  rewrite Listing.print_history_spec; auto.
  - rewrite Happ. unfold numbered. now rewrite Listing.numbered_app.
  - rewrite Happ, length_app. simpl. lia.
Qed.

Lemma history_line_listing (w : World) (words path environment : list string)
  (h : hist) (n : Z) :
  history_count words = Some n -> 0 <= n ->
  w_home w <> None -> w_hist_open w = true ->
  lines_terminated (hist_text h) = true ->
  (List.length (file_rows (hist_text h)) < 1000)%nat ->
  (String.length (history_entry words) <= 1023)%nat ->
  execute_command w words path environment h
  = (Some (hist_text h ++ history_entry words)%string,
     (map show_entry
        (last_n (Z.to_nat n) (numbered (file_rows (hist_text h)))),
      Done tt)).
Proof.
  intros Hc Hn Hhome Hopen Ht Hrows Hlen.
  rewrite length_history_entry in Hlen.
  destruct (history_count_cases words n Hc) as [[-> ->] | (arg & -> & Hd & ->)].
  - rewrite execute_history by assumption. f_equal.
    apply listing_after_append; auto; try lia;
      unfold DEFAULT_HISTORY_SHOWN; lia.
  - rewrite execute_history_arg by assumption. f_equal.
    apply listing_after_append; auto; try lia.
    + cbn [join_words]. rewrite !mem_app, (digits_no_lf arg Hd). reflexivity.
    + pose proof (Listing.to_int_range (fst (strtol arg))). unfold atoi in *.
      lia.
Qed.

(** C10, as the code has it.  On a log of at most 1000 rows,
    [print_history(n)], for a count [n >= 0], prints the last [n] rows of
    the log with the final row left out, oldest first, each with its
    0-based sequence number: at most [n] lines.  For a line [history] or
    [history n] given when the log consists of whole lines, and whose own
    entry is at most 1023 characters long, the final row is the line
    just recorded, so what is listed are the last [n] of the rows that
    were in the log before the invocation, and the invocation itself is
    not shown. *)
Theorem history_lists_last_n_without_final :
  (forall w text num,
     w_home w <> None -> w_hist_open w = true ->
     (List.length (file_rows text) <= 1000)%nat ->
     0 <= num <= 2 ^ 31 - 1 ->
     let shown :=
       last_n (Z.to_nat num) (removelast (numbered (file_rows text))) in
     print_history w (Some text) num = (map show_entry shown, Done tt) /\
     (List.length shown <= Z.to_nat num)%nat) /\
  (forall w words path environment h n,
     history_count words = Some n -> 0 <= n ->
     w_home w <> None -> w_hist_open w = true ->
     lines_terminated (hist_text h) = true ->
     (List.length (file_rows (hist_text h)) < 1000)%nat ->
     (String.length (history_entry words) <= 1023)%nat ->
     let shown := last_n (Z.to_nat n) (numbered (file_rows (hist_text h))) in
     execute_command w words path environment h
     = (Some (hist_text h ++ history_entry words)%string,
        (map show_entry shown, Done tt)) /\
     (List.length shown <= Z.to_nat n)%nat).
Proof.
  split.
  - intros w text num Hhome Hopen Hrows Hnum shown. split.
    + now apply Listing.print_history_spec.
    + apply Listing.length_last_n.
  - intros w words path environment h n Hc Hn Hhome Hopen Ht Hrows Hlen shown.
    split.
    + now apply history_line_listing.
    + apply Listing.length_last_n.
Qed.

Lemma history_lists_last_n_without_final_witness :
  print_history Sample.plain
    (Some ("ls" ++ NL ++ "pwd" ++ NL ++ "cd /" ++ NL ++ "history 2" ++ NL)%string)
    2
  = ([Stdout ("1: pwd" ++ NL)%string; Stdout ("2: cd /" ++ NL)%string],
     Done tt) /\
  execute_command Sample.plain ["history"; "2"] Sample.path []
    (Some ("ls" ++ NL ++ "pwd" ++ NL ++ "cd /" ++ NL)%string)
  = (Some ("ls" ++ NL ++ "pwd" ++ NL ++ "cd /" ++ NL ++ "history 2" ++ NL)%string,
     ([Stdout ("1: pwd" ++ NL)%string; Stdout ("2: cd /" ++ NL)%string],
      Done tt)).
Proof.
  destruct history_lists_last_n_without_final as [H1 H2].
  split.
  - refine (proj1 (H1 Sample.plain _ 2 _ eq_refl _ _)).
    + discriminate.
    + vm_compute. lia.
    + lia.
  - refine (proj1 (H2 Sample.plain ["history"; "2"] Sample.path []
                     (Some ("ls" ++ NL ++ "pwd" ++ NL ++ "cd /" ++ NL)%string)
                     2 eq_refl _ _ eq_refl eq_refl _ _)).
    + lia.
    + discriminate.
    + vm_compute. lia.
    + vm_compute. lia.
Defined.

(** C10 as stated fails: a [history] line of 1023 characters is recorded
    as 1024 characters and read back as two rows, the line itself and a
    newline.  The final row is the newline, and the row listed is the
    invocation. *)
Lemma history_line_of_1023_characters_lists_itself :
  String.length long_history = 1023%nat /\
  history_count (tokenize_line long_history) = Some 1 /\
  file_rows (long_history ++ NL) = [long_history; NL] /\
  main (fun _ => Sample.plain) None [] false (long_history ++ NL) None
  = (Some (long_history ++ NL)%string,
     ([Stdout ("0: " ++ long_history)%string], Done 0)).
Proof. repeat split; vm_compute; reflexivity. Qed.

(** ** Output redirection *)

Lemma truncate_flags_lack_O_TRUNC :
  has_flag (Z.lor O_CREAT O_WRONLY) O_TRUNC = false /\
  has_flag (Z.lor O_CREAT O_WRONLY) O_CREAT = true.
Proof. split; reflexivity. Qed.

(** The only open flags [output_actions] ever uses. *)
Lemma output_actions_flags (max output : Z) (words : list string) t acts :
  output_actions max output words = (t, Done acts) ->
  forall fd file oflag mode,
    In (AddOpen fd file oflag mode) acts ->
    fd = 1 /\ word_at words (max - 1) = Some file /\
    has_flag oflag O_CREAT = true /\ has_flag oflag O_TRUNC = false /\
    has_flag oflag O_APPEND = (output =? 2).
Proof.
  unfold output_actions.
  destruct (Z.eqb_spec output 1) as [-> | H1].
  - destruct (word_at words (max - 1)) as [file |] eqn:E; [| discriminate].
    intros [= <- <-] fd f oflag mode [[= <- <- <- <-] | []].
    repeat split; reflexivity || exact E.
  - destruct (Z.eqb_spec output 2) as [-> | H2].
    + destruct (word_at words (max - 1)) as [file |] eqn:E; [| discriminate].
      intros [= <- <-] fd f oflag mode [[= <- <- <- <-] | []].
      repeat split; reflexivity || exact E.
    + intros [= <- <-] fd f oflag mode [].
Qed.

(** C1, at [echo hi > out] with [out] holding ["hello world"]: the child's
    standard output is opened with [O_CREAT | O_WRONLY] and no [O_TRUNC],
    in [in_out_redirection] and in the last stage of [pipes] alike, so
    the old contents stay and the first bytes are overwritten.  The
    append form does open with [O_APPEND]. *)
Theorem truncate_mode_leaves_old_contents :
  snd (execute_command Cases.with_out (tokenize_line "echo hi > out")
         Sample.path [] None)
  = ([PosixSpawn "/bin/echo"
        [AddOpen 1 "out" (Z.lor O_CREAT O_WRONLY) MODE_0644]
        ["echo"; "hi"] [];
      Stdout (MSG_STATUS "/bin/echo" 0)], Done tt) /\
  snd (execute_command Cases.with_out (tokenize_line "ls | wc > out")
         Sample.path [] None)
  = ([MkPipe 0;
      PosixSpawn "/bin/ls" [AddDup2 1 1] ["ls"] [];
      Close 1;
      PosixSpawn "/bin/wc"
        [AddDup2 0 0; AddOpen 1 "out" (Z.lor O_CREAT O_WRONLY) MODE_0644]
        ["wc"] [];
      Stdout (MSG_STATUS "/bin/wc" 0)], Done tt) /\
  has_flag (Z.lor O_CREAT O_WRONLY) O_TRUNC = false /\
  output_file_after (Z.lor O_CREAT O_WRONLY)
    (Some ("hello world" ++ NL)%string) ("hi" ++ NL)
  = Some ("hi" ++ NL ++ "lo world" ++ NL)%string /\
  snd (execute_command Cases.with_out (tokenize_line "echo hi >> out")
         Sample.path [] None)
  = ([PosixSpawn "/bin/echo"
        [AddOpen 1 "out" (Z.lor (Z.lor O_CREAT O_WRONLY) O_APPEND) MODE_0644]
        ["echo"; "hi"] [];
      Stdout (MSG_STATUS "/bin/echo" 0)], Done tt) /\
  output_file_after (Z.lor (Z.lor O_CREAT O_WRONLY) O_APPEND)
    (Some ("hello world" ++ NL)%string) ("hi" ++ NL)
  = Some ("hello world" ++ NL ++ "hi" ++ NL)%string.
Proof. repeat split; reflexivity. Qed.

(** ** Builtins and redirection *)

(** C2, at [exit > f]: [execute_command] calls [do_exit] without looking
    at the redirection counters, so the line is answered with the
    argument-count message and the interpreter exits, where [pwd > f]
    is answered with the builtin-redirection message.  With ['<'] in
    front, [do_exit] fails its assertion.  As a pipeline stage, [exit]
    and a ['!'] after ['<'] are looked up like external programs. *)
Theorem exit_skips_redirection_check :
  execute_command Sample.plain (tokenize_line "exit > f") Sample.path [] None
  = (Some ("exit > f" ++ NL)%string,
     ([Stderr MSG_EXIT_ARGS], Halt (Exit 0))) /\
  execute_command Sample.plain (tokenize_line "pwd > f") Sample.path [] None
  = (Some ("pwd > f" ++ NL)%string,
     ([Stderr (MSG_BUILTIN "pwd")], Done tt)) /\
  execute_command Sample.plain (tokenize_line "< f exit") Sample.path [] None
  = (Some ("< f exit" ++ NL)%string, ([], Halt Abort)) /\
  execute_command Sample.plain (tokenize_line "ls | exit") Sample.path [] None
  = (Some ("ls | exit" ++ NL)%string,
     ([Stderr (MSG_NOT_FOUND "exit")], Done tt)) /\
  execute_command Sample.plain (tokenize_line "ls | pwd") Sample.path [] None
  = (Some ("ls | pwd" ++ NL)%string,
     ([Stderr (MSG_BUILTIN "pwd")], Done tt)) /\
  execute_command Sample.plain (tokenize_line "< f !") Sample.path [] None
  = (Some ("< f !" ++ NL)%string, ([Stderr (MSG_NOT_FOUND "!")], Done tt)).
Proof. repeat split; reflexivity. Qed.

(** ** Recall *)

Lemma load_command_in_range (w : World) (text : string) (n : Z) :
  w_home w <> None -> w_hist_open w = true ->
  (List.length (file_rows text) <= 1000)%nat ->
  0 <= n < Z.of_nat (List.length (file_rows text)) ->
  load_command w (Some text) n
  = ([], Done (option_map CStr.of_buffer
                 (nth_error (file_rows text) (Z.to_nat n)))).
Proof.
  intros Hhome Hopen Hrows Hn.
  unfold load_command, open_history.
  destruct (w_home w); [| congruence]. rewrite Hopen.
  unfold HISTORY_ROWS.
  destruct (Z.ltb_spec 1000 (Z.of_nat (List.length (file_rows text))));
    [lia |].
  rewrite bind_ret.
  destruct (Z.eqb_spec n (-1)); [lia |].
  destruct (Z.ltb_spec (Z.of_nat (List.length (file_rows text)) - 1) n);
    [lia |].
  unfold word_at. destruct (Z.ltb_spec n 0); [lia |].
  destruct (nth_error (file_rows text) (Z.to_nat n)) eqn:E; [reflexivity |].
  apply nth_error_None in E. lia.
Qed.

Lemma load_command_last (w : World) (text : string) :
  w_home w <> None -> w_hist_open w = true ->
  (1 <= List.length (file_rows text) <= 1000)%nat ->
  load_command w (Some text) (-1)
  = ([], Done (option_map CStr.of_buffer
                 (nth_error (file_rows text)
                    (List.length (file_rows text) - 1)))).
Proof.
  intros Hhome Hopen Hrows.
  unfold load_command, open_history.
  destruct (w_home w); [| congruence]. rewrite Hopen.
  unfold HISTORY_ROWS.
  destruct (Z.ltb_spec 1000 (Z.of_nat (List.length (file_rows text))));
    [lia |].
  rewrite bind_ret. cbn [Z.eqb Pos.eqb].
  replace (Z.of_nat (List.length (file_rows text)) - 1)
    with (Z.of_nat (List.length (file_rows text) - 1)) by lia.
  rewrite word_at_nat.
  destruct (nth_error (file_rows text) (List.length (file_rows text) - 1))
    eqn:E; [reflexivity |].
  apply nth_error_None in E. lia.
Qed.

Lemma load_command_beyond (w : World) (text : string) (n : Z) :
  w_home w <> None -> w_hist_open w = true ->
  (List.length (file_rows text) <= 1000)%nat ->
  Z.of_nat (List.length (file_rows text)) - 1 < n ->
  load_command w (Some text) n = ([Stderr MSG_BAD_REF], Done None).
Proof.
  intros Hhome Hopen Hrows Hn.
  unfold load_command, open_history.
  destruct (w_home w); [| congruence]. rewrite Hopen.
  unfold HISTORY_ROWS.
  destruct (Z.ltb_spec 1000 (Z.of_nat (List.length (file_rows text))));
    [lia |].
  rewrite bind_ret.
  destruct (Z.eqb_spec n (-1)); [lia |].
  destruct (Z.ltb_spec (Z.of_nat (List.length (file_rows text)) - 1) n);
    [reflexivity | lia].
Qed.

(** C4, at [!] on a history file that exists and is empty:
    [load_command(-1)] computes [max_history = -1] and reads [data[-1]];
    no error is reported.  (When the file does not exist, [fopen] fails
    and the error is reported.) *)
Theorem recall_last_on_empty_log_reads_out_of_bounds :
  load_command Sample.plain (Some EmptyString) (-1) = ([], Halt Undefined) /\
  execute_command Sample.plain (tokenize_line "!") Sample.path []
    (Some EmptyString)
  = (Some EmptyString, ([], Halt Undefined)) /\
  load_command Sample.plain None (-1) = ([Perror "msh_history"], Done None) /\
  load_command Sample.plain (Some ("ls -l" ++ NL)%string) (-1)
  = ([], Done (Some ("ls -l" ++ NL)%string)) /\
  load_command Sample.plain (Some ("ls -l" ++ NL)%string) 999
  = ([Stderr MSG_BAD_REF], Done None).
Proof. repeat split; reflexivity. Qed.

(** ** Errors and the main loop *)

(** C5, at the input [exit 1 2] followed by [pwd]: [do_exit] prints the
    argument error and then calls [exit] all the same, so the
    interpreter stops with status 0 and the second line is never read.
    A resolution error, by contrast, lets the loop go on. *)
Theorem exit_argument_error_ends_interpreter :
  do_exit ["exit"; "1"; "2"] = ([Stderr MSG_EXIT_ARGS], Halt (Exit 0)) /\
  main (fun _ => Sample.plain) None [] false
    ("exit 1 2" ++ NL ++ "pwd" ++ NL) None
  = (Some ("exit 1 2" ++ NL)%string,
     ([Stderr MSG_EXIT_ARGS], Halt (Exit 0))) /\
  main (fun _ => Sample.plain) None [] false
    ("exit abc" ++ NL ++ "pwd" ++ NL) None
  = (Some ("exit abc" ++ NL)%string,
     ([Stderr ("exit: abc: numeric argument required" ++ NL)%string],
      Halt (Exit 0))) /\
  main (fun _ => Sample.plain) None [] false
    ("nosuch" ++ NL ++ "pwd" ++ NL) None
  = (Some ("nosuch" ++ NL ++ "pwd" ++ NL)%string,
     ([Stderr (MSG_NOT_FOUND "nosuch");
       Stdout ("current directory is '/home/u'" ++ NL)%string], Done 0)).
Proof. repeat split; reflexivity. Qed.

(** ** Glob expansion *)

Lemma flagged_from_none (words : list string) : forall i,
  Forall (fun wd => CStr.any_char is_glob_char wd = false) words ->
  flagged_from i words = [].
Proof.
  induction words as [|wd words IH]; intros i H; [reflexivity |].
  inversion H as [|? ? Hwd Hrest]; subst.
  cbn [flagged_from]. rewrite Hwd. now apply IH.
Qed.

(** Without a metacharacter in any token, [check_glob] returns NULL and
    [execute_command] keeps its words. *)
Lemma check_glob_no_metachar (w : World) (words : list string) :
  Forall (fun wd => CStr.any_char is_glob_char wd = false) words ->
  check_glob w words = ret None.
Proof.
  intros H. unfold check_glob. now rewrite flagged_from_none.
Qed.

(** C6, at [ls -l *.c] in a directory holding [a.c] and [b.c]:
    [check_glob] rebuilds the line from [words[0]] and the matches only,
    so [-l] is lost and [ls] is run on [a.c b.c].  A line without
    metacharacters is left alone, and a pattern without matches is kept. *)
Theorem glob_expansion_drops_plain_arguments :
  check_glob Cases.with_sources ["ls"; "-l"; "*.c"]
  = ([], Done (Some ("ls a.c b.c" ++ NL)%string)) /\
  snd (execute_command Cases.with_sources (tokenize_line "ls -l *.c")
         Sample.path [] None)
  = ([PosixSpawn "/bin/ls" [] ["ls"; "a.c"; "b.c"] [];
      Stdout (MSG_STATUS "/bin/ls" 0)], Done tt) /\
  check_glob Cases.with_sources ["ls"; "-l"; "a.c"] = ([], Done None) /\
  check_glob Cases.with_sources ["ls"; "nomatch*.xyz"]
  = ([], Done (Some ("ls nomatch*.xyz" ++ NL)%string)).
Proof. repeat split; reflexivity. Qed.

(** ** Resolution *)

(** [find_in_path] returns the first directory of the path under which
    the program is executable. *)
Lemma find_in_path_first (w : World) (program : string) :
  forall path pathname,
    find_in_path w path program = Some pathname <->
    exists before dir after,
      path = before ++ dir :: after /\
      pathname = (dir ++ "/" ++ program)%string /\
      is_executable w pathname = true /\
      Forall (fun d => is_executable w (d ++ "/" ++ program) = false) before.
Proof.
  induction path as [|d path IH]; intros pathname.
  - split; [discriminate |].
    intros (before & dir & after & H & _). destruct before; discriminate.
  - cbn [find_in_path].
    destruct (is_executable w (d ++ "/" ++ program)) eqn:E.
    + split.
      * intros [= <-]. exists [], d, path. repeat split; auto.
      * intros (before & dir & after & Hp & -> & Hx & Hb).
        destruct before as [|b before].
        -- injection Hp as <- <-. reflexivity.
        -- injection Hp as <- ->. inversion Hb; subst. congruence.
    + rewrite IH. split.
      * intros (before & dir & after & -> & -> & Hx & Hb).
        exists (d :: before), dir, after. repeat split; auto.
      * intros (before & dir & after & Hp & -> & Hx & Hb).
        destruct before as [|b before].
        -- injection Hp as <- <-. congruence.
        -- injection Hp as <- ->. inversion Hb; subst.
           exists before, dir, after. repeat split; auto.
Qed.

Lemma find_in_path_none (w : World) (program : string) :
  forall path,
    find_in_path w path program = None <->
    Forall (fun d => is_executable w (d ++ "/" ++ program) = false) path.
Proof.
  induction path as [|d path IH]; cbn [find_in_path].
  - split; auto.
  - destruct (is_executable w (d ++ "/" ++ program)) eqn:E.
    + split; [discriminate |]. intros H. inversion H; subst. congruence.
    + rewrite IH. split; [auto | intros H; now inversion H].
Qed.

(** C9, at the line [foo] with [/bin/foo] missing and an executable
    [foo] in the current directory: after the search path is exhausted,
    [execute_command] tests the bare name itself and runs it, where
    [get_programs] reports command not found for the same name. *)
Theorem bare_name_runs_from_current_directory :
  find_in_path Cases.with_foo Sample.path "foo" = None /\
  execute_command Cases.with_foo (tokenize_line "foo") Sample.path [] None
  = (Some ("foo" ++ NL)%string,
     ([PosixSpawn "foo" [] ["foo"] []; Stdout (MSG_STATUS "foo" 0)],
      Done tt)) /\
  execute_command Cases.with_foo (tokenize_line "ls | foo") Sample.path []
    None
  = (Some ("ls | foo" ++ NL)%string,
     ([Stderr (MSG_NOT_FOUND "foo")], Done tt)) /\
  execute_command Sample.plain (tokenize_line "foo") Sample.path [] None
  = (Some ("foo" ++ NL)%string, ([Stderr (MSG_NOT_FOUND "foo")], Done tt)).
Proof. repeat split; reflexivity. Qed.

(** ** Builtins reached with redirection *)

Lemma check_glob_silent (w : World) (words : list string) :
  fst (check_glob w words) = [].
Proof.
  unfold check_glob.
  repeat match goal with
         | |- context [if ?b then _ else _] => destruct b
         | |- context [match ?x with _ => _ end] => destruct x
         end; reflexivity.
Qed.

Lemma mbind_lift_done {A B} (a : A) (k : A -> M B) (h : hist) :
  mbind (lift ([], Done a)) k h = k a h.
Proof. apply mbind_ret. Qed.

(** A line that passes validation, carries a redirection or pipe token
    and names [pwd], [cd] or [history] is answered with the builtin
    message alone: nothing is spawned. *)
Lemma checked_builtin_rejects_redirection
  (w : World) (first : string) (rest path environment : list string)
  (rc : counters) (h : hist) (program : string) (g : option string) :
  first <> "!"%string ->
  validate (first :: rest) = ([], Done (0, rc)) ->
  redirected rc = true ->
  command_of (first :: rest) = Some program ->
  checked_builtin program = true ->
  snd (check_glob w (first :: rest)) = Done g ->
  w_home w <> None -> w_hist_open w = true ->
  execute_command w (first :: rest) path environment h
  = (Some (hist_text h ++ history_entry (first :: rest))%string,
     ([Stderr (MSG_BUILTIN program)], Done tt)).
Proof.
  intros Hne Hv Hred Hcmd Hb Hg Hhome Hopen.
  rewrite (execute_accepted w first rest rc) by assumption.
  unfold after_store. unfold command_of in Hcmd.
  change (word_at (first :: rest) 0) with (Some first) in Hcmd.
  cbv beta iota in Hcmd. rewrite Hcmd.
  assert (Hex : CStr.streq program "exit" = false).
  { unfold checked_builtin in Hb.
    destruct (String.eqb_spec program "exit") as [-> | N];
      [discriminate | now apply streq_false]. }
  rewrite Hex.
  pose proof (check_glob_silent w (first :: rest)) as Hs.
  destruct (check_glob w (first :: rest)) as [t r]. cbn [fst snd] in *.
  subst t r. rewrite mbind_lift_done.
  unfold dispatch, checked_builtin in *. rewrite Hred.
  destruct (CStr.streq program "pwd"); [reflexivity |].
  destruct (CStr.streq program "cd"); [reflexivity |].
  destruct (CStr.streq program "history"); [reflexivity | discriminate].
Qed.

(** A ['!'] line that passes validation and carries a redirection or
    pipe token is answered with the builtin message; nothing is recalled,
    recorded or spawned. *)
Lemma bang_rejects_redirection
  (w : World) (rest path environment : list string) (rc : counters)
  (h : hist) :
  validate ("!"%string :: rest) = ([], Done (0, rc)) ->
  redirected rc = true ->
  execute_command w ("!"%string :: rest) path environment h
  = (h, ([Stderr (MSG_BUILTIN "!")], Done tt)).
Proof.
  intros Hv Hred. unfold execute_command.
  cbn [word_at Z.ltb Z.compare Z.to_nat nth_error].
  fold (count_of ("!"%string :: rest)).
  fold (validate ("!"%string :: rest)). rewrite Hv.
  rewrite mbind_lift_done. cbn [Z.eqb negb].
  change (CStr.streq "!" "!") with true. cbv iota.
  unfold bang_block. rewrite Hred. reflexivity.
Qed.

(** ** Resolution in execute_command *)

Lemma resolve_program_fits (w : World) (path : list string)
  (program : string) :
  fits w path program ->
  resolve_program w path program = ret (resolved w path program).
Proof.
  unfold fits, resolve_program, resolved, search_path.
  destruct (has_slash program); [reflexivity |].
  intros [H | H]; [discriminate | rewrite H; reflexivity].
Qed.

(** Candidates shorter than the array do not overflow it. *)
Lemma short_candidates_fit (w : World) (program : string) :
  forall path,
    Forall (fun dir =>
              (String.length (dir ++ "/" ++ program) < 1024)%nat) path ->
    pathname_overflow w path program = false.
Proof.
  induction path as [|dir path IH]; intros H; [reflexivity |].
  inversion H as [|? ? Hd Hrest]; subst. cbn [pathname_overflow].
  unfold MAX_LINE_CHARS.
  destruct (Nat.leb_spec 1024 (String.length (dir ++ "/" ++ program)));
    [lia |].
  destruct (is_executable w (dir ++ "/" ++ program)); [reflexivity |].
  now apply IH.
Qed.

(** A command that is not [pwd], [cd] or [history] and whose resolved
    pathname is not an executable regular file is answered with command
    not found; nothing is spawned. *)
Lemma dispatch_not_found
  (w : World) (program : string) (n : Z) (rc : counters)
  (words path environment : list string) (h : hist) :
  checked_builtin program = false ->
  fits w path program ->
  is_executable w (resolved w path program) = false ->
  dispatch w program n rc words path environment h
  = (h, ([Stderr (MSG_NOT_FOUND (resolved w path program))], Done tt)).
Proof.
  intros Hb Hfit Hx. unfold dispatch, checked_builtin in *.
  destruct (CStr.streq program "pwd"); [discriminate |].
  destruct (CStr.streq program "cd"); [discriminate |].
  destruct (CStr.streq program "history"); [discriminate |].
  rewrite (resolve_program_fits w path program Hfit), mbind_lift_ret.
  now rewrite Hx.
Qed.


Lemma resolved_slash (w : World) (path : list string) (program : string) :
  has_slash program = true -> resolved w path program = program.
Proof. intros H. unfold resolved. now rewrite H. Qed.

Lemma resolved_found (w : World) (path : list string)
  (program pathname : string) :
  has_slash program = false ->
  find_in_path w path program = Some pathname ->
  resolved w path program = pathname /\ is_executable w pathname = true.
Proof.
  intros Hs Hf. unfold resolved. rewrite Hs, Hf. split; [reflexivity |].
  apply find_in_path_first in Hf.
  destruct Hf as (_ & _ & _ & _ & _ & Hx & _). exact Hx.
Qed.

(** ** The grammar on the examples of the specification *)

Example validate_pipe_first :
  validate ["|"; "a"] = ([Stderr MSG_PIPE], Done (1, zero_counters)).
Proof. reflexivity. Qed.

Example validate_pipe_last :
  validate ["a"; "|"] = ([Stderr MSG_PIPE], Done (1, zero_counters)).
Proof. reflexivity. Qed.

Example validate_pipe_twice :
  fst (validate ["a"; "|"; "|"; "b"]) = [Stderr MSG_PIPE].
Proof. reflexivity. Qed.

Example validate_truncate :
  validate ["a"; "b"; ">"; "out"]
  = ([], Done (0, {| c_input := 0; c_output := 1; c_pipes := 0 |})).
Proof. reflexivity. Qed.

Example validate_append :
  validate ["a"; "b"; ">"; ">"; "out"]
  = ([], Done (0, {| c_input := 0; c_output := 2; c_pipes := 0 |})).
Proof. reflexivity. Qed.

Example validate_gt_first :
  fst (validate [">"; "a"; "b"]) = [Stderr MSG_OUTPUT].
Proof. reflexivity. Qed.

(** ** Where the interpreter can stop *)

Lemma quiet_ret {A} (a : A) : quiet (ret a).
Proof. exact I. Qed.

Lemma quiet_emit (e : event) : quiet (emit e).
Proof. exact I. Qed.

Lemma quiet_undefined {A} : quiet (@stop A Undefined).
Proof. exact I. Qed.

Lemma quiet_bind {A B} (m : Act A) (k : A -> Act B) :
  quiet m -> (forall a, quiet (k a)) -> quiet (bind m k).
Proof.
  unfold quiet, bind. destruct m as [t [a | x]]; cbn [snd].
  - intros _ Hk. specialize (Hk a). destruct (k a) as [t' r]. exact Hk.
  - intros H _. exact H.
Qed.

Ltac quiet_step :=
  first
    [ exact I
    | apply quiet_bind; [| intros ?]
    | match goal with
      | |- quiet (if ?b then _ else _) => destruct b
      | |- quiet (match ?x with _ => _ end) => destruct x
      end ].

Ltac quiet_auto := repeat quiet_step.

Lemma quiet_redirection_check_arg count c0 words :
  quiet (redirection_check_arg count c0 words).
Proof. unfold redirection_check_arg. quiet_auto. Qed.

Lemma quiet_open_history w h : quiet (open_history w h).
Proof. unfold open_history. quiet_auto. Qed.

Lemma quiet_load_command w h n : quiet (load_command w h n).
Proof.
  unfold load_command. apply quiet_bind; [apply quiet_open_history |].
  intros rows. quiet_auto.
Qed.

Lemma quiet_print_loop (fuel : nat) : forall data i j,
  quiet (print_loop fuel data i j).
Proof.
  induction fuel as [|fuel IH]; intros data i j; cbn [print_loop].
  - apply quiet_ret.
  - destruct (j <? i - 1); [| apply quiet_ret].
    destruct (word_at data j); [| apply quiet_undefined].
    apply quiet_bind; [apply quiet_emit | intros _; apply IH].
Qed.

Lemma quiet_print_history w h num : quiet (print_history w h num).
Proof.
  unfold print_history. apply quiet_bind; [apply quiet_open_history |].
  intros [data |]; [| apply quiet_ret].
  destruct (in_int_range _); [apply quiet_print_loop | apply quiet_undefined].
Qed.

Lemma quiet_numeric_arg_check who num0 count words :
  quiet (numeric_arg_check who num0 count words).
Proof. unfold numeric_arg_check. quiet_auto. Qed.

Lemma quiet_check_glob w words : quiet (check_glob w words).
Proof. unfold check_glob. cbv zeta. quiet_auto. Qed.

Lemma quiet_pwd w : quiet (pwd w).
Proof. unfold pwd. quiet_auto. Qed.

Lemma quiet_cd w words : quiet (cd w words).
Proof. unfold cd. quiet_auto. Qed.

Lemma quiet_run_program w pathname words environment :
  quiet (run_program w pathname words environment).
Proof. unfold run_program. quiet_auto. Qed.

Lemma quiet_check_files w max input output words :
  quiet (check_files w max input output words).
Proof. unfold check_files. quiet_auto. Qed.

Lemma quiet_input_actions input words : quiet (input_actions input words).
Proof. unfold input_actions. quiet_auto. Qed.

Lemma quiet_output_actions max output words :
  quiet (output_actions max output words).
Proof. unfold output_actions. quiet_auto. Qed.

Lemma quiet_redirection_arguments max input output words :
  quiet (redirection_arguments max input output words).
Proof. unfold redirection_arguments. cbv zeta. quiet_auto. Qed.

Lemma quiet_in_out_redirection w max program input output words environment :
  quiet (in_out_redirection w max program input output words environment).
Proof.
  unfold in_out_redirection.
  apply quiet_bind; [apply quiet_check_files | intros ok].
  destruct (negb ok); [apply quiet_ret |].
  apply quiet_bind; [apply quiet_input_actions | intros acts_in].
  apply quiet_bind; [apply quiet_output_actions | intros acts_out].
  apply quiet_bind; [apply quiet_redirection_arguments | intros arguments].
  cbv zeta. quiet_auto.
Qed.

Lemma quiet_search_path w path program : quiet (search_path w path program).
Proof. unfold search_path. quiet_auto. Qed.

Lemma quiet_resolve_program w path program :
  quiet (resolve_program w path program).
Proof.
  unfold resolve_program. destruct (has_slash program); [apply quiet_ret |].
  apply quiet_bind; [apply quiet_search_path | intros ?; apply quiet_ret].
Qed.

Lemma quiet_get_programs_loop (fuel : nat) : forall w path words max i new ps,
  quiet (get_programs_loop fuel w path words max i new ps).
Proof.
  induction fuel as [|fuel IH]; intros w path words max i new ps;
    cbn [get_programs_loop]; [apply quiet_ret |].
  destruct (i <? max); [| apply quiet_ret].
  destruct (word_at words i) as [wd |]; [| apply quiet_undefined].
  destruct (CStr.streq wd ">"); [apply quiet_ret |].
  destruct (CStr.streq wd "|"); [apply IH |].
  destruct new; [| apply IH].
  destruct (Nat.leb MAX_LINE_CHARS (String.length wd));
    [apply quiet_undefined |].
  destruct (is_stage_builtin wd); [quiet_auto |].
  apply quiet_bind.
  - destruct (has_slash wd); [apply quiet_ret | apply quiet_search_path].
  - intros [program |]; [apply IH | quiet_auto].
Qed.

Lemma quiet_get_arguments max words input output program_num :
  quiet (get_arguments max words input output program_num).
Proof. unfold get_arguments. cbv zeta. quiet_auto. Qed.

Lemma quiet_make_pipes (fuel : nat) : forall w i pipe_count,
  quiet (make_pipes fuel w i pipe_count).
Proof.
  induction fuel as [|fuel IH]; intros w i pipe_count; cbn [make_pipes];
    [apply quiet_ret |].
  destruct (i <? pipe_count); [| apply quiet_ret].
  destruct (w_pipe w i); [| quiet_auto].
  apply quiet_bind; [apply quiet_emit | intros _; apply IH].
Qed.

Lemma quiet_pipe_stage w max programs input output pipe_count words
  environment program i current_pipe :
  quiet (pipe_stage w max programs input output pipe_count words environment
           program i current_pipe).
Proof.
  unfold pipe_stage.
  apply quiet_bind; [apply quiet_get_arguments | intros arguments].
  destruct (program =? pipe_count + 1).
  - apply quiet_bind; [apply quiet_input_actions | intros acts_in].
    cbv zeta. quiet_auto.
  - destruct (program =? 1).
    + apply quiet_bind; [apply quiet_output_actions | intros acts_out].
      cbv zeta. quiet_auto.
    + cbv zeta. quiet_auto.
Qed.

Lemma quiet_pipes_loop (fuel : nat) :
  forall w max programs input output pipe_count words environment program i
         current_pipe,
  quiet (pipes_loop fuel w max programs input output pipe_count words
           environment program i current_pipe).
Proof.
  induction fuel as [|fuel IH]; intros; cbn [pipes_loop]; [apply quiet_ret |].
  destruct (0 <? program); [| apply quiet_ret].
  apply quiet_bind; [apply quiet_pipe_stage | intros go].
  destruct go; [apply IH | apply quiet_ret].
Qed.

Lemma quiet_pipes w max programs input output pipe_count words environment :
  quiet (pipes w max programs input output pipe_count words environment).
Proof.
  unfold pipes.
  apply quiet_bind; [apply quiet_check_files | intros ok].
  destruct (negb ok); [apply quiet_ret |].
  apply quiet_bind; [apply quiet_make_pipes | intros made].
  destruct (negb made); [apply quiet_ret | apply quiet_pipes_loop].
Qed.

Lemma mquiet_mret {A} (a : A) : mquiet (mret a).
Proof. intros h. exact I. Qed.

Lemma mquiet_lift {A} (m : Act A) : quiet m -> mquiet (lift m).
Proof. intros H h. exact H. Qed.

Lemma mquiet_mget : mquiet mget.
Proof. intros h. exact I. Qed.

Lemma mquiet_mbind {A B} (m : M A) (k : A -> M B) :
  mquiet m -> (forall a, mquiet (k a)) -> mquiet (mbind m k).
Proof.
  intros Hm Hk h. specialize (Hm h). unfold quiet, mbind in *.
  destruct (m h) as [h1 [t [a | x]]]; cbn [snd] in *; [| exact Hm].
  specialize (Hk a h1). destruct (k a h1) as [h2 [t' r]]. exact Hk.
Qed.

Lemma mquiet_spawning {A} w (m : Act A) : quiet m -> mquiet (spawning w m).
Proof. intros H h. exact H. Qed.

Lemma mquiet_store_command w words : mquiet (store_command w words).
Proof.
  intros h. unfold store_command.
  destruct (w_home w); [| exact I]. destruct (w_hist_open w); exact I.
Qed.

Lemma mquiet_dispatch w program n rc words path environment :
  mquiet (dispatch w program n rc words path environment).
Proof.
  unfold dispatch. cbv zeta.
  repeat first
    [ apply mquiet_mret | apply mquiet_mget
    | apply mquiet_lift;
      first [ exact I | apply quiet_pwd | apply quiet_cd
            | apply quiet_numeric_arg_check | apply quiet_print_history
            | apply quiet_resolve_program
            | apply quiet_get_programs_loop ]
    | apply mquiet_spawning;
      first [ apply quiet_run_program | apply quiet_in_out_redirection
            | apply quiet_pipes ]
    | apply mquiet_mbind; [| intros ?]
    | match goal with
      | |- mquiet (if ?b then _ else _) => destruct b
      | |- mquiet (match ?x with _ => _ end) => destruct x
      end ].
Qed.

Lemma mquiet_bang_block w program n rc words :
  mquiet (bang_block w program n rc words).
Proof.
  unfold bang_block. cbv zeta.
  repeat first
    [ apply mquiet_mret | apply mquiet_mget
    | apply mquiet_lift;
      first [ exact I | apply quiet_numeric_arg_check
            | apply quiet_load_command | apply quiet_redirection_check_arg ]
    | apply mquiet_mbind; [| intros ?]
    | match goal with
      | |- mquiet (if ?b then _ else _) => destruct b
      | |- mquiet (match ?x with _ => _ end) => destruct x
      end ].
Qed.

(** After [store_command], only a command named [exit] can stop the
    interpreter by [exit] or by a failed assertion. *)
Lemma mquiet_after_store w n rc words path environment :
  command_of words <> Some "exit"%string ->
  mquiet (after_store w (word_at words 0) n rc words path environment).
Proof.
  intros Hcmd. unfold after_store, command_of in *.
  destruct (word_at words 0) as [first |];
    [| apply mquiet_lift, quiet_undefined].
  destruct (if CStr.streq first "<" then word_at words 2 else Some first)
    as [program |]; [| apply mquiet_lift, quiet_undefined].
  destruct (String.eqb_spec program "exit") as [-> | Hne]; [congruence |].
  apply streq_false in Hne. rewrite Hne.
  apply mquiet_mbind; [apply mquiet_lift, quiet_check_glob |].
  intros g. apply mquiet_dispatch.
Qed.

(** The program word handed on by the ['!'] block is the first of the
    recalled words. *)
Lemma bang_block_program w program rc words h :
  match snd (snd (bang_block w program (count_of words) rc words h)) with
  | Done (Some (ws, p, _, _)) => p = word_at ws 0
  | _ => True
  end.
Proof.
  unfold bang_block.
  destruct (redirected rc); [exact I |].
  rewrite result_mbind. cbn [lift fst snd].
  destruct (exclamation_check_arg (-1) (count_of words) words)
    as [t1 [[nv num] | x]]; cbn [fst snd]; [| exact I].
  destruct (negb (nv =? 0)); [exact I |].
  rewrite result_mbind. cbn [mget ret fst snd].
  rewrite result_mbind. cbn [lift fst snd].
  destruct (load_command w h num) as [t2 [[row |] | x]]; cbn [fst snd];
    [| exact I | exact I].
  rewrite result_mbind. cbn [lift emit fst snd].
  rewrite result_mbind. cbn [lift fst snd]. cbv zeta.
  destruct (redirection_check_arg _ zero_counters
              (tokenize_line (w_stale w TokenizeRecalled row)))
    as [t3 [[code rc'] | x]]; cbn [fst snd]; [| exact I].
  destruct (negb (code =? 0)); [exact I | reflexivity].
Qed.

Lemma quiet_mbind_at {A B} (m : M A) (k : A -> M B) (h : hist) :
  quiet (snd (m h)) ->
  (forall a, snd (snd (m h)) = Done a -> quiet (snd (k a (fst (m h))))) ->
  quiet (snd (mbind m k h)).
Proof.
  intros Hm Hk. unfold quiet, mbind in *.
  destruct (m h) as [h1 [t [a | x]]]; cbn [fst snd] in *; [| exact Hm].
  specialize (Hk a eq_refl). destruct (k a h1) as [h2 [t' r]]. exact Hk.
Qed.

(** A line stops the interpreter by [exit] or by a failed assertion only
    if its finalized command is [exit]: every other error path of
    [execute_command] returns to the main loop. *)
Lemma only_exit_stops w words path environment h :
  (forall final, finalized w words h = Some final ->
                 command_of final <> Some "exit"%string) ->
  quiet (snd (execute_command w words path environment h)).
Proof.
  intros Hfin.
  destruct words as [|w0 ws]; [exact I |].
  unfold execute_command.
  change (word_at (w0 :: ws) 0) with (Some w0). cbv iota.
  fold (count_of (w0 :: ws)). fold (validate (w0 :: ws)).
  apply quiet_mbind_at; [apply quiet_redirection_check_arg |].
  cbn [lift fst snd]. intros [code rc] Hv.
  destruct (validate (w0 :: ws)) as [t r] eqn:Hval. cbn [snd] in Hv. subst r.
  pose proof (accepted_code _ _ _ _ Hval) as Hacc.
  destruct (Z.eqb_spec code 0) as [-> | Hc]; cbn [negb]; [| exact I].
  cbn [finalized] in Hfin. rewrite Hacc in Hfin.
  destruct (CStr.streq w0 "!") eqn:Hb.
  - apply quiet_mbind_at; [apply mquiet_bang_block |].
    rewrite bang_block_keeps.
    pose proof (bang_block_recalled w w0 rc (w0 :: ws) h) as Hr.
    pose proof (bang_block_program w w0 rc (w0 :: ws) h) as Hp.
    intros ctx Hctx. rewrite Hctx in Hr, Hp.
    destruct ctx as [[[[ws' p] n] rc'] |]; [| exact I]. subst p.
    apply quiet_mbind_at; [apply mquiet_store_command |].
    intros u _. apply mquiet_after_store. now apply Hfin.
  - apply quiet_mbind_at; [exact I |].
    cbn [mret ret fst snd]. intros ctx [= <-].
    apply quiet_mbind_at; [apply mquiet_store_command |].
    intros u _.
    change (Some w0) with (word_at (w0 :: ws) 0).
    apply mquiet_after_store. now apply Hfin.
Qed.

(** ** The loops of the pipeline code run to their end *)

(** In each of these loops the index moves by one towards a bound, and
    the fuel given by the caller covers the distance: with at least that
    much fuel the result does not depend on the fuel. *)

Lemma get_programs_loop_fuel (f1 : nat) :
  forall f2 w path words max i new ps,
    max - i <= Z.of_nat f1 -> max - i <= Z.of_nat f2 ->
    get_programs_loop f1 w path words max i new ps
    = get_programs_loop f2 w path words max i new ps.
Proof.
  induction f1 as [|f1 IH]; intros f2 w path words max i new ps H1 H2.
  - destruct f2 as [|f2]; [reflexivity |]. cbn [get_programs_loop].
    destruct (Z.ltb_spec i max); [lia | reflexivity].
  - destruct f2 as [|f2]; cbn [get_programs_loop].
    + destruct (Z.ltb_spec i max); [lia | reflexivity].
    + destruct (Z.ltb_spec i max); [| reflexivity].
      destruct (word_at words i) as [wd |]; [| reflexivity].
      destruct (CStr.streq wd ">"); [reflexivity |].
      destruct (CStr.streq wd "|"); [apply IH; lia |].
      destruct new; [| apply IH; lia].
      destruct (Nat.leb MAX_LINE_CHARS (String.length wd)); [reflexivity |].
      destruct (is_stage_builtin wd); [reflexivity |].
      destruct (if has_slash wd then ret (Some wd)
                else search_path w path wd) as [t [[program |] | x]];
        cbn [bind]; try reflexivity.
      rewrite (IH f2) by lia. reflexivity.
Qed.

Lemma collect_args_fuel (f1 : nat) :
  forall f2 words max i,
    max - i <= Z.of_nat f1 -> max - i <= Z.of_nat f2 ->
    collect_args f1 words max i = collect_args f2 words max i.
Proof.
  induction f1 as [|f1 IH]; intros f2 words max i H1 H2.
  - destruct f2 as [|f2]; [reflexivity |]. cbn [collect_args].
    destruct (Z.ltb_spec i max); [lia | reflexivity].
  - destruct f2 as [|f2]; cbn [collect_args].
    + destruct (Z.ltb_spec i max); [lia | reflexivity].
    + destruct (Z.ltb_spec i max); [| reflexivity].
      destruct (word_at words i) as [wd |]; [| reflexivity].
      destruct (CStr.streq wd "|"); [reflexivity |].
      destruct (CStr.streq wd ">"); [reflexivity |].
      rewrite (IH f2) by lia. reflexivity.
Qed.

Lemma make_pipes_fuel (f1 : nat) :
  forall f2 w i pipe_count,
    pipe_count - i <= Z.of_nat f1 -> pipe_count - i <= Z.of_nat f2 ->
    make_pipes f1 w i pipe_count = make_pipes f2 w i pipe_count.
Proof.
  induction f1 as [|f1 IH]; intros f2 w i pipe_count H1 H2.
  - destruct f2 as [|f2]; [reflexivity |]. cbn [make_pipes].
    destruct (Z.ltb_spec i pipe_count); [lia | reflexivity].
  - destruct f2 as [|f2]; cbn [make_pipes].
    + destruct (Z.ltb_spec i pipe_count); [lia | reflexivity].
    + destruct (Z.ltb_spec i pipe_count); [| reflexivity].
      destruct (w_pipe w i); [| reflexivity].
      rewrite (IH f2) by lia. reflexivity.
Qed.

Lemma pipes_loop_fuel (f1 : nat) :
  forall f2 w max programs input output pipe_count words environment program
         i current_pipe,
    program <= Z.of_nat f1 -> program <= Z.of_nat f2 ->
    pipes_loop f1 w max programs input output pipe_count words environment
      program i current_pipe
    = pipes_loop f2 w max programs input output pipe_count words environment
        program i current_pipe.
Proof.
  induction f1 as [|f1 IH]; intros f2 w max programs input output pipe_count
    words environment program i current_pipe H1 H2.
  - destruct f2 as [|f2]; [reflexivity |]. cbn [pipes_loop].
    destruct (Z.ltb_spec 0 program); [lia | reflexivity].
  - destruct f2 as [|f2]; cbn [pipes_loop].
    + destruct (Z.ltb_spec 0 program); [lia | reflexivity].
    + destruct (Z.ltb_spec 0 program); [| reflexivity].
      assert (E : forall go : bool,
        (if go then
           pipes_loop f1 w max programs input output pipe_count words
             environment (program - 1) (i + 1) (current_pipe + 2)
         else ret tt)
        = (if go then
             pipes_loop f2 w max programs input output pipe_count words
               environment (program - 1) (i + 1) (current_pipe + 2)
           else ret tt)).
      { intros [|]; [apply IH; lia | reflexivity]. }
      unfold bind.
      destruct (pipe_stage w max programs input output pipe_count words
                  environment program i current_pipe) as [t [go | x]];
        [| reflexivity].
      now rewrite E.
Qed.

(** * Further properties *)

(** ** Decimal numerals *)

Module Dec.

Lemma value_acc (d : Decimal.uint) : forall acc : positive,
  digits_value_from (Z.pos acc) (NilEmpty.string_of_uint d)
  = Z.pos (Pos.of_uint_acc d acc).
Proof.
  induction d; intros acc; cbn [NilEmpty.string_of_uint Pos.of_uint_acc];
    try reflexivity;
    cbn [digits_value_from]; rewrite <- IHd; f_equal;

    match goal with
    | |- context [Ascii.nat_of_ascii ?c] =>
        let v := eval vm_compute in (Z.of_nat (Ascii.nat_of_ascii c - 48)) in
        change (Z.of_nat (Ascii.nat_of_ascii c - 48)) with v
    end; lia.
Qed.

Lemma value_of_uint (d : Decimal.uint) :
  digits_value (NilEmpty.string_of_uint d) = Z.of_N (Pos.of_uint d).
Proof.
  unfold digits_value.
  induction d; cbn [NilEmpty.string_of_uint Pos.of_uint]; try reflexivity;
    cbn [digits_value_from];
    match goal with
    | |- context [Ascii.nat_of_ascii ?c] =>
        let v := eval vm_compute in (Z.of_nat (Ascii.nat_of_ascii c - 48)) in
        change (Z.of_nat (Ascii.nat_of_ascii c - 48)) with v
    end; cbn [Z.mul Z.add]; [exact IHd | ..]; apply value_acc.
Qed.

Lemma digits_of_uint (d : Decimal.uint) :
  CStr.all_chars isdigit (NilEmpty.string_of_uint d) = true.
Proof. induction d; cbn [NilEmpty.string_of_uint]; try reflexivity; exact IHd. Qed.

Lemma count_all (p : ascii -> bool) (s : string) :
  CStr.all_chars p s = true -> count_while p s = String.length s.
Proof.
  induction s as [|c s IH]; [reflexivity |].
  cbn [CStr.all_chars count_while String.length].
  destruct (p c); [| discriminate]. intros H. now rewrite IH.
Qed.

Lemma take_all (s : string) : CStr.take (String.length s) s = s.
Proof. induction s as [|c s IH]; [reflexivity |]. simpl. now rewrite IH. Qed.

Lemma drop_all (s : string) : CStr.drop (String.length s) s = EmptyString.
Proof. induction s as [|c s IH]; [reflexivity |]. exact IH. Qed.

(** [strtol] on the digits of a positive number. *)
Lemma strtol_digits (p : positive) :
  strtol (NilEmpty.string_of_uint (Pos.to_uint p))
  = (Z.max LONG_MIN (Z.min LONG_MAX (Z.pos p)), EmptyString).
Proof.
  pose proof (DecimalPos.Unsigned.of_to p) as Hv.
  pose proof (DecimalPos.Unsigned.to_uint_nonnil p) as Hn.
  pose proof (digits_of_uint (Pos.to_uint p)) as Hd.
  pose proof (value_of_uint (Pos.to_uint p)) as Hval.
  rewrite Hv in Hval.
  destruct (Pos.to_uint p) as [|d|d|d|d|d|d|d|d|d|d]; [congruence | ..];
    cbn [NilEmpty.string_of_uint] in *;
    match goal with
    | |- strtol ?s = _ =>
        unfold strtol;
        change (count_while isspace s) with 0%nat;
        cbn [CStr.drop]; cbv iota;
        rewrite (count_all isdigit s Hd), take_all, drop_all, Hval
    end; reflexivity.
Qed.

Lemma strtol_fmt_int (z : Z) :
  strtol (fmt_int z) = (Z.max LONG_MIN (Z.min LONG_MAX z), EmptyString).
Proof.
  unfold fmt_int. destruct z as [|p|p]; [reflexivity | |].
  - cbn [Z.to_int NilZero.string_of_int].
    pose proof (DecimalPos.Unsigned.to_uint_nonnil p) as Hn.
    assert (Hs : NilZero.string_of_uint (Pos.to_uint p)
                 = NilEmpty.string_of_uint (Pos.to_uint p)).
    { unfold NilZero.string_of_uint. destruct (Pos.to_uint p); congruence. }
    rewrite Hs. apply strtol_digits.
  - cbn [Z.to_int NilZero.string_of_int].
    pose proof (DecimalPos.Unsigned.to_uint_nonnil p) as Hn.
    pose proof (DecimalPos.Unsigned.of_to p) as Hv.
    pose proof (digits_of_uint (Pos.to_uint p)) as Hd.
    pose proof (value_of_uint (Pos.to_uint p)) as Hval.
    rewrite Hv in Hval.
    assert (Hs : NilZero.string_of_uint (Pos.to_uint p)
                 = NilEmpty.string_of_uint (Pos.to_uint p)).
    { unfold NilZero.string_of_uint. destruct (Pos.to_uint p); congruence. }
    rewrite Hs.
    unfold strtol.
    change (count_while isspace (String "-" ?s)) with 0%nat.
    cbn [CStr.drop]. cbv iota.
    assert (Hpos : count_while isdigit (NilEmpty.string_of_uint (Pos.to_uint p))
                   <> 0%nat).
    { rewrite (count_all _ _ Hd).
      destruct (Pos.to_uint p); [congruence | ..]; discriminate. }
    apply Nat.eqb_neq in Hpos. rewrite Hpos.
    rewrite (count_all _ _ Hd), take_all, drop_all, Hval.
    reflexivity.
Qed.

Lemma digits_fmt_nonneg (z : Z) :
  0 <= z -> CStr.all_chars isdigit (fmt_int z) = true.
Proof.
  intros Hz. unfold fmt_int. destruct z as [|p|p]; [reflexivity | | lia].
  cbn [Z.to_int NilZero.string_of_int]. unfold NilZero.string_of_uint.
  pose proof (digits_of_uint (Pos.to_uint p)) as Hd.
  destruct (Pos.to_uint p); [reflexivity | ..]; exact Hd.
Qed.

Lemma to_int_id (z : Z) : - 2 ^ 31 <= z <= 2 ^ 31 - 1 -> to_int z = z.
Proof.
  intros H. unfold to_int.
  rewrite Z.mod_small; lia.
Qed.

(** A number printed with ["%d"] is read back by [atoi]. *)
Lemma atoi_fmt_int (z : Z) :
  - 2 ^ 31 <= z <= 2 ^ 31 - 1 -> atoi (fmt_int z) = z.
Proof.
  intros H. unfold atoi. rewrite strtol_fmt_int. cbn [fst].
  unfold LONG_MIN, LONG_MAX. rewrite to_int_id; lia.
Qed.

End Dec.

(** ** tokenize, for any separators *)

Section TokenizerMore.

Variables separators special_chars : string.

Local Abbreviation scan := (scan_tokens separators special_chars).

Lemma all_chars_impl (p q : ascii -> bool) (s : string) :
  (forall c, p c = true -> q c = true) ->
  CStr.all_chars p s = true -> CStr.all_chars q s = true.
Proof.
  intros Hpq. induction s as [|c s IH]; [reflexivity |].
  cbn [CStr.all_chars]. destruct (p c) eqn:E; [| discriminate].
  rewrite (Hpq c E). exact IH.
Qed.

Lemma scan_all_separators (s : string) :
  CStr.all_chars (is_separator separators) s = true -> scan "" s = [].
Proof.
  induction s as [|c s IH]; [reflexivity |].
  cbn [CStr.all_chars scan_tokens]. unfold is_separator at 1.
  destruct (CStr.mem c separators); [exact IH | discriminate].
Qed.

Lemma scan_pending (s cur : string) :
  cur <> EmptyString -> scan cur s <> [].
Proof.
  revert cur; induction s as [|c s IH]; intros cur Hne; cbn [scan_tokens].
  - destruct cur; [congruence | discriminate].
  - destruct (CStr.mem c separators);
      [destruct cur; [congruence | discriminate] |].
    destruct (CStr.mem c special_chars);
      [destruct cur; [congruence | discriminate] |].
    apply IH. destruct cur; discriminate.
Qed.

Lemma scan_nil_all_separators (s : string) :
  scan "" s = [] -> CStr.all_chars (is_separator separators) s = true.
Proof.
  induction s as [|c s IH]; [reflexivity |].
  cbn [CStr.all_chars scan_tokens]. unfold is_separator at 1.
  destruct (CStr.mem c separators); [exact IH |].
  destruct (CStr.mem c special_chars); [discriminate |].
  intros H. exfalso. revert H. apply scan_pending. discriminate.
Qed.

(** A run of plain characters in front of the text joins the current
    run. *)
Lemma scan_plain_prefix (t : string) : forall cur s,
  CStr.all_chars (plain_char separators special_chars) t = true ->
  scan cur (t ++ s) = scan (cur ++ t) s.
Proof.
  induction t as [|c t IH]; intros cur s Ht.
  - cbn [String.append]. now rewrite StrFacts.app_nil_r.
  - cbn [CStr.all_chars] in Ht. cbn [String.append scan_tokens].
    destruct (plain_char separators special_chars c) eqn:Hc; [| discriminate].
    unfold plain_char in Hc. apply andb_prop in Hc. destruct Hc as [H1 H2].
    apply negb_true_iff in H1. apply negb_true_iff in H2. rewrite H1, H2.
    rewrite IH by exact Ht. now rewrite StrFacts.app_assoc.
Qed.

End TokenizerMore.

(** X1.  For any separator and special characters (also those of the
    search path, [":"] and none), [tokenize] yields what the
    character-by-character scanner yields: no token is empty, no token
    holds a separator, and the tokens written one after the other are the
    text without its separators. *)
Theorem tokenize_for_any_separators (s separators special_chars : string) :
  tokenize s separators special_chars
    = scan_tokens separators special_chars EmptyString s /\
  Forall (fun token =>
            token <> EmptyString /\
            CStr.all_chars (not_separator separators) token = true)
         (tokenize s separators special_chars) /\
  concat_tokens (tokenize s separators special_chars)
    = without_separators separators s.
Proof.
  assert (E : tokenize s separators special_chars
              = scan_tokens separators special_chars EmptyString s).
  { unfold tokenize. now apply tokenize_loop_scan. }
  rewrite E. split; [reflexivity |]. split.
  - pose proof (scan_shape separators special_chars s EmptyString eq_refl)
      as H.
    eapply Forall_impl; [| exact H].
    intros token [(c & -> & _ & Hsep) | [Hne Hplain]].
    + split; [discriminate |]. cbn [CStr.all_chars]. unfold not_separator.
      now rewrite Hsep.
    + split; [exact Hne |].
      eapply all_chars_impl; [| exact Hplain].
      intros c Hc. unfold plain_char in Hc. unfold not_separator.
      now apply andb_prop in Hc.
  - now rewrite scan_concat.
Qed.

(** ** Lines without words *)

Lemma tokenize_line_nil (line : string) :
  tokenize_line line = [] <->
  CStr.all_chars (is_separator WORD_SEPARATORS) line = true.
Proof.
  rewrite tokenize_line_spec. unfold spec_tokenize. split.
  - apply scan_nil_all_separators.
  - apply scan_all_separators.
Qed.

(** X2.  A line made of separators only (blank, or just a newline) has no
    tokens, and [execute_command] does nothing for it: no output, no
    history entry, no process. *)
Theorem blank_line_is_a_no_op
  (w : World) (line : string) (path environment : list string) (h : hist) :
  CStr.all_chars (is_separator WORD_SEPARATORS) line = true ->
  tokenize_line line = [] /\
  execute_command w (tokenize_line line) path environment h
  = (h, ([], Done tt)).
Proof.
  intros H. apply tokenize_line_nil in H. rewrite H. split; reflexivity.
Qed.

Lemma blank_line_is_a_no_op_witness :
  tokenize_line (String " " (String TAB NL)) = [] /\
  execute_command Sample.plain (tokenize_line (String " " (String TAB NL)))
    Sample.path [] (Some ("ls" ++ NL)%string)
  = (Some ("ls" ++ NL)%string, ([], Done tt)).
Proof.
  apply (blank_line_is_a_no_op Sample.plain (String " " (String TAB NL))).
  reflexivity.
Defined.

(** ** Entries read back *)

Lemma scan_token_then_separator (token s : string) (c : ascii) :
  token_shape token -> CStr.mem c WORD_SEPARATORS = true ->
  scan_tokens WORD_SEPARATORS SPECIAL_CHARS EmptyString
    (token ++ String c s)
  = token :: scan_tokens WORD_SEPARATORS SPECIAL_CHARS EmptyString s.
Proof.
  intros [(d & -> & Hsp & Hsep) | [Hne Hplain]] Hc.
  - cbn [String.append scan_tokens]. rewrite Hsep, Hsp, Hc. reflexivity.
  - rewrite scan_plain_prefix by exact Hplain.
    cbn [String.append scan_tokens]. rewrite Hc.
    destruct token; [congruence | reflexivity].
Qed.

Lemma scan_history_entry (words : list string) :
  Forall token_shape words ->
  scan_tokens WORD_SEPARATORS SPECIAL_CHARS EmptyString (history_entry words)
  = words.
Proof.
  unfold history_entry.
  induction 1 as [|wd rest Hwd Hrest IH]; [reflexivity |].
  cbn [join_words]. destruct rest as [|wd2 rest].
  - unfold NL. rewrite scan_token_then_separator; auto.
  - rewrite !StrFacts.app_assoc. cbn [String.append].
    rewrite scan_token_then_separator; auto. now rewrite IH.
Qed.

(** X3.  What [store_command] writes for the tokens of a line is
    tokenized back to the same tokens: a line recalled from the history
    file is the line that was recorded. *)
Theorem history_entry_round_trip (line : string) :
  tokenize_line (history_entry (tokenize_line line)) = tokenize_line line.
Proof.
  rewrite (tokenize_line_spec (history_entry _)). unfold spec_tokenize.
  apply scan_history_entry, tokenize_line_shape.
Qed.

(** ** exit *)

(** X6.  [exit n], for [n] written in decimal, ends the interpreter with
    status [n] and prints nothing, and a bare [exit] ends it with status
    0.  Whatever its arguments, [do_exit] called on a line whose first
    word is [exit] ends in [exit(status)] and never returns to its
    caller; called on any other first word it fails its assertion. *)
Theorem exit_status_is_the_argument (n : Z) (words : list string) :
  - 2 ^ 31 <= n <= 2 ^ 31 - 1 ->
  do_exit ["exit"; fmt_int n] = ([], Halt (Exit n)) /\
  do_exit ["exit"] = ([], Halt (Exit 0)) /\
  (word_at words 0 = Some "exit"%string ->
   exists status, snd (do_exit words) = Halt (Exit status)) /\
  (forall w0, word_at words 0 = Some w0 -> w0 <> "exit"%string ->
              do_exit words = ([], Halt Abort)).
Proof.
  intros Hn. split; [| split; [| split]].
  - unfold do_exit.
    change (word_at ["exit"; fmt_int n] 0) with (Some "exit"%string).
    cbv iota. change (CStr.streq "exit" "exit") with true. cbv iota.
    change (word_at ["exit"; fmt_int n] 1) with (Some (fmt_int n)).
    change (word_at ["exit"; fmt_int n] 2) with (@None string).
    cbv iota. rewrite Dec.strtol_fmt_int.
    cbn [CStr.is_empty]. rewrite !bind_ret.
    unfold LONG_MIN, LONG_MAX.
    rewrite Z.min_r, Z.max_r, Dec.to_int_id by lia. reflexivity.
  - reflexivity.
  - intros H0. unfold do_exit. rewrite H0.
    change (CStr.streq "exit" "exit") with true. cbv iota.
    destruct (word_at words 1) as [w1 |]; [| eexists; reflexivity].
    destruct (word_at words 2); [eexists; reflexivity |].
    destruct (strtol w1) as [v endptr].
    destruct (CStr.is_empty endptr); eexists; reflexivity.
  - intros w0 H0 Hne. unfold do_exit. rewrite H0.
    apply streq_false in Hne. now rewrite Hne.
Qed.

Lemma exit_status_is_the_argument_witness :
  do_exit ["exit"; "42"] = ([], Halt (Exit 42)) /\
  do_exit ["exit"] = ([], Halt (Exit 0)) /\
  snd (do_exit ["exit"; "1"; "2"]) = Halt (Exit 0) /\
  do_exit ["<"; "f"; "exit"] = ([], Halt Abort).
Proof.
  destruct (exit_status_is_the_argument 42 ["exit"; "1"; "2"])
    as (H1 & H2 & _ & _); [lia |].
  destruct (exit_status_is_the_argument 42 ["<"; "f"; "exit"])
    as (_ & _ & _ & H4); [lia |].
  split; [exact H1 | split; [exact H2 | split; [reflexivity |]]].
  apply (H4 "<"%string); [reflexivity | discriminate].
Defined.

(** ** The counters of redirection_check_arg *)

Section Counters.

Variable words : list string.

Local Abbreviation count := (count_of words).

Ltac leaf :=
  do 3 eexists; split; [reflexivity |];
  unfold err_sum, count_step; cbn;
  split; [lia | intros; first [lia | split; reflexivity]].

(** One iteration adds one to a counter and leaves the error counters,
    or raises an error counter and leaves the counters. *)
Lemma redir_body_counts (i : Z) (wd : string) (c : counters) (e : errors) :
  word_at words i = Some wd ->
  exists c' e' brk,
    redir_body count words i c e = Some (c', e', brk) /\
    err_sum e <= err_sum e' /\
    (err_sum e' = err_sum e -> brk = false /\ c' = count_step wd c).
Proof.
  intros Hw.
  pose proof (word_at_range _ _ _ Hw) as Hr.
  unfold redir_body. rewrite Hw.
  destruct (String.eqb_spec wd "<") as [-> | Nlt].
  { unfold redir_lt. cbn [CStr.streq String.eqb Ascii.eqb Bool.eqb].
    destruct (Z.ltb_spec count 3); [leaf |].
    destruct (Z.eqb_spec i 0); leaf. }
  assert (Hlt : redir_lt count i wd c e = (c, e, false)).
  { unfold redir_lt. apply streq_false in Nlt. now rewrite Nlt. }
  rewrite Hlt.
  destruct (String.eqb_spec wd ">") as [-> | Ngt].
  { unfold redir_gt, redir_pipe.
    cbn [CStr.streq String.eqb Ascii.eqb Bool.eqb].
    destruct (Z.eqb_spec i 0); [destruct (Z.ltb_spec count 3); leaf |].
    destruct (Z.eqb_spec i (count - 3)).
    - destruct (word_at_in_range words (i + 1)) as [next Hn]; [lia |].
      rewrite Hn. destruct (Z.ltb_spec count 3); [lia |].
      destruct (CStr.streq next ">"); leaf.
    - destruct (Z.eqb_spec i (count - 2));
        destruct (Z.ltb_spec count 3); try lia; leaf. }
  assert (Hgt : redir_gt count words i wd c e = Some (c, e)).
  { unfold redir_gt. apply streq_false in Ngt. now rewrite Ngt. }
  rewrite Hgt.
  destruct (String.eqb_spec wd "|") as [-> | Npipe].
  { unfold redir_pipe. cbn [CStr.streq String.eqb Ascii.eqb Bool.eqb].
    destruct (Z.eqb_spec i 0); [destruct (Z.ltb_spec count 3); leaf |].
    destruct (Z.eqb_spec i (count - 1));
      [destruct (Z.ltb_spec count 3); leaf |].
    destruct (Z.ltb_spec 0 i); [| lia].
    destruct (Z.ltb_spec count 3); [lia |].
    destruct (word_at_in_range words (i - 1)) as [prev Hpv]; [lia |].
    rewrite Hpv. destruct (CStr.streq prev "|"); leaf. }
  assert (Hpipe : redir_pipe count words i wd c e = Some (c, e)).
  { unfold redir_pipe. apply streq_false in Npipe. now rewrite Npipe. }
  rewrite Hpipe.
  do 3 eexists; split; [reflexivity |]. split; [lia |].
  intros _. split; [reflexivity |]. unfold count_step.
  apply streq_false in Nlt, Ngt, Npipe. now rewrite Nlt, Ngt, Npipe.
Qed.

Lemma skipn_word_at (i : Z) (wd : string) :
  word_at words i = Some wd ->
  skipn (Z.to_nat i) words = wd :: skipn (Z.to_nat (i + 1)) words.
Proof.
  intros Hw. pose proof (word_at_range _ _ _ Hw) as Hr.
  unfold word_at in Hw. destruct (Z.ltb_spec i 0); [lia |].
  replace (Z.to_nat (i + 1)) with (S (Z.to_nat i)) by lia.
  revert Hw. generalize (Z.to_nat i) as n. clear.
  induction words as [|a l IH]; intros [|n]; cbn; try discriminate.
  - now intros [= ->].
  - apply IH.
Qed.

(** When the loop ends without an error, its counters are those of the
    tokens it went over. *)
Lemma redir_loop_counts (fuel : nat) : forall i c e,
  0 <= i -> i + Z.of_nat fuel = count ->
  exists c' e',
    redir_loop fuel count words i c e = Some (c', e') /\
    err_sum e <= err_sum e' /\
    (err_sum e' = err_sum e ->
     c' = count_steps (skipn (Z.to_nat i) words) c).
Proof.
  induction fuel as [|fuel IH]; intros i c e Hi Hfuel.
  - exists c, e. cbn [redir_loop]. split; [reflexivity |].
    split; [lia |]. intros _.
    rewrite skipn_all2; [reflexivity | unfold count_of in Hfuel; lia].
  - cbn [redir_loop].
    destruct (Z.ltb_spec i count) as [Hlt | Hge]; [| lia].
    destruct (word_at_in_range words i) as [wd Hw]; [lia |].
    destruct (redir_body_counts i wd c e Hw)
      as (c1 & e1 & brk & Hbody & Hle & Hsame).
    rewrite Hbody.
    destruct brk.
    + exists c1, e1. split; [reflexivity |]. split; [exact Hle |].
      intros H. apply Hsame in H. destruct H; discriminate.
    + destruct (IH (i + 1) c1 e1) as (c2 & e2 & Hloop & Hle2 & Hsame2);
        [lia | lia |].
      exists c2, e2. split; [exact Hloop |]. split; [lia |].
      intros H.
      assert (H1 : err_sum e1 = err_sum e) by lia.
      assert (H2 : err_sum e2 = err_sum e1) by lia.
      destruct (Hsame H1) as [_ ->]. rewrite (Hsame2 H2).
      now rewrite (skipn_word_at i wd Hw).
Qed.

End Counters.

Lemma count_steps_fields (words : list string) : forall c,
  c_input (count_steps words c) = c_input c + occurrences "<" words /\
  c_output (count_steps words c) = c_output c + occurrences ">" words /\
  c_pipes (count_steps words c) = c_pipes c + occurrences "|" words.
Proof.
  unfold occurrences.
  induction words as [|wd words IH]; intros c; cbn [count_steps count_occ].
  - repeat split; lia.
  - destruct (IH (count_step wd c)) as (H1 & H2 & H3).
    rewrite H1, H2, H3. unfold count_step, CStr.streq.
    destruct (String.eqb_spec wd "<") as [-> | N1]; [cbn; repeat split; lia |].
    destruct (String.eqb_spec wd ">") as [-> | N2]; [cbn; repeat split; lia |].
    destruct (String.eqb_spec wd "|") as [-> | N3]; [cbn; repeat split; lia |].
    destruct (string_dec wd "<"); [congruence |].
    destruct (string_dec wd ">"); [congruence |].
    destruct (string_dec wd "|"); [congruence |].
    repeat split; lia.
Qed.

Lemma accepted_counters (words : list string) (rc : counters) :
  validate words = ([], Done (0, rc)) ->
  rc = count_steps words zero_counters.
Proof.
  unfold validate, redirection_check_arg.
  destruct (redir_loop_counts words (Z.to_nat (count_of words)) 0
              zero_counters no_errors)
    as (c & e & Hloop & Hle & Hsame); [lia | unfold count_of; lia |].
  destruct (redir_loop_all words) as (c' & e' & Hloop' & Hnn & _).
  rewrite Hloop in Hloop'. injection Hloop' as <- <-.
  rewrite Hloop.
  destruct (Z.eqb_spec (input_err e) 0) as [Ei |]; [| discriminate].
  destruct (Z.eqb_spec (output_err e) 0) as [Eo |]; [| discriminate].
  destruct (Z.eqb_spec (pipe_err e) 0) as [Ep |]; [| discriminate].
  cbn [negb]. intros [= <-]. apply Hsame.
  unfold err_sum. rewrite Ei, Eo, Ep. reflexivity.
Qed.

Lemma word_at_nth (words : list string) (n : nat) (wd : string) :
  nth_error words n = Some wd -> word_at words (Z.of_nat n) = Some wd.
Proof. intros H. now rewrite word_at_nat. Qed.

Lemma lt_ok_at_most_one (words : list string) :
  lt_ok words -> occurrences "<" words <= 1.
Proof.
  intros Hlt. unfold occurrences.
  destruct words as [|w0 rest]; [simpl; lia |].
  assert (Hrest : count_occ string_dec rest "<"%string = 0%nat).
  { apply count_occ_not_In. intros Hin.
    apply In_nth_error in Hin. destruct Hin as [n Hn].
    assert (Hw : word_at (w0 :: rest) (Z.of_nat (S n)) = Some "<"%string)
      by (apply word_at_nth; exact Hn).
    apply Hlt in Hw. unfold lt_rule in Hw. lia. }
  cbn [count_occ]. destruct (string_dec w0 "<"); lia.
Qed.

Lemma gt_ok_at_most_two (words : list string) :
  gt_ok words -> occurrences ">" words <= 2.
Proof.
  intros Hgt. unfold occurrences.
  set (len := List.length words).
  rewrite <- (firstn_skipn (len - 3) words), count_occ_app.
  assert (H1 : count_occ string_dec (firstn (len - 3) words) ">"%string
               = 0%nat).
  { apply count_occ_not_In. intros Hin.
    apply In_nth_error in Hin. destruct Hin as [n Hn].
    rewrite nth_error_firstn in Hn.
    destruct (Nat.ltb_spec n (len - 3)); [| discriminate].
    apply word_at_nth, Hgt in Hn. unfold gt_rule, count_of in Hn.
    fold len in Hn. lia. }
  rewrite H1.
  assert (Hlast : forall n, (len - 3 + n = len - 1)%nat -> (1 <= len)%nat ->
            nth_error (skipn (len - 3) words) n <> Some ">"%string).
  { intros n Hn Hpos Hnth. rewrite nth_error_skipn in Hnth.
    apply word_at_nth, Hgt in Hnth. unfold gt_rule, count_of in Hnth.
    fold len in Hnth. lia. }
  assert (Hl : List.length (skipn (len - 3) words) = (len - (len - 3))%nat)
    by apply length_skipn.
  destruct (skipn (len - 3) words) as [|a [|b [|c [|d l]]]];
    cbn [List.length] in Hl; cbn [count_occ].
  - lia.
  - assert (a <> ">"%string)
      by (intros ->; apply (Hlast 0%nat); [lia | lia | reflexivity]).
    destruct (string_dec a ">"); [congruence | lia].
  - assert (b <> ">"%string)
      by (intros ->; apply (Hlast 1%nat); [lia | lia | reflexivity]).
    destruct (string_dec a ">"), (string_dec b ">"); try congruence; lia.
  - assert (c <> ">"%string)
      by (intros ->; apply (Hlast 2%nat); [lia | lia | reflexivity]).
    destruct (string_dec a ">"), (string_dec b ">"), (string_dec c ">");
      try congruence; lia.
  - lia.
Qed.

(** X7.  When [redirection_check_arg] accepts a line, the counters it
    hands back count the tokens: [input] is the number of ['<'] (0 or 1),
    [output] the number of ['>'] (0, 1 or 2) and [pipe_count] the number
    of ['|']. *)
Theorem accepted_counters_count_tokens (words : list string) (rc : counters) :
  validate words = ([], Done (0, rc)) ->
  c_input rc = occurrences "<" words /\
  c_output rc = occurrences ">" words /\
  c_pipes rc = occurrences "|" words /\
  0 <= c_input rc <= 1 /\ 0 <= c_output rc <= 2.
Proof.
  intros Hv. pose proof (accepted_counters words rc Hv) as ->.
  destruct (count_steps_fields words zero_counters) as (H1 & H2 & H3).
  cbn [zero_counters c_input c_output c_pipes] in *.
  rewrite H1, H2, H3, !Z.add_0_l.
  do 3 (split; [reflexivity |]).
  destruct (validate_cases words)
    as [(L & G & _) | [(_ & c & H) | [(_ & _ & c & H) | (_ & _ & _ & c & H)]]];
    try (rewrite H in Hv; discriminate).
  pose proof (lt_ok_at_most_one words L).
  pose proof (gt_ok_at_most_two words G).
  unfold occurrences in *. lia.
Qed.

Lemma accepted_counters_count_tokens_witness :
  validate ["<"; "in"; "sort"; "|"; "uniq"; ">"; ">"; "out"]
    = ([], Done (0, {| c_input := 1; c_output := 2; c_pipes := 1 |})) /\
  occurrences "<" ["<"; "in"; "sort"; "|"; "uniq"; ">"; ">"; "out"] = 1 /\
  occurrences ">" ["<"; "in"; "sort"; "|"; "uniq"; ">"; ">"; "out"] = 2 /\
  occurrences "|" ["<"; "in"; "sort"; "|"; "uniq"; ">"; ">"; "out"] = 1.
Proof.
  split; [reflexivity |].
  destruct (accepted_counters_count_tokens
              ["<"; "in"; "sort"; "|"; "uniq"; ">"; ">"; "out"]
              {| c_input := 1; c_output := 2; c_pipes := 1 |} eq_refl)
    as (H1 & H2 & H3 & _).
  split; [rewrite <- H1; reflexivity |].
  split; [rewrite <- H2; reflexivity | rewrite <- H3; reflexivity].
Defined.

(** A line without redirection or pipe tokens is accepted with all
    counters at zero. *)
Lemma validate_plain (words : list string) :
  no_redirection words ->
  validate words = ([], Done (0, zero_counters)).
Proof.
  intros (N1 & N2 & N3).
  assert (Hno : forall tok i, ~ In tok words -> word_at words i <> Some tok).
  { intros tok i Hn Hw. apply Hn. unfold word_at in Hw.
    destruct (i <? 0); [discriminate |]. eapply nth_error_In; eauto. }
  destruct (validate_cases words)
    as [(_ & _ & _ & c & H) | [(L & _) | [(_ & G & _) | (_ & _ & P & _)]]].
  - rewrite H. pose proof (accepted_counters words c H) as Hc.
    destruct (count_steps_fields words zero_counters) as (H1 & H2 & H3).
    rewrite <- Hc in H1, H2, H3. unfold occurrences in *.
    apply count_occ_not_In with (eq_dec := string_dec) in N1, N2, N3.
    rewrite N1 in H1. rewrite N2 in H2. rewrite N3 in H3.
    destruct c as [a b d]. cbn in H1, H2, H3. subst. reflexivity.
  - exfalso. apply L. intros i Hw. exfalso. now apply (Hno _ i N1).
  - exfalso. apply G. intros i Hw. exfalso. now apply (Hno _ i N2).
  - exfalso. apply P. intros i Hw. exfalso. now apply (Hno _ i N3).
Qed.

(** ** Lines starting with ['!'] *)

Lemma mbind_lift_val {A B} (t : list event) (a : A) (k : A -> M B)
  (h : hist) :
  mbind (lift (t, Done a)) k h
  = (fst (k a h), (t ++ fst (snd (k a h)), snd (snd (k a h)))).
Proof.
  unfold mbind, lift. destruct (k a h) as [h2 [t' r]]. reflexivity.
Qed.

Lemma mbind_value {A B} (m : M A) (k : A -> M B) (h h1 : hist)
  (t : list event) (a : A) :
  m h = (h1, (t, Done a)) ->
  mbind m k h
  = (fst (k a h1), (t ++ fst (snd (k a h1)), snd (snd (k a h1)))).
Proof.
  intros E. unfold mbind. rewrite E.
  destruct (k a h1) as [h2 [t' r]]. reflexivity.
Qed.

Lemma mbind_halted {A B} (m : M A) (k : A -> M B) (h h1 : hist)
  (t : list event) (x : halt) :
  m h = (h1, (t, Halt x)) -> mbind m k h = (h1, (t, Halt x)).
Proof. intros E. unfold mbind. now rewrite E. Qed.

Lemma bang_reference_cases (words : list string) (n : Z) :
  bang_reference words = Some n ->
  (words = ["!"] /\ n = -1) \/
  (exists arg, words = ["!"; arg] /\
               CStr.all_chars isdigit arg = true /\ n = atoi arg).
Proof.
  destruct words as [|cmd [|arg [|x rest]]]; cbn [bang_reference];
    try discriminate.
  - destruct (CStr.streq cmd "!") eqn:E; [| discriminate].
    apply streq_true in E. intros [= <-]. left. now subst.
  - destruct (CStr.streq cmd "!") eqn:E; [| discriminate].
    destruct (CStr.all_chars isdigit arg) eqn:D; [| discriminate].
    apply streq_true in E. intros [= <-]. right. exists arg. now subst.
Qed.

Lemma digits_not_token (arg : string) (c : ascii) :
  CStr.all_chars isdigit arg = true ->
  CStr.mem c SPECIAL_CHARS = true ->
  arg <> String c EmptyString.
Proof.
  intros Hd Hc. apply streq_false. now apply digits_not_special.
Qed.

(** A well-formed [!] line passes validation, and its argument check
    yields the reference. *)
Lemma bang_line_checks (words : list string) (n : Z) :
  bang_reference words = Some n ->
  validate words = ([], Done (0, zero_counters)) /\
  exclamation_check_arg (-1) (count_of words) words = ([], Done (0, n)).
Proof.
  intros H. destruct (bang_reference_cases words n H)
    as [[-> ->] | (arg & -> & Hd & ->)].
  - split; reflexivity.
  - split.
    + apply validate_plain. unfold no_redirection.
      pose proof (digits_not_token arg "<" Hd eq_refl).
      pose proof (digits_not_token arg ">" Hd eq_refl).
      pose proof (digits_not_token arg "|" Hd eq_refl).
      repeat split; intros [E | [E | []]]; try discriminate; congruence.
    + unfold exclamation_check_arg, numeric_arg_check.
      change (count_of ["!"; arg]) with 2.
      change (2 <? 2) with false. change (2 =? 2) with true. cbv iota.
      change (word_at ["!"; arg] 1) with (Some arg). cbv iota.
      now rewrite Hd.
Qed.

(** What the ['!'] block yields once the recall has succeeded: the
    echo is what [printf] reads of the recalled row, the words are the
    tokens of what [tokenize] reads of it. *)
Lemma bang_block_value (w : World) (words : list string) (n : Z)
  (row : string) (h : hist) :
  bang_reference words = Some n ->
  load_command w h n = ([], Done (Some row)) ->
  let line := w_stale w TokenizeRecalled row in
  bang_block w "!" (count_of words) zero_counters words h
  = (h, (Stdout (w_stale w EchoRecalled row)
           :: fst (validate (tokenize_line line)),
         match snd (validate (tokenize_line line)) with
         | Done (code, rc) =>
             Done (if negb (code =? 0) then None
                   else Some (tokenize_line line,
                              word_at (tokenize_line line) 0,
                              count_of (tokenize_line line), rc))
         | Halt x => Halt x
         end)).
Proof.
  intros Href Hload line.
  destruct (bang_line_checks words n Href) as [_ Hchk].
  unfold bang_block. change (redirected zero_counters) with false. cbv iota.
  rewrite Hchk, mbind_lift_done. cbn [Z.eqb negb].
  rewrite mbind_get, Hload, mbind_lift_done. cbv zeta. fold line.
  fold (count_of (tokenize_line line)). fold (validate (tokenize_line line)).
  destruct (validate (tokenize_line line)) as [t [[code rc] | x]];
    [| reflexivity].
  cbn [fst snd]. unfold mbind, lift, emit. cbn.
  destruct (negb (code =? 0)); cbn; rewrite ?app_nil_r; reflexivity.
Qed.

(** X8.  A line [!] or [! n] whose recall succeeds prints what [printf]
    reads of the recalled row and then does what [execute_command] does
    for the tokens of what [tokenize] reads of it: the same output after
    the echo, the same history entry, the same outcome.  Both reads go
    through the pointer [load_command] returned, into an array that is
    dead by then; in a run where its bytes are still intact, the line
    echoed and run is the recalled row.  (What is read back is not
    looked at for a further ['!'].) *)
Theorem bang_runs_the_recalled_line
  (w : World) (words path environment : list string) (h : hist)
  (n : Z) (row first : string) (rest : list string) :
  bang_reference words = Some n ->
  load_command w h n = ([], Done (Some row)) ->
  tokenize_line (w_stale w TokenizeRecalled row) = first :: rest ->
  first <> "!"%string ->
  execute_command w words path environment h
  = after_echo (w_stale w EchoRecalled row)
      (execute_command w (tokenize_line (w_stale w TokenizeRecalled row))
         path environment h).
Proof.
  intros Href Hload Htok Hfirst.
  destruct (bang_line_checks words n Href) as [Hv _].
  pose proof (bang_block_value w words n row h Href Hload) as Hbb.
  cbv zeta in Hbb.
  assert (Hw0 : word_at words 0 = Some "!"%string).
  { destruct (bang_reference_cases words n Href)
      as [[-> _] | (arg & -> & _)]; reflexivity. }
  unfold after_echo.
  unfold execute_command at 1. rewrite Hw0.
  fold (count_of words). fold (validate words). rewrite Hv.
  rewrite mbind_lift_done. cbn [Z.eqb negb].
  change (CStr.streq "!" "!") with true. cbv iota.
  rewrite Htok in *.
  unfold execute_command.
  change (word_at (first :: rest) 0) with (Some first) in *. cbv iota.
  fold (count_of (first :: rest)) in *.
  fold (validate (first :: rest)) in *.
  apply streq_false in Hfirst. rewrite Hfirst.
  destruct (validate (first :: rest)) as [t [[code rc] | x]];
    cbn [fst snd] in Hbb.
  - rewrite (mbind_value _ _ _ _ _ _ Hbb), mbind_lift_val.
    destruct (negb (code =? 0)); cbn [mret ret fst snd].
    + rewrite ?app_nil_r. reflexivity.
    + rewrite mbind_ret. cbn [app]. rewrite ?app_nil_r. reflexivity.
  - rewrite (mbind_halted _ _ _ _ _ _ Hbb). reflexivity.
Qed.

(** With the dead array intact the recalled line is echoed and run;
    with the array overwritten, what is echoed and run is what is found
    there. *)
Lemma bang_runs_the_recalled_line_witness :
  execute_command Sample.plain ["!"; "0"] Sample.path []
    (Some ("ls -l" ++ NL ++ "pwd" ++ NL)%string)
  = (Some ("ls -l" ++ NL ++ "pwd" ++ NL ++ "ls -l" ++ NL)%string,
     ([Stdout ("ls -l" ++ NL)%string;
       PosixSpawn "/bin/ls" [] ["ls"; "-l"] [];
       Stdout (MSG_STATUS "/bin/ls" 0)], Done tt)) /\
  execute_command Cases.with_clobbered_recall ["!"; "0"] Sample.path []
    (Some ("ls -l" ++ NL ++ "pwd" ++ NL)%string)
  = (Some ("ls -l" ++ NL ++ "pwd" ++ NL ++ "x" ++ NL)%string,
     ([Stdout EmptyString; Stderr (MSG_NOT_FOUND "x")], Done tt)).
Proof.
  split.
  - rewrite (bang_runs_the_recalled_line Sample.plain ["!"; "0"]
               Sample.path []
               (Some ("ls -l" ++ NL ++ "pwd" ++ NL)%string) 0
               ("ls -l" ++ NL)%string "ls" ["-l"]);
      [reflexivity | reflexivity | reflexivity | reflexivity | discriminate].
  - rewrite (bang_runs_the_recalled_line Cases.with_clobbered_recall
               ["!"; "0"] Sample.path []
               (Some ("ls -l" ++ NL ++ "pwd" ++ NL)%string) 0
               ("ls -l" ++ NL)%string "x" []);
      [reflexivity | reflexivity | reflexivity | reflexivity | discriminate].
Defined.

(** ** External commands without redirection *)



(** ** The path search *)

Lemma search_path_nil (w : World) (program : string) :
  search_path w [] program = ret None.
Proof. reflexivity. Qed.

Lemma search_path_cons (w : World) (dir : string) (path : list string)
  (program : string) :
  search_path w (dir :: path) program
  = if Nat.leb 1024 (String.length (dir ++ "/" ++ program))
    then stop Undefined
    else if is_executable w (dir ++ "/" ++ program)
         then ret (Some (dir ++ "/" ++ program)%string)
         else search_path w path program.
Proof.
  unfold search_path. cbn [pathname_overflow find_in_path].
  unfold MAX_LINE_CHARS.
  destruct (Nat.leb 1024 (String.length (dir ++ "/" ++ program)));
    [reflexivity |].
  destruct (is_executable w (dir ++ "/" ++ program)); reflexivity.
Qed.

Lemma search_path_found (w : World) (program : string) :
  forall path pathname,
    search_path w path program = ret (Some pathname) <->
    exists before dir after,
      path = before ++ dir :: after /\
      pathname = (dir ++ "/" ++ program)%string /\
      (String.length pathname < 1024)%nat /\
      is_executable w pathname = true /\
      Forall (passed_over w program) before.
Proof.
  induction path as [|d path IH]; intros pathname.
  - rewrite search_path_nil. split; [discriminate |].
    intros (before & dir & after & H & _). destruct before; discriminate.
  - rewrite search_path_cons.
    destruct (Nat.leb_spec 1024 (String.length (d ++ "/" ++ program)))
      as [Hlong | Hshort].
    + split; [discriminate |].
      intros (before & dir & after & Hp & -> & Hlen & Hx & Hb).
      destruct before as [|b before].
      * injection Hp as <- <-. lia.
      * injection Hp as <- ->. inversion Hb as [|? ? [Hfit _] _]; subst.
        lia.
    + destruct (is_executable w (d ++ "/" ++ program)) eqn:E.
      * split.
        -- intros [= <-]. exists [], d, path. repeat split; auto.
        -- intros (before & dir & after & Hp & -> & Hlen & Hx & Hb).
           destruct before as [|b before].
           ++ injection Hp as <- <-. reflexivity.
           ++ injection Hp as <- ->.
              inversion Hb as [|? ? [_ Hno] _]; subst. congruence.
      * rewrite IH. split.
        -- intros (before & dir & after & -> & -> & Hlen & Hx & Hb).
           exists (d :: before), dir, after. repeat split; auto.
           constructor; [split; assumption | assumption].
        -- intros (before & dir & after & Hp & -> & Hlen & Hx & Hb).
           destruct before as [|b before].
           ++ injection Hp as <- <-. congruence.
           ++ injection Hp as <- ->. inversion Hb; subst.
              exists before, dir, after. repeat split; auto.
Qed.

Lemma search_path_exhausted (w : World) (program : string) :
  forall path,
    search_path w path program = ret None <->
    Forall (passed_over w program) path.
Proof.
  induction path as [|d path IH].
  - rewrite search_path_nil. split; auto.
  - rewrite search_path_cons.
    destruct (Nat.leb_spec 1024 (String.length (d ++ "/" ++ program)))
      as [Hlong | Hshort].
    + split; [discriminate |].
      intros H. inversion H as [|? ? [Hfit _] _]; subst. lia.
    + destruct (is_executable w (d ++ "/" ++ program)) eqn:E.
      * split; [discriminate |].
        intros H. inversion H as [|? ? [_ Hno] _]; subst. congruence.
      * rewrite IH. split.
        -- intros H. constructor; [split; assumption | assumption].
        -- intros H. now inversion H.
Qed.

Lemma search_path_overrun (w : World) (program : string) :
  forall path,
    search_path w path program = stop Undefined <->
    exists before dir after,
      path = before ++ dir :: after /\
      (1024 <= String.length (dir ++ "/" ++ program))%nat /\
      Forall (passed_over w program) before.
Proof.
  induction path as [|d path IH].
  - rewrite search_path_nil. split; [discriminate |].
    intros (before & dir & after & H & _). destruct before; discriminate.
  - rewrite search_path_cons.
    destruct (Nat.leb_spec 1024 (String.length (d ++ "/" ++ program)))
      as [Hlong | Hshort].
    + split; [| reflexivity].
      intros _. exists [], d, path. repeat split; auto.
    + destruct (is_executable w (d ++ "/" ++ program)) eqn:E.
      * split; [discriminate |].
        intros (before & dir & after & Hp & Hlen & Hb).
        destruct before as [|b before].
        -- injection Hp as <- <-. lia.
        -- injection Hp as <- ->.
           inversion Hb as [|? ? [_ Hno] _]; subst. congruence.
      * rewrite IH. split.
        -- intros (before & dir & after & -> & Hlen & Hb).
           exists (d :: before), dir, after. repeat split; auto.
           constructor; [split; assumption | assumption].
        -- intros (before & dir & after & Hp & Hlen & Hb).
           destruct before as [|b before].
           ++ injection Hp as <- <-. lia.
           ++ injection Hp as <- ->. inversion Hb; subst.
              exists before, dir, after. repeat split; auto.
Qed.

(** X10.  The search of the path builds [dir/program] for one
    directory after the other in an array of 1024 bytes.  It stops at
    the first directory under which the program is an executable regular
    file, fails when every candidate fits and none is one, and writes
    past the end of the array at the first candidate of 1024 characters
    or more that it reaches. *)
Theorem search_path_takes_first_match
  (w : World) (path : list string) (program : string) :
  (forall pathname,
     search_path w path program = ret (Some pathname) <->
     exists before dir after,
       path = before ++ dir :: after /\
       pathname = (dir ++ "/" ++ program)%string /\
       (String.length pathname < 1024)%nat /\
       is_executable w pathname = true /\
       Forall (passed_over w program) before) /\
  (search_path w path program = ret None <->
   Forall (passed_over w program) path) /\
  (search_path w path program = stop Undefined <->
   exists before dir after,
     path = before ++ dir :: after /\
     (1024 <= String.length (dir ++ "/" ++ program))%nat /\
     Forall (passed_over w program) before).
Proof.
  split; [intros pathname; apply search_path_found |].
  split; [apply search_path_exhausted | apply search_path_overrun].
Qed.

(** A command name of 1020 characters searched under [/bin]: the
    candidate has 1025 characters and does not fit the array. *)
Example long_name_overruns_pathname :
  String.length ("/bin" ++ "/" ++ run_of "a" 1020) = 1025%nat /\
  search_path Sample.plain Sample.path (run_of "a" 1020) = stop Undefined /\
  execute_command Sample.plain [run_of "a" 1020] Sample.path [] None
  = (Some (run_of "a" 1020 ++ NL)%string, ([], Halt Undefined)) /\
  snd (execute_command Sample.plain ["ls"; "|"; run_of "a" 1020]
         Sample.path [] None)
  = ([], Halt Undefined).
Proof. repeat split; vm_compute; reflexivity. Qed.

(** ** Builtins with redirection *)

(** X11.  A line that passes validation, carries a redirection or pipe
    token and whose command is [pwd], [cd] or [history] is recorded and
    answered with the builtin message alone; a ['!'] line with such a
    token is answered with the same message and is not recorded.  In
    both cases nothing is spawned. *)
Theorem builtin_with_redirection_is_refused
  (w : World) (first : string) (rest path environment : list string)
  (rc : counters) (h : hist) :
  validate (first :: rest) = ([], Done (0, rc)) ->
  redirected rc = true ->
  w_home w <> None -> w_hist_open w = true ->
  (first = "!"%string ->
   execute_command w (first :: rest) path environment h
   = (h, ([Stderr (MSG_BUILTIN "!")], Done tt))) /\
  (forall program g,
     first <> "!"%string ->
     command_of (first :: rest) = Some program ->
     checked_builtin program = true ->
     snd (check_glob w (first :: rest)) = Done g ->
     execute_command w (first :: rest) path environment h
     = (Some (hist_text h ++ history_entry (first :: rest))%string,
        ([Stderr (MSG_BUILTIN program)], Done tt))).
Proof.
  intros Hv Hred Hhome Hopen. split.
  - intros ->. now apply bang_rejects_redirection with rc.
  - intros program g Hne Hcmd Hb Hg.
    now apply checked_builtin_rejects_redirection with rc g.
Qed.

Lemma builtin_with_redirection_is_refused_witness :
  execute_command Sample.plain ["<"; "f"; "cd"] Sample.path [] None
  = (Some ("< f cd" ++ NL)%string, ([Stderr (MSG_BUILTIN "cd")], Done tt)) /\
  execute_command Sample.plain ["!"; "|"; "wc"] Sample.path []
    (Some ("ls" ++ NL)%string)
  = (Some ("ls" ++ NL)%string, ([Stderr (MSG_BUILTIN "!")], Done tt)).
Proof.
  split.
  - refine (proj2 (builtin_with_redirection_is_refused Sample.plain "<"
                     ["f"; "cd"] Sample.path []
                     {| c_input := 1; c_output := 0; c_pipes := 0 |} None
                     eq_refl eq_refl _ eq_refl)
                  "cd"%string None _ eq_refl eq_refl eq_refl);
      discriminate.
  - refine (proj1 (builtin_with_redirection_is_refused Sample.plain "!"
                     ["|"; "wc"] Sample.path []
                     {| c_input := 0; c_output := 0; c_pipes := 1 |}
                     (Some ("ls" ++ NL)%string)
                     eq_refl eq_refl _ eq_refl) eq_refl).
    discriminate.
Defined.

(** ** Where a line can end the interpreter *)

(** X12.  [execute_command] calls [exit] or fails an assertion only for
    a line whose finalized command is [exit]: for every other line, each
    error path returns to the main loop. *)
Theorem only_an_exit_line_exits
  (w : World) (words path environment : list string) (h : hist) :
  (forall final, finalized w words h = Some final ->
                 command_of final <> Some "exit"%string) ->
  forall status,
    snd (snd (execute_command w words path environment h))
      <> Halt (Exit status) /\
    snd (snd (execute_command w words path environment h)) <> Halt Abort.
Proof.
  intros Hfin status.
  pose proof (only_exit_stops w words path environment h Hfin) as Hq.
  unfold quiet in Hq.
  destruct (snd (snd (execute_command w words path environment h)))
    as [u | [c | |]]; split; try discriminate; contradiction.
Qed.

Lemma only_an_exit_line_exits_witness :
  (snd (snd (execute_command Sample.plain ["ls"; "-l"] Sample.path []
               (Some ("pwd" ++ NL)%string)))
     <> Halt (Exit 1) /\
   snd (snd (execute_command Sample.plain ["ls"; "-l"] Sample.path []
               (Some ("pwd" ++ NL)%string)))
     <> Halt Abort) /\
  (snd (snd (execute_command Sample.plain ["!"; "0"] Sample.path []
               (Some ("nosuch -x" ++ NL)%string)))
     <> Halt (Exit 1) /\
   snd (snd (execute_command Sample.plain ["!"; "0"] Sample.path []
               (Some ("nosuch -x" ++ NL)%string)))
     <> Halt Abort).
Proof.
  split.
  - apply (only_an_exit_line_exits Sample.plain ["ls"; "-l"] Sample.path []
             (Some ("pwd" ++ NL)%string)).
    intros final Hf. vm_compute in Hf. injection Hf as <-. discriminate.
  - apply (only_an_exit_line_exits Sample.plain ["!"; "0"] Sample.path []
             (Some ("nosuch -x" ++ NL)%string)).
    intros final Hf. vm_compute in Hf. injection Hf as <-. discriminate.
Defined.

(** ** File redirection *)

Lemma bind_value {A B} (t : list event) (a : A) (k : A -> Act B) :
  bind (t, Done a) k = (t ++ fst (k a), snd (k a)).
Proof. unfold bind. destruct (k a). reflexivity. Qed.

(** [check_files] reports at most one file, and only when it fails. *)
Lemma check_files_cases (w : World) (max input output : Z)
  (words : list string) (t : list event) (ok : bool) :
  check_files w max input output words = (t, Done ok) ->
  (ok = true /\ t = []) \/
  (ok = false /\
   exists file,
     t = [Perror file] \/
     t = [Stderr (file ++ ": Permission denied" ++ NL)%string]).
Proof.
  unfold check_files.
  destruct (negb (input =? 0)).
  - destruct (word_at words 1) as [file |]; [| discriminate].
    destruct (w_stat w file) as [mode |].
    + destruct (Z.land mode S_IRUSR =? 0).
      * cbn. intros [= <- <-]. right. split; [reflexivity |]. eauto.
      * rewrite bind_ret. cbn [negb].
        destruct (negb (output =? 0)).
        -- destruct (word_at words (max - 1)) as [out |]; [| discriminate].
           destruct (w_stat w out) as [m2 |].
           ++ destruct (Z.land m2 S_IWUSR =? 0).
              ** cbn. intros [= <- <-]. right. split; [reflexivity |]. eauto.
              ** intros [= <- <-]. now left.
           ++ intros [= <- <-]. now left.
        -- intros [= <- <-]. now left.
    + cbn. intros [= <- <-]. right. split; [reflexivity |]. eauto.
  - rewrite bind_ret. cbn [negb].
    destruct (negb (output =? 0)).
    + destruct (word_at words (max - 1)) as [out |]; [| discriminate].
      destruct (w_stat w out) as [m2 |].
      * destruct (Z.land m2 S_IWUSR =? 0).
        -- cbn. intros [= <- <-]. right. split; [reflexivity |]. eauto.
        -- intros [= <- <-]. now left.
      * intros [= <- <-]. now left.
    + intros [= <- <-]. now left.
Qed.

Lemma failed_check_returns
  (w : World) (max input output pipe_count : Z) (program : string)
  (programs words environment : list string) (t : list event) :
  check_files w max input output words = (t, Done false) ->
  in_out_redirection w max program input output words environment
    = (t, Done tt) /\
  pipes w max programs input output pipe_count words environment
    = (t, Done tt).
Proof.
  intros H. split.
  - unfold in_out_redirection. rewrite H, bind_value. cbn.
    now rewrite app_nil_r.
  - unfold pipes. rewrite H, bind_value. cbn. now rewrite app_nil_r.
Qed.

(** X14.  The file check at the head of [in_out_redirection] and of
    [pipes].  With ['<'], an input file that [stat] does not find is
    reported with [perror] under its name, and one whose owner may not
    read it with [Permission denied] under its name.  Otherwise, with
    ['>'], an output file that exists and whose owner may not write it is
    reported with [Permission denied] under its name.  In each case the
    function returns after that one line: no pipe is made and nothing is
    spawned.  In every other case the check passes and prints nothing. *)
Theorem unusable_file_stops_the_command
  (w : World) (max input output pipe_count : Z) (program : string)
  (programs words environment : list string) :
  let in_out :=
    in_out_redirection w max program input output words environment in
  let piped :=
    pipes w max programs input output pipe_count words environment in
  let input_usable :=
    input = 0 \/
    exists file mode,
      word_at words 1 = Some file /\ w_stat w file = Some mode /\
      Z.land mode S_IRUSR <> 0 in
  let output_usable :=
    output = 0 \/
    exists file,
      word_at words (max - 1) = Some file /\
      (w_stat w file = None \/
       exists mode, w_stat w file = Some mode /\ Z.land mode S_IWUSR <> 0) in
  (forall file,
     input <> 0 -> word_at words 1 = Some file -> w_stat w file = None ->
     in_out = ([Perror file], Done tt) /\
     piped = ([Perror file], Done tt)) /\
  (forall file mode,
     input <> 0 -> word_at words 1 = Some file ->
     w_stat w file = Some mode -> Z.land mode S_IRUSR = 0 ->
     in_out = ([Stderr (file ++ ": Permission denied" ++ NL)%string], Done tt)
     /\
     piped = ([Stderr (file ++ ": Permission denied" ++ NL)%string], Done tt))
  /\
  (forall file mode,
     input_usable ->
     output <> 0 -> word_at words (max - 1) = Some file ->
     w_stat w file = Some mode -> Z.land mode S_IWUSR = 0 ->
     in_out = ([Stderr (file ++ ": Permission denied" ++ NL)%string], Done tt)
     /\
     piped = ([Stderr (file ++ ": Permission denied" ++ NL)%string], Done tt))
  /\
  (input_usable -> output_usable ->
   check_files w max input output words = ([], Done true)).
Proof.
  cbv zeta.
  assert (Hin : forall k : bool -> Act bool,
             (input = 0 \/
              exists file mode,
                word_at words 1 = Some file /\ w_stat w file = Some mode /\
                Z.land mode S_IRUSR <> 0) ->
             bind (if negb (input =? 0) then
                     match word_at words 1 with
                     | None => stop Undefined
                     | Some file =>
                         match w_stat w file with
                         | None => bind (emit (Perror file))
                                     (fun _ => ret false)
                         | Some mode =>
                             if Z.land mode S_IRUSR =? 0 then
                               bind (emit (Stderr (file ++
                                             ": Permission denied" ++
                                             NL)%string))
                                 (fun _ => ret false)
                             else ret true
                         end
                     end
                   else ret true) k
             = k true).
  { intros k [-> | (file & mode & Hw & Hs & Hm)]; [apply bind_ret |].
    destruct (negb (input =? 0)); [| apply bind_ret].
    rewrite Hw, Hs. apply Z.eqb_neq in Hm. rewrite Hm. apply bind_ret. }
  split; [| split; [| split]].
  - intros file Hi Hw Hs. apply failed_check_returns.
    unfold check_files. apply Z.eqb_neq in Hi. rewrite Hi. cbn [negb].
    rewrite Hw, Hs. reflexivity.
  - intros file mode Hi Hw Hs Hm. apply failed_check_returns.
    unfold check_files. apply Z.eqb_neq in Hi. rewrite Hi. cbn [negb].
    rewrite Hw, Hs. apply Z.eqb_eq in Hm. rewrite Hm. reflexivity.
  - intros file mode Hinput Ho Hw Hs Hm. apply failed_check_returns.
    unfold check_files. rewrite (Hin _ Hinput). cbn [negb].
    apply Z.eqb_neq in Ho. rewrite Ho. cbn [negb].
    rewrite Hw, Hs. apply Z.eqb_eq in Hm. rewrite Hm. reflexivity.
  - intros Hinput Houtput. unfold check_files. rewrite (Hin _ Hinput).
    cbn [negb].
    destruct Houtput as [-> | (file & Hw & Hs)]; [reflexivity |].
    destruct (negb (output =? 0)); [| reflexivity].
    rewrite Hw. destruct Hs as [-> | (mode & -> & Hm)]; [reflexivity |].
    apply Z.eqb_neq in Hm. now rewrite Hm.
Qed.

Lemma unusable_file_stops_the_command_witness :
  (in_out_redirection Sample.plain 3 "/bin/cat" 1 0 ["<"; "gone"; "cat"] []
     = ([Perror "gone"], Done tt) /\
   pipes Sample.plain 5 ["/bin/cat"; "/bin/wc"] 1 0 1
     ["<"; "gone"; "cat"; "|"; "wc"] []
     = ([Perror "gone"], Done tt)) /\
  (in_out_redirection
     (Sample.world [("locked"%string, 32768)] []) 4 "/bin/ls" 0 1
     ["ls"; "-l"; ">"; "locked"] []
     = ([Stderr ("locked: Permission denied" ++ NL)%string], Done tt) /\
   pipes (Sample.world [("locked"%string, 32768)] []) 5
     ["/bin/ls"; "/bin/wc"] 0 1 1 ["ls"; "|"; "wc"; ">"; "locked"] []
     = ([Stderr ("locked: Permission denied" ++ NL)%string], Done tt)) /\
  check_files Cases.with_out 4 0 1 ["ls"; "-l"; ">"; "out"]
  = ([], Done true).
Proof.
  split; [| split].
  - split.
    + apply (proj1 (unusable_file_stops_the_command Sample.plain 3 1 0 0
                      "/bin/cat" [] ["<"; "gone"; "cat"] [])
               "gone"%string); [discriminate | reflexivity | reflexivity].
    + apply (proj1 (unusable_file_stops_the_command Sample.plain 5 1 0 1
                      "/bin/cat" ["/bin/cat"; "/bin/wc"]
                      ["<"; "gone"; "cat"; "|"; "wc"] [])
               "gone"%string); [discriminate | reflexivity | reflexivity].
  - split.
    + apply (proj1 (proj2 (proj2
               (unusable_file_stops_the_command
                  (Sample.world [("locked"%string, 32768)] []) 4 0 1 0
                  "/bin/ls" [] ["ls"; "-l"; ">"; "locked"] [])))
               "locked"%string 32768);
        [now left | discriminate | reflexivity | reflexivity | reflexivity].
    + apply (proj1 (proj2 (proj2
               (unusable_file_stops_the_command
                  (Sample.world [("locked"%string, 32768)] []) 5 0 1 1
                  "/bin/ls" ["/bin/ls"; "/bin/wc"]
                  ["ls"; "|"; "wc"; ">"; "locked"] [])))
               "locked"%string 32768);
        [now left | discriminate | reflexivity | reflexivity | reflexivity].
  - apply (proj2 (proj2 (proj2
             (unusable_file_stops_the_command Cases.with_out 4 0 1 0
                "/bin/ls" [] ["ls"; "-l"; ">"; "out"] [])))).
    + now left.
    + right. exists "out"%string. split; [reflexivity |].
      right. exists Sample.file_mode. split; [reflexivity | discriminate].
Defined.


Lemma word_at_last (pre : list string) (x : string) :
  word_at (pre ++ [x]) (count_of (pre ++ [x]) - 1) = Some x.
Proof.
  unfold count_of. rewrite length_app. cbn [List.length].
  replace (Z.of_nat (List.length pre + 1) - 1)
    with (Z.of_nat (List.length pre)) by lia.
  apply word_at_app.
Qed.

Lemma output_actions_target (pre : list string) (o : out_target) :
  output_actions (count_of (pre ++ output_words o)) (output_count o)
    (pre ++ output_words o)
  = ret (output_open o).
Proof.
  destruct o as [| file | file]; cbn [output_words output_count output_open].
  - reflexivity.
  - unfold output_actions. change (1 =? 1) with true. cbv iota.
    change (pre ++ [">"%string; file]) with (pre ++ [">"%string] ++ [file]).
    rewrite List.app_assoc, word_at_last. reflexivity.
  - unfold output_actions. change (2 =? 1) with false.
    change (2 =? 2) with true. cbv iota.
    change (pre ++ [">"%string; ">"%string; file])
      with (pre ++ [">"%string; ">"%string] ++ [file]).
    rewrite List.app_assoc, word_at_last. reflexivity.
Qed.

Lemma input_actions_source (infile : option string) (rest : list string) :
  input_actions (input_count infile) (input_words infile ++ rest)
  = ret (input_open infile).
Proof. destruct infile; reflexivity. Qed.




(** ** Rows read by [fgets] *)

Lemma fgets_take_shape (n : nat) : forall s row rest,
  fgets_take n s = (row, rest) ->
  (String.length row <= n)%nat /\
  (exists body,
     CStr.mem LF body = false /\ (row = (body ++ NL)%string \/ row = body)) /\
  (rest <> EmptyString -> ends_with_lf row = true \/ String.length row = n).
Proof.
  induction n as [|n IH]; intros s row rest.
  - destruct s; intros [= <- <-]; (split; [simpl; lia |]);
      (split; [exists EmptyString; split; [reflexivity | now right] |]);
      intros _; now right.
  - destruct s as [|c s]; cbn [fgets_take].
    + intros [= <- <-]. split; [simpl; lia |].
      split; [exists EmptyString; split; [reflexivity | now right] |].
      intros N. now contradiction N.
    + destruct (Ascii.eqb c LF) eqn:Ec.
      * intros [= <- <-]. apply Ascii.eqb_eq in Ec. subst c.
        split; [simpl; lia |].
        split; [exists EmptyString; split; [reflexivity | now left] |].
        intros _. now left.
      * destruct (fgets_take n s) as [r t] eqn:E. intros [= <- <-].
        destruct (IH _ _ _ E) as (Hlen & (body & Hb & Hrow) & Hfull).
        split; [simpl; lia |]. split.
        -- exists (String c body). split.
           ++ cbn [CStr.mem]. rewrite Ascii.eqb_sym, Ec. exact Hb.
           ++ destruct Hrow as [-> | ->]; [now left | now right].
        -- intros N. destruct (Hfull N) as [Hlf | Hn].
           ++ left. destruct r as [|d r]; [discriminate | exact Hlf].
           ++ right. simpl. now rewrite Hn.
Qed.

Lemma of_buffer_spec (row : string) : c_string_of (CStr.of_buffer row) row.
Proof.
  unfold c_string_of. induction row as [|c row [IHm IHr]].
  - split; [reflexivity | now left].
  - cbn [CStr.of_buffer].
    destruct (Ascii.eqb_spec c CStr.NUL) as [-> | Hc].
    + split; [reflexivity |]. right. exists row. reflexivity.
    + split.
      * cbn [CStr.mem]. apply Ascii.eqb_neq in Hc.
        rewrite Ascii.eqb_sym, Hc. exact IHm.
      * destruct IHr as [E | (rest & E)].
        -- left. now rewrite <- E.
        -- right. exists rest. cbn [String.append]. now rewrite <- E.
Qed.

Lemma of_buffer_id (row : string) :
  CStr.mem CStr.NUL row = false -> CStr.of_buffer row = row.
Proof.
  induction row as [|c row IH]; [reflexivity |].
  cbn [CStr.mem CStr.of_buffer]. rewrite (Ascii.eqb_sym c).
  destruct (Ascii.eqb CStr.NUL c); [discriminate |].
  intros H. now rewrite IH.
Qed.

Lemma rows_without_nul (rows : list string) :
  CStr.mem CStr.NUL (concat_tokens rows) = false ->
  map CStr.of_buffer rows = rows.
Proof.
  induction rows as [|row rows IH]; [reflexivity |].
  cbn [concat_tokens map]. rewrite mem_app. intros H.
  apply orb_false_elim in H. destruct H as [Hr Hrest].
  now rewrite (of_buffer_id row Hr), IH.
Qed.

Lemma rows_partition (s : string) :
  concat_tokens (file_rows s) = s /\
  Forall row_shape (file_rows s) /\
  (forall pre row post,
     file_rows s = pre ++ row :: post -> post <> [] ->
     ends_with_lf row = true \/ String.length row = 1023%nat).
Proof.
  remember (String.length s) as m eqn:Hm. revert s Hm.
  induction m as [m IH] using lt_wf_ind. intros s Hm.
  destruct s as [|c s].
  - split; [reflexivity |]. split; [constructor |].
    intros [|p pre] row post E; discriminate E.
  - rewrite Rows.file_rows_cons.
    destruct (Rows.fgets_take_progress 1022 c s) as (row & rest & E & Hr).
    rewrite E. cbn [fst snd].
    pose proof (Rows.fgets_take_split _ _ _ _ E) as Hs.
    destruct (fgets_take_shape _ _ _ _ E) as (Hlen & Hbody & Hfull).
    destruct (IH (String.length rest)
                 ltac:(subst m; simpl; lia) rest eq_refl)
      as (Hc & Hf & Hmid).
    split; [cbn [concat_tokens]; now rewrite Hc |].
    split.
    + constructor; [| exact Hf]. split; [| exact Hbody].
      split; [| exact Hlen].
      clear - Hs Hr. destruct row; [| simpl; lia].
      cbn [String.append] in Hs. subst rest. simpl in Hr. lia.
    + intros [|p pre] row' post Erows Hpost.
      * cbn [app] in Erows. injection Erows as <- Epost.
        apply Hfull. intros ->.
        apply Hpost. now rewrite <- Epost.
      * cbn [app] in Erows. injection Erows as _ Erows.
        now apply (Hmid pre row' post).
Qed.

(** X16.  The rows [fgets] stores for a text (the standard input of
    [main], the history file) cut it into pieces without losing or
    adding a byte: every row has between 1 and 1023 bytes and holds a
    newline at its end or nowhere, and every row but the last ends with a
    newline or fills the buffer, so that a line of more than 1023
    characters arrives as several rows.  What the program reads of a
    row is the part before its first NUL byte; in a text without NUL
    bytes that is the row, and the rows the program reads are the text
    itself. *)
Theorem rows_partition_the_text (s : string) :
  concat_tokens (file_rows s) = s /\
  Forall row_shape (file_rows s) /\
  (forall pre row post,
     file_rows s = pre ++ row :: post -> post <> [] ->
     ends_with_lf row = true \/ String.length row = 1023%nat) /\
  Forall2 c_string_of (seen_rows s) (file_rows s) /\
  (CStr.mem CStr.NUL s = false ->
   seen_rows s = file_rows s /\ concat_tokens (seen_rows s) = s).
Proof.
  destruct (rows_partition s) as (Hc & Hshape & Hmid).
  split; [exact Hc |]. split; [exact Hshape |]. split; [exact Hmid |].
  split.
  - unfold seen_rows. clear. induction (file_rows s) as [|row rows IH];
      cbn [map]; constructor; [apply of_buffer_spec | exact IH].
  - intros Hnul. unfold seen_rows.
    rewrite rows_without_nul by now rewrite Hc.
    split; [reflexivity | exact Hc].
Qed.

(** ** Glob expansion *)







(** X18.  When the command word itself holds a metacharacter, the
    first entry of [word_num] is 0 and the loop that calls [glob], which
    stops at the first entry equal to zero, is not entered: the line is
    then built from a [glob_t] that no call has filled. *)
Theorem glob_in_command_word_skips_glob
  (w : World) (w0 : string) (rest : list string) :
  CStr.any_char is_glob_char w0 = true ->
  until_zero (flagged_from 0 (w0 :: rest)) = [] /\
  check_glob w (w0 :: rest) = stop Undefined.
Proof.
  intros Hw0. cbn [flagged_from]. rewrite Hw0. split; [reflexivity |].
  unfold check_glob. cbn [flagged_from]. rewrite Hw0.
  cbn [List.length].
  destruct (Z.eqb_spec
              (Z.of_nat (S (List.length (flagged_from (0 + 1) rest)))) 0);
    [lia |].
  destruct (WORD_NUM_SIZE <=?
            Z.of_nat (S (List.length (flagged_from (0 + 1) rest))));
    reflexivity.
Qed.

Lemma glob_in_command_word_skips_glob_witness :
  check_glob Cases.with_sources ["~/bin/tool"; "*.c"] = stop Undefined.
Proof.
  apply (glob_in_command_word_skips_glob Cases.with_sources "~/bin/tool"
           ["*.c"]).
  reflexivity.
Defined.

(** ** Pipelines *)

Lemma join_stages_cons (stage : list string) (rest : list (list string)) :
  rest <> [] ->
  join_stages (stage :: rest) = stage ++ "|"%string :: join_stages rest.
Proof. destruct rest; [congruence | reflexivity]. Qed.

Lemma skip_stages_zero (rest : list string) (i : Z) :
  skip_stages rest i 0 = Some i.
Proof. destruct rest; reflexivity. Qed.

Lemma skip_stages_over (stage : list string) : forall rest i n,
  ~ In "|"%string stage ->
  skip_stages (stage ++ "|"%string :: rest) i (S n)
  = skip_stages rest (i + Z.of_nat (List.length stage) + 1) n.
Proof.
  induction stage as [|a stage IH]; intros rest i n Hn.
  - cbn [app skip_stages List.length].
    change (CStr.streq "|" "|") with true. cbv iota. f_equal. lia.
  - cbn [app skip_stages].
    assert (Ha : CStr.streq a "|" = false).
    { apply streq_false. intros ->. apply Hn. now left. }
    rewrite Ha, IH by (intros Hin; apply Hn; now right).
    f_equal. cbn [List.length]. lia.
Qed.

(** Where stage [k] lies in the words of a pipeline, and that the first
    loop of [get_arguments] stops at its first word. *)
Lemma stage_position (tail : list string) : forall k stages i,
  (k < List.length stages)%nat ->
  Forall stage_ok stages ->
  exists front back,
    join_stages stages = front ++ nth k stages [] ++ back /\
    (back = [] \/ exists b, back = ("|"%string :: b)) /\
    ((2 <= List.length stages)%nat -> front <> [] \/ back <> []) /\
    skip_stages (join_stages stages ++ tail) i k
    = Some (i + Z.of_nat (List.length front)).
Proof.
  induction k as [|k IH]; intros stages i Hk Hok.
  - destruct stages as [|s rest]; [cbn in Hk; lia |].
    exists [], (match rest with
                | [] => []
                | _ => "|"%string :: join_stages rest
                end).
    split; [destruct rest; cbn; now rewrite ?List.app_nil_r |].
    split; [destruct rest; [now left | right; eauto] |].
    split.
    + intros H2. right. destruct rest; [cbn in H2; lia | discriminate].
    + rewrite skip_stages_zero. f_equal. cbn [List.length]. lia.
  - destruct stages as [|s rest]; [cbn in Hk; lia |].
    assert (Hrest : rest <> []).
    { destruct rest; [cbn in Hk; lia | discriminate]. }
    inversion Hok as [|? ? Hs Hok']; subst.
    destruct Hs as (_ & Hpipe & _).
    rewrite (join_stages_cons s rest Hrest).
    destruct (IH rest (i + Z.of_nat (List.length s) + 1)
                 ltac:(cbn in Hk; lia) Hok')
      as (front & back & HJ & Hback & _ & Hskip).
    exists (s ++ "|"%string :: front), back.
    split.
    { cbn [nth]. rewrite HJ, <- List.app_assoc. reflexivity. }
    split; [exact Hback |].
    split.
    { intros _. left. destruct s; discriminate. }
    rewrite <- List.app_assoc. cbn [app].
    rewrite (skip_stages_over s _ i k Hpipe), Hskip.
    f_equal. rewrite length_app. cbn [List.length]. lia.
Qed.

(** The second loop of [get_arguments] copies the words of one stage. *)
Lemma collect_args_stage (words : list string) : forall stage pre suffix fuel,
  ~ In "|"%string stage -> ~ In ">"%string stage ->
  words = pre ++ stage ++ suffix ->
  (suffix = [] \/
   exists b, suffix = ("|"%string :: b) \/ suffix = (">"%string :: b)) ->
  (List.length stage + List.length suffix <= fuel)%nat ->
  collect_args fuel words (count_of words) (Z.of_nat (List.length pre))
  = Some stage.
Proof.
  induction stage as [|a stage IH]; intros pre suffix fuel Hp Hg Hw Hsuf Hf.
  - destruct fuel as [|fuel]; [reflexivity |].
    cbn [collect_args app] in *.
    destruct Hsuf as [-> | (b & [-> | ->])].
    + rewrite List.app_nil_r in Hw. subst words. unfold count_of.
      rewrite Z.ltb_irrefl. reflexivity.
    + subst words. rewrite word_at_app.
      destruct (_ <? _); reflexivity.
    + subst words. rewrite word_at_app.
      destruct (_ <? _); reflexivity.
  - destruct fuel as [|fuel]; [cbn in Hf; lia |].
    cbn [collect_args].
    assert (Hlt : (Z.of_nat (List.length pre) <? count_of words) = true).
    { apply Z.ltb_lt. subst words. unfold count_of.
      rewrite !length_app. cbn [List.length]. lia. }
    rewrite Hlt.
    assert (Hat : word_at words (Z.of_nat (List.length pre)) = Some a).
    { subst words. cbn [app]. apply word_at_app. }
    rewrite Hat.
    assert (Ha1 : CStr.streq a "|" = false).
    { apply streq_false. intros ->. apply Hp. now left. }
    assert (Ha2 : CStr.streq a ">" = false).
    { apply streq_false. intros ->. apply Hg. now left. }
    rewrite Ha1, Ha2.
    replace (Z.of_nat (List.length pre) + 1)
      with (Z.of_nat (List.length (pre ++ [a])))
      by (rewrite length_app; cbn [List.length]; lia).
    rewrite (IH (pre ++ [a]) suffix fuel); [reflexivity | | | | | ].
    + intros Hin. apply Hp. now right.
    + intros Hin. apply Hg. now right.
    + subst words. now rewrite <- List.app_assoc.
    + exact Hsuf.
    + cbn [List.length] in Hf. lia.
Qed.

Lemma output_words_head (o : out_target) :
  output_words o = [] \/ exists b, output_words o = (">"%string :: b).
Proof. destruct o; [now left | |]; right; eexists; reflexivity. Qed.

Lemma get_arguments_stage (infile : option string) (o : out_target)
  (stages : list (list string)) (k : nat) :
  Forall stage_ok stages ->
  (2 <= List.length stages)%nat ->
  (k < List.length stages)%nat ->
  get_arguments
    (count_of (input_words infile ++ join_stages stages ++ output_words o))
    (input_words infile ++ join_stages stages ++ output_words o)
    (input_count infile) (output_count o) (Z.of_nat k)
  = ret (nth k stages []).
Proof.
  intros Hok H2 Hk. unfold get_arguments.
  set (words := input_words infile ++ join_stages stages ++ output_words o).
  assert (Hi : (if negb (input_count infile =? 0) then 2 else 0)
               = Z.of_nat (List.length (input_words infile))).
  { destruct infile; reflexivity. }
  rewrite Hi, !Nat2Z.id.
  assert (Hskipn : skipn (List.length (input_words infile)) words
                   = join_stages stages ++ output_words o).
  { unfold words. destruct infile; reflexivity. }
  rewrite Hskipn.
  destruct (stage_position (output_words o) k stages
              (Z.of_nat (List.length (input_words infile))) Hk Hok)
    as (front & back & HJ & Hback & Hne & Hskip).
  rewrite Hskip.
  assert (Hstage : stage_ok (nth k stages [])).
  { rewrite Forall_forall in Hok. apply Hok. now apply nth_In. }
  destruct Hstage as (_ & Hp & Hg).
  assert (Hw : words = (input_words infile ++ front) ++ nth k stages [] ++
                       (back ++ output_words o)).
  { unfold words. rewrite HJ, <- !List.app_assoc. reflexivity. }
  replace (Z.of_nat (List.length (input_words infile)) +
           Z.of_nat (List.length front))
    with (Z.of_nat (List.length (input_words infile ++ front)))
    by (rewrite length_app; lia).
  rewrite (collect_args_stage words (nth k stages [])
             (input_words infile ++ front) (back ++ output_words o));
    [| exact Hp | exact Hg | exact Hw | |].
  - assert (Hlen : (List.length (nth k stages []) < List.length words)%nat).
    { rewrite Hw, !length_app.
      destruct (Hne H2) as [N | N].
      - destruct front; [congruence |]. cbn [List.length]. lia.
      - destruct back; [congruence |]. cbn [List.length]. lia. }
    unfold count_of.
    destruct (Z.leb_spec (Z.of_nat (List.length words))
                (Z.of_nat (List.length (nth k stages [])))); [lia |].
    reflexivity.
  - destruct Hback as [-> | (b & ->)].
    + cbn [app]. destruct (output_words_head o) as [-> | (b & ->)];
        [now left | right; eauto].
    + right. exists (b ++ output_words o). now left.
  - unfold count_of. rewrite Nat2Z.id, Hw, !length_app. lia.
Qed.

(** X19.  For a pipeline of at least two stages, the arguments
    [get_arguments] builds for stage [k] are exactly the words of that
    stage: the words after the [k]-th ['|'] up to the next ['|'] or ['>'],
    without the input redirection in front. *)
Theorem stage_arguments_are_the_stage_words
  (infile : option string) (o : out_target) (stages : list (list string))
  (k : nat) :
  Forall stage_ok stages ->
  (2 <= List.length stages)%nat ->
  (k < List.length stages)%nat ->
  get_arguments
    (count_of (input_words infile ++ join_stages stages ++ output_words o))
    (input_words infile ++ join_stages stages ++ output_words o)
    (input_count infile) (output_count o) (Z.of_nat k)
  = ret (nth k stages []).
Proof. apply get_arguments_stage. Qed.

Lemma stage_arguments_are_the_stage_words_witness :
  get_arguments 9
    ["<"; "in"; "cat"; "-n"; "|"; "wc"; "-l"; ">"; "out"] 1 1 1
  = ret ["wc"; "-l"].
Proof.
  apply (stage_arguments_are_the_stage_words (Some "in"%string)
           (Truncate "out"%string) [["cat"; "-n"]; ["wc"; "-l"]] 1).
  - repeat constructor; try discriminate;
      intros [E | [E | []]]; discriminate.
  - simpl. lia.
  - simpl. lia.
Defined.

(** *** [get_programs] *)

Lemma get_programs_skip_args (w : World) (path words : list string) :
  forall args pre suffix fuel acc,
    ~ In "|"%string args -> ~ In ">"%string args ->
    words = pre ++ args ++ suffix ->
    (List.length args + List.length suffix <= fuel)%nat ->
    get_programs_loop fuel w path words (count_of words)
      (Z.of_nat (List.length pre)) false acc
    = get_programs_loop (fuel - List.length args) w path words
        (count_of words) (Z.of_nat (List.length (pre ++ args))) false acc.
Proof.
  induction args as [|a args IH]; intros pre suffix fuel acc Hp Hg Hw Hf.
  - rewrite List.app_nil_r. cbn [List.length]. now rewrite Nat.sub_0_r.
  - destruct fuel as [|fuel]; [cbn in Hf; lia |].
    cbn [get_programs_loop].
    assert (Hlt : (Z.of_nat (List.length pre) <? count_of words) = true).
    { apply Z.ltb_lt. subst words. unfold count_of.
      rewrite !length_app. cbn [List.length]. lia. }
    rewrite Hlt.
    assert (Hat : word_at words (Z.of_nat (List.length pre)) = Some a).
    { subst words. cbn [app]. apply word_at_app. }
    rewrite Hat.
    assert (Ha1 : CStr.streq a "|" = false).
    { apply streq_false. intros ->. apply Hp. now left. }
    assert (Ha2 : CStr.streq a ">" = false).
    { apply streq_false. intros ->. apply Hg. now left. }
    rewrite Ha1, Ha2.
    replace (Z.of_nat (List.length pre) + 1)
      with (Z.of_nat (List.length (pre ++ [a])))
      by (rewrite length_app; cbn [List.length]; lia).
    rewrite (IH (pre ++ [a]) suffix fuel acc).
    + cbn [List.length Nat.sub]. rewrite <- List.app_assoc. reflexivity.
    + intros Hin. apply Hp. now right.
    + intros Hin. apply Hg. now right.
    + subst words. now rewrite <- List.app_assoc.
    + cbn [List.length] in Hf. lia.
Qed.

Lemma get_programs_stages (w : World) (path words tail : list string) :
  (tail = [] \/ exists b, tail = (">"%string :: b)) ->
  forall stages pre fuel acc,
    stages <> [] ->
    Forall stage_ok stages ->
    words = pre ++ join_stages stages ++ tail ->
    (List.length (join_stages stages ++ tail) <= fuel)%nat ->
    get_programs_loop fuel w path words (count_of words)
      (Z.of_nat (List.length pre)) true acc
    = resolve_commands w path (map stage_command stages) acc.
Proof.
  intros Htail.
  induction stages as [|stage rest IH]; intros pre fuel acc Hne Hok Hw Hf;
    [congruence |].
  pose proof (Forall_inv Hok) as Hs. pose proof (Forall_inv_tail Hok) as Hok'.
  destruct Hs as (Hs & Hp & Hg).
  destruct stage as [|cmd args]; [congruence |].
  assert (HJ : exists suffix,
             join_stages ((cmd :: args) :: rest) ++ tail
             = cmd :: args ++ suffix /\
             ((rest = [] /\ suffix = tail) \/
              (rest <> [] /\
               suffix = "|"%string :: join_stages rest ++ tail))).
  { destruct rest as [|r rs].
    - exists tail. split; [reflexivity | left; split; reflexivity].
    - exists ("|"%string :: join_stages (r :: rs) ++ tail). split.
      + rewrite join_stages_cons by discriminate.
        rewrite <- List.app_assoc. reflexivity.
      + right. split; [discriminate | reflexivity]. }
  destruct HJ as (suffix & HJ & Hsuffix).
  rewrite List.app_assoc in Hw. rewrite <- List.app_assoc in Hw.
  rewrite HJ in Hw, Hf.
  destruct fuel as [|fuel]; [cbn in Hf; lia |].
  cbn [get_programs_loop map resolve_commands stage_command hd].
  assert (Hlt : (Z.of_nat (List.length pre) <? count_of words) = true).
  { apply Z.ltb_lt. rewrite Hw. unfold count_of.
    rewrite !length_app. cbn [List.length]. lia. }
  rewrite Hlt.
  assert (Hat : word_at words (Z.of_nat (List.length pre)) = Some cmd).
  { rewrite Hw. apply word_at_app. }
  rewrite Hat.
  assert (Ha1 : CStr.streq cmd "|" = false).
  { apply streq_false. intros ->. apply Hp. now left. }
  assert (Ha2 : CStr.streq cmd ">" = false).
  { apply streq_false. intros ->. apply Hg. now left. }
  rewrite Ha1, Ha2.
  destruct (Nat.leb MAX_LINE_CHARS (String.length cmd)); [reflexivity |].
  destruct (is_stage_builtin cmd); [reflexivity |].
  destruct (if has_slash cmd then ret (Some cmd)
            else search_path w path cmd) as [tf [[program |] | xf]];
    [| reflexivity | reflexivity].
  rewrite !bind_value. cbn [fst snd].
  enough (Hk : get_programs_loop fuel w path words (count_of words)
                 (Z.of_nat (List.length pre) + 1) false (acc ++ [program])
               = resolve_commands w path (map stage_command rest)
                   (acc ++ [program]))
    by now rewrite Hk.
  replace (Z.of_nat (List.length pre) + 1)
    with (Z.of_nat (List.length (pre ++ [cmd])))
    by (rewrite length_app; cbn [List.length]; lia).
  assert (Hw' : words = (pre ++ [cmd]) ++ args ++ suffix).
  { rewrite Hw, <- List.app_assoc. reflexivity. }
  cbn [List.length] in Hf. rewrite length_app in Hf.
  rewrite (get_programs_skip_args w path words args (pre ++ [cmd]) suffix
             fuel (acc ++ [program]));
    [| intros Hin; apply Hp; now right
     | intros Hin; apply Hg; now right | exact Hw' | lia].
  destruct Hsuffix as [[-> ->] | [Hrest ->]].
  - (* last stage *)
    cbn [map resolve_commands].
    destruct (fuel - List.length args)%nat as [|fuel'] eqn:Ef;
      [reflexivity |].
    cbn [get_programs_loop].
    pose proof (f_equal (@List.length string) Hw') as Hlen.
    destruct Htail as [-> | (b & ->)].
    + rewrite List.app_nil_r in Hlen. unfold count_of. rewrite Hlen.
      rewrite Z.ltb_irrefl. reflexivity.
    + assert (Hat' : word_at words
                       (Z.of_nat (List.length ((pre ++ [cmd]) ++ args)))
                     = Some ">"%string).
      { rewrite Hw' at 1. rewrite List.app_assoc. apply word_at_app. }
      rewrite Hat'. change (CStr.streq ">" ">") with true. cbv iota.
      match goal with
      | |- context [if ?c then _ else _] => destruct c
      end; reflexivity.
  - cbn [List.length] in Hf.
    destruct (fuel - List.length args)%nat as [|fuel'] eqn:Ef; [lia |].
    cbn [get_programs_loop].
    assert (Hlt' : (Z.of_nat (List.length ((pre ++ [cmd]) ++ args))
                    <? count_of words) = true).
    { apply Z.ltb_lt. unfold count_of.
      pose proof (f_equal (@List.length string) Hw') as Hlen.
      rewrite !length_app in Hlen. rewrite !length_app.
      cbn [List.length] in *. lia. }
    rewrite Hlt'.
    assert (Hat' : word_at words
                     (Z.of_nat (List.length ((pre ++ [cmd]) ++ args)))
                   = Some "|"%string).
    { rewrite Hw' at 1. rewrite List.app_assoc. apply word_at_app. }
    rewrite Hat'.
    change (CStr.streq "|" ">") with false.
    change (CStr.streq "|" "|") with true. cbv iota.
    replace (Z.of_nat (List.length ((pre ++ [cmd]) ++ args)) + 1)
      with (Z.of_nat (List.length (((pre ++ [cmd]) ++ args) ++ ["|"%string])))
      by (rewrite !length_app; cbn [List.length]; lia).
    apply IH; [exact Hrest | exact Hok' | |].
    + rewrite Hw', <- !List.app_assoc. reflexivity.
    + rewrite length_app in Hf |- *. lia.
Qed.

Lemma get_programs_resolves
  (w : World) (path : list string) (infile : option string)
  (o : out_target) (stages : list (list string)) :
  stages <> [] ->
  Forall stage_ok stages ->
  get_programs w
    (count_of (input_words infile ++ join_stages stages ++ output_words o))
    (input_words infile ++ join_stages stages ++ output_words o)
    (input_count infile) (output_count o) path
  = resolve_commands w path (map stage_command stages) [].
Proof.
  intros Hne Hok. unfold get_programs.
  assert (Hi : (if negb (input_count infile =? 0) then 2 else 0)
               = Z.of_nat (List.length (input_words infile))).
  { destruct infile; reflexivity. }
  rewrite Hi.
  apply (get_programs_stages w path _ (output_words o)
           (output_words_head o) stages (input_words infile));
    [exact Hne | exact Hok | reflexivity |].
  unfold count_of. rewrite Nat2Z.id, !length_app. lia.
Qed.

(** X20.  [get_programs] resolves the first word of every stage, from
    left to right, copying each to an array of 1024 bytes: a stage named
    [pwd], [cd], [history] or [!] ends the resolution with the builtin
    message, a name without ['/'] that no directory of the path holds
    ends it with command not found, and a name with ['/'] is taken as it
    is, without a test that it can be executed.  A name of 1024
    characters or more, or a search that builds such a candidate, writes
    past the end of its array.  Nothing is spawned. *)
Theorem pipeline_programs_are_resolved_in_order
  (w : World) (path : list string) (infile : option string)
  (o : out_target) (stages : list (list string)) :
  stages <> [] ->
  Forall stage_ok stages ->
  get_programs w
    (count_of (input_words infile ++ join_stages stages ++ output_words o))
    (input_words infile ++ join_stages stages ++ output_words o)
    (input_count infile) (output_count o) path
  = resolve_commands w path (map stage_command stages) [].
Proof. apply get_programs_resolves. Qed.

Lemma pipeline_programs_are_resolved_in_order_witness :
  get_programs Sample.plain 5 ["ls"; "-l"; "|"; "./count"; "-x"] 0 0
    Sample.path
  = ret (Some ["/bin/ls"; "./count"]) /\
  get_programs Sample.plain 5 ["ls"; "|"; "cd"; "|"; "nosuch"] 0 0
    Sample.path
  = ([Stderr (MSG_BUILTIN "cd")], Done None) /\
  get_programs Sample.plain 3 ["ls"; "|"; run_of "a" 1020] 0 0 Sample.path
  = stop Undefined.
Proof.
  split; [| split].
  - apply (pipeline_programs_are_resolved_in_order Sample.plain Sample.path
             None NoOutput [["ls"; "-l"]; ["./count"; "-x"]]).
    + discriminate.
    + repeat constructor; try discriminate;
        intros [E | [E | []]]; discriminate.
  - apply (pipeline_programs_are_resolved_in_order Sample.plain Sample.path
             None NoOutput [["ls"]; ["cd"]; ["nosuch"]]).
    + discriminate.
    + repeat constructor; try discriminate; intros [E | []]; discriminate.
  - etransitivity.
    + apply (pipeline_programs_are_resolved_in_order Sample.plain
               Sample.path None NoOutput [["ls"]; [run_of "a" 1020]]).
      * discriminate.
      * repeat constructor; try discriminate;
          intros [E | []]; vm_compute in E; discriminate.
    + vm_compute. reflexivity.
Defined.

(** *** [pipes] *)

Lemma make_pipes_all (w : World) :
  (forall i, w_pipe w i = true) ->
  forall d k,
    make_pipes d w (Z.of_nat k) (Z.of_nat (k + d))
    = (made_pipes k d, Done true).
Proof.
  intros Hpipe. induction d as [|d IH]; intros k; [reflexivity |].
  cbn [make_pipes].
  destruct (Z.ltb_spec (Z.of_nat k) (Z.of_nat (k + S d))); [| lia].
  rewrite Hpipe, bind_emit.
  replace (Z.of_nat k + 1) with (Z.of_nat (S k)) by lia.
  replace (k + S d)%nat with (S k + d)%nat by lia.
  rewrite IH. reflexivity.
Qed.

Section Pipeline.

Variables (w : World) (infile : option string) (o : out_target).
Variables (stages : list (list string)) (programs environment : list string).

Local Abbreviation words :=
  (input_words infile ++ join_stages stages ++ output_words o).
Local Abbreviation n := (List.length stages).

Hypothesis Hok : Forall stage_ok stages.
Hypothesis Hn : (2 <= n)%nat.
Hypothesis Hprograms : List.length programs = n.
Hypothesis Hchild :
  forall p a v e,
    w_child w p a v e <> SpawnFailed /\ w_child w p a v e <> WaitFailed.

Lemma pipe_stage_events (k d : nat) :
  (k + d = n)%nat -> (1 <= d)%nat ->
  pipe_stage w (count_of words) programs (input_count infile)
    (output_count o) (Z.of_nat n - 1) words environment
    (Z.of_nat d) (Z.of_nat k) (2 * Z.of_nat k)
  = (stage_events w n infile o environment programs stages k, Done true).
Proof.
  intros Hkd Hd. unfold pipe_stage.
  rewrite (get_arguments_stage infile o stages k Hok Hn) by lia.
  rewrite bind_ret.
  assert (Hprog : word_at programs (Z.of_nat k)
                  = Some (nth k programs EmptyString)).
  { rewrite word_at_nat. apply nth_error_nth'. lia. }
  rewrite Hprog. unfold stage_events, stage_actions.
  destruct (Z.eqb_spec (Z.of_nat d) (Z.of_nat n - 1 + 1)) as [E | E].
  - (* first program *)
    assert (k = 0)%nat by lia. subst k.
    rewrite input_actions_source, bind_ret, bind_emit.
    change (Nat.eqb 0 0) with true. cbv iota.
    destruct (Nat.eqb_spec 1 n) as [N | _]; [lia |].
    change (2 * Z.of_nat 0 + 1) with 1.
    destruct (Hchild (nth 0 programs EmptyString)
                (input_open infile ++ [AddDup2 1 1]) (nth 0 stages [])
                environment) as [N1 N2].
    destruct (w_child w (nth 0 programs EmptyString)
                (input_open infile ++ [AddDup2 1 1]) (nth 0 stages [])
                environment); try congruence; reflexivity.
  - destruct (Z.eqb_spec (Z.of_nat d) 1) as [E1 | E1].
    + (* last program *)
      assert (S k = n) by lia.
      rewrite (List.app_assoc (input_words infile) (join_stages stages)
                 (output_words o)).
      rewrite output_actions_target, bind_ret, bind_emit.
      destruct (Nat.eqb_spec k 0) as [N | _]; [lia |].
      destruct (Nat.eqb_spec (S k) n) as [_ | N]; [| lia].
      destruct (Hchild (nth k programs EmptyString)
                  (AddDup2 (2 * Z.of_nat k - 2) 0 :: output_open o)
                  (nth k stages []) environment) as [N1 N2].
      destruct (w_child w (nth k programs EmptyString)
                  (AddDup2 (2 * Z.of_nat k - 2) 0 :: output_open o)
                  (nth k stages []) environment); try congruence;
        reflexivity.
    + (* middle programs *)
      rewrite bind_emit.
      destruct (Nat.eqb_spec k 0) as [N | _]; [lia |].
      destruct (Nat.eqb_spec (S k) n) as [N | _]; [lia |].
      destruct (Hchild (nth k programs EmptyString)
                  [AddDup2 (2 * Z.of_nat k - 2) 0;
                   AddDup2 (2 * Z.of_nat k + 1) 1]
                  (nth k stages []) environment) as [N1 N2].
      destruct (w_child w (nth k programs EmptyString)
                  [AddDup2 (2 * Z.of_nat k - 2) 0;
                   AddDup2 (2 * Z.of_nat k + 1) 1]
                  (nth k stages []) environment); try congruence;
        reflexivity.
Qed.

Lemma pipes_loop_events : forall d k,
  (k + d = n)%nat ->
  pipes_loop d w (count_of words) programs (input_count infile)
    (output_count o) (Z.of_nat n - 1) words environment
    (Z.of_nat d) (Z.of_nat k) (2 * Z.of_nat k)
  = (flat_map (stage_events w n infile o environment programs stages)
       (seq k d), Done tt).
Proof.
  induction d as [|d IH]; intros k Hkd; [reflexivity |].
  cbn [pipes_loop].
  destruct (Z.ltb_spec 0 (Z.of_nat (S d))); [| lia].
  rewrite (pipe_stage_events k (S d)) by lia.
  rewrite bind_value. cbv iota.
  replace (Z.of_nat (S d) - 1) with (Z.of_nat d) by lia.
  replace (Z.of_nat k + 1) with (Z.of_nat (S k)) by lia.
  replace (2 * Z.of_nat k + 2) with (2 * Z.of_nat (S k)) by lia.
  rewrite (IH (S k)) by lia. reflexivity.
Qed.

End Pipeline.

(** X21.  A pipeline of [n] stages whose files pass the check, whose
    pipes are all created and whose children are all spawned and waited
    for: [n - 1] pipes are made first; then the stages are spawned from
    left to right, each with the words of its stage as arguments.  The
    first stage writes to the write end of pipe 0 and reads the input
    file if one is named, stage [k] reads from the read end of pipe
    [k - 1] and writes to the write end of pipe [k], the last stage
    writes to the output file if one is named.  After each stage but the
    last the write end it used is closed; no read end is ever closed,
    and only the exit status of the last stage is reported. *)
Theorem pipeline_wiring
  (w : World) (infile : option string) (o : out_target)
  (stages : list (list string)) (programs environment : list string) :
  Forall stage_ok stages ->
  (2 <= List.length stages)%nat ->
  List.length programs = List.length stages ->
  snd (check_files w
         (count_of (input_words infile ++ join_stages stages ++
                    output_words o))
         (input_count infile) (output_count o)
         (input_words infile ++ join_stages stages ++ output_words o))
    = Done true ->
  (forall i, w_pipe w i = true) ->
  (forall p a v e,
     w_child w p a v e <> SpawnFailed /\ w_child w p a v e <> WaitFailed) ->
  pipes w
    (count_of (input_words infile ++ join_stages stages ++ output_words o))
    programs (input_count infile) (output_count o)
    (Z.of_nat (List.length stages) - 1)
    (input_words infile ++ join_stages stages ++ output_words o) environment
  = (made_pipes 0 (List.length stages - 1) ++
     flat_map (stage_events w (List.length stages) infile o environment
                 programs stages)
       (seq 0 (List.length stages)),
     Done tt).
Proof.
  intros Hok Hn Hprograms Hchk Hpipe Hchild.
  unfold pipes.
  destruct (check_files w _ (input_count infile) (output_count o)
              (input_words infile ++ join_stages stages ++ output_words o))
    as [t r] eqn:E.
  cbn [snd] in Hchk. subst r.
  destruct (check_files_cases _ _ _ _ _ _ _ E) as [[_ ->] | [N _]];
    [| discriminate].
  rewrite bind_value. cbn [negb app fst snd].
  replace (Z.to_nat (Z.of_nat (List.length stages) - 1))
    with (List.length stages - 1)%nat by lia.
  pose proof (make_pipes_all w Hpipe (List.length stages - 1) 0) as Hm.
  cbn [Nat.add] in Hm. change (Z.of_nat 0) with 0 in Hm.
  replace (Z.of_nat (List.length stages - 1))
    with (Z.of_nat (List.length stages) - 1) in Hm by lia.
  rewrite Hm, bind_value. cbn [negb].
  replace (Z.to_nat (Z.of_nat (List.length stages) - 1 + 1))
    with (List.length stages) by lia.
  replace (Z.of_nat (List.length stages) - 1 + 1)
    with (Z.of_nat (List.length stages)) by lia.
  pose proof (pipes_loop_events w infile o stages programs environment
                Hok Hn Hprograms Hchild (List.length stages) 0 eq_refl)
    as Hloop.
  change (Z.of_nat 0) with 0 in Hloop. change (2 * 0) with 0 in Hloop.
  rewrite Hloop. reflexivity.
Qed.

Lemma pipeline_wiring_witness :
  pipes Sample.plain 7 ["/bin/ls"; "/bin/echo"; "/bin/wc"] 0 1 2
    ["ls"; "|"; "echo"; "|"; "wc"; ">"; "out"] []
  = ([MkPipe 0; MkPipe 1;
      PosixSpawn "/bin/ls" [AddDup2 1 1] ["ls"] [];
      Close 1;
      PosixSpawn "/bin/echo" [AddDup2 0 0; AddDup2 3 1] ["echo"] [];
      Close 3;
      PosixSpawn "/bin/wc"
        [AddDup2 2 0;
         AddOpen 1 "out" (Z.lor O_CREAT O_WRONLY) MODE_0644] ["wc"] [];
      Stdout (MSG_STATUS "/bin/wc" 0)], Done tt).
Proof.
  apply (pipeline_wiring Sample.plain None (Truncate "out"%string)
           [["ls"]; ["echo"]; ["wc"]] ["/bin/ls"; "/bin/echo"; "/bin/wc"]
           []).
  - repeat constructor; try discriminate; intros [E | []]; discriminate.
  - simpl. lia.
  - reflexivity.
  - reflexivity.
  - reflexivity.
  - intros p a v e. split; discriminate.
Defined.

(** ** Whole lines *)

Lemma mbind_lift_programs {A} (w : World) (m : Act (option A))
  (k : A -> Act unit) (h : hist) :
  nospawn m ->
  mbind (lift m)
    (fun r => match r with
              | None => mret tt
              | Some a => spawning w (k a)
              end) h
  = (hist_after w
       (fst (bind m (fun r => match r with
                              | None => ret tt
                              | Some a => k a
                              end))) h,
     bind m (fun r => match r with
                      | None => ret tt
                      | Some a => k a
                      end)).
Proof.
  unfold nospawn. destruct m as [t [[a |] | x]]; cbn [fst]; intros Hm;
    unfold mbind, lift, bind, mret, ret, spawning; cbn [fst snd].
  - destruct (k a) as [t' r]. cbn [fst snd].
    now rewrite hist_after_app, (hist_after_nospawn w t h Hm).
  - rewrite hist_after_app, (hist_after_nospawn w t h Hm). reflexivity.
  - now rewrite (hist_after_nospawn w t h Hm).
Qed.

(** X22.  A line [pwd] or [cd] without redirection and glob tokens is
    recorded and handled inside the interpreter.  [pwd] alone prints the
    current directory, and with any argument only complains; [cd] alone
    changes to the value of [HOME], [cd dir] changes to [dir] and
    complains if that fails, and [cd] with more arguments only
    complains. *)
Theorem directory_builtins
  (w : World) (rest path environment : list string) (h : hist) :
  no_redirection rest ->
  Forall (fun wd => CStr.any_char is_glob_char wd = false) rest ->
  w_home w <> None -> w_hist_open w = true ->
  execute_command w ("pwd"%string :: rest) path environment h
  = (Some (hist_text h ++ history_entry ("pwd"%string :: rest))%string,
     match rest with
     | [] =>
         match w_getcwd w with
         | Some cwd =>
             ([Stdout ("current directory is '" ++ cwd ++ "'" ++ NL)%string],
              Done tt)
         | None => ([Perror "getcwd"], Halt Undefined)
         end
     | _ => ([Stderr ("pwd: too many arguments" ++ NL)%string], Done tt)
     end) /\
  execute_command w ("cd"%string :: rest) path environment h
  = (Some (hist_text h ++ history_entry ("cd"%string :: rest))%string,
     match rest with
     | [] => ([Chdir (w_home w)], Done tt)
     | [dir] =>
         (Chdir (Some dir) ::
          (if w_chdir w dir then []
           else [Stderr ("cd: " ++ dir ++ ": No such file or directory"
                           ++ NL)%string]),
          Done tt)
     | _ => ([Stderr ("cd: too many arguments" ++ NL)%string], Done tt)
     end).
Proof.
  intros (N1 & N2 & N3) Hglob Hhome Hopen.
  assert (Hno : forall cmd,
             cmd <> "<"%string -> cmd <> ">"%string -> cmd <> "|"%string ->
             no_redirection (cmd :: rest)).
  { intros cmd C1 C2 C3. unfold no_redirection.
    repeat split; intros [E | E]; auto. }
  split.
  - rewrite (execute_accepted w "pwd" rest zero_counters);
      [| discriminate
       | apply validate_plain, Hno; discriminate | exact Hhome | exact Hopen].
    unfold after_store.
    change (CStr.streq "pwd" "<") with false. cbv iota.
    change (CStr.streq "pwd" "exit") with false. cbv iota.
    rewrite (check_glob_no_metachar w ("pwd"%string :: rest))
      by (constructor; [reflexivity | exact Hglob]).
    rewrite mbind_lift_ret. unfold dispatch.
    change (CStr.streq "pwd" "pwd") with true.
    change (redirected zero_counters) with false. cbv iota.
    destruct rest as [|a [|b rest]].
    + change (count_of ["pwd"%string] =? 1) with true. cbv iota.
      unfold lift, pwd. destruct (w_getcwd w); reflexivity.
    + reflexivity.
    + unfold count_of. cbn [List.length].
      destruct (Z.eqb_spec (Z.of_nat (S (S (S (List.length rest))))) 1);
        [lia | reflexivity].
  - rewrite (execute_accepted w "cd" rest zero_counters);
      [| discriminate
       | apply validate_plain, Hno; discriminate | exact Hhome | exact Hopen].
    unfold after_store.
    change (CStr.streq "cd" "<") with false. cbv iota.
    change (CStr.streq "cd" "exit") with false. cbv iota.
    rewrite (check_glob_no_metachar w ("cd"%string :: rest))
      by (constructor; [reflexivity | exact Hglob]).
    rewrite mbind_lift_ret. unfold dispatch.
    change (CStr.streq "cd" "pwd") with false.
    change (CStr.streq "cd" "cd") with true.
    change (redirected zero_counters) with false. cbv iota.
    destruct rest as [|a [|b rest]].
    + reflexivity.
    + change (count_of ["cd"%string; a] <=? 2) with true. cbv iota.
      unfold lift, cd. change (word_at ["cd"%string; a] 1) with (Some a).
      cbv iota. destruct (w_chdir w a); reflexivity.
    + unfold count_of. cbn [List.length].
      destruct (Z.leb_spec (Z.of_nat (S (S (S (List.length rest))))) 2);
        [lia | reflexivity].
Qed.

Lemma directory_builtins_witness :
  execute_command Sample.plain ["cd"; "/tmp"] Sample.path [] None
  = (Some ("cd /tmp" ++ NL)%string, ([Chdir (Some "/tmp"%string)], Done tt)).
Proof.
  refine (proj2 (directory_builtins Sample.plain ["/tmp"%string] Sample.path
                   [] None _ _ _ eq_refl)).
  - unfold no_redirection. repeat split; intros [E | []]; discriminate.
  - repeat constructor.
  - discriminate.
Defined.

(** X23.  A well-formed pipeline line whose first command resolves,
    inside the 1024-byte array of the search, to an executable file is
    recorded; then [get_programs] resolves every stage, and only if all of
    them resolve is [pipes] called, with the resolved programs and the
    words of the line.  Of the tests [execute_command] makes on the
    command (builtin?  executable?), only the first stage is subject.
    The history file is afterwards what the children of the stages have
    left of it. *)
Theorem pipeline_line_resolves_then_runs
  (w : World) (path environment : list string) (h : hist)
  (infile : option string) (o : out_target)
  (c0 : string) (a0 : list string) (more : list (list string)) :
  more <> [] ->
  Forall stage_ok ((c0 :: a0) :: more) ->
  validate (input_words infile ++ join_stages ((c0 :: a0) :: more) ++
            output_words o)
  = ([], Done (0, {| c_input := input_count infile;
                     c_output := output_count o;
                     c_pipes := Z.of_nat (List.length more) |})) ->
  Forall (fun wd => CStr.any_char is_glob_char wd = false)
    (input_words infile ++ join_stages ((c0 :: a0) :: more) ++
     output_words o) ->
  c0 <> "!"%string -> c0 <> "<"%string -> c0 <> "exit"%string ->
  checked_builtin c0 = false ->
  fits w path c0 ->
  is_executable w (resolved w path c0) = true ->
  w_home w <> None -> w_hist_open w = true ->
  let words :=
    input_words infile ++ join_stages ((c0 :: a0) :: more) ++
    output_words o in
  let run :=
    bind (resolve_commands w path
            (map stage_command ((c0 :: a0) :: more)) [])
      (fun r =>
         match r with
         | None => ret tt
         | Some programs =>
             pipes w (count_of words) programs (input_count infile)
               (output_count o) (Z.of_nat (List.length more)) words
               environment
         end) in
  execute_command w words path environment h
  = (hist_after w (fst run)
       (Some (hist_text h ++ history_entry words)%string),
     run).
Proof.
  intros Hmore Hok Hv Hglob Hbang Hlt Hexit Hb Hfit Hx Hhome Hopen.
  cbv zeta.
  rewrite <- (get_programs_resolves w path infile o ((c0 :: a0) :: more))
    by (discriminate || exact Hok).
  remember (input_words infile ++ join_stages ((c0 :: a0) :: more) ++
            output_words o) as words eqn:Hwords.
  assert (Hshape : exists first rest,
             words = first :: rest /\ first <> "!"%string /\
             (if CStr.streq first "<" then word_at (first :: rest) 2
              else Some first) = Some c0).
  { rewrite (join_stages_cons (c0 :: a0) more Hmore) in Hwords.
    destruct infile as [file |]; cbn [input_words app] in Hwords.
    - exists "<"%string. eexists. split; [exact Hwords |].
      split; [discriminate | reflexivity].
    - exists c0. eexists. split; [exact Hwords |].
      split; [exact Hbang |].
      apply streq_false in Hlt. now rewrite Hlt. }
  destruct Hshape as (first & rest & Hw & Hfirst & Hprog).
  rewrite Hw in Hv, Hglob |- *.
  rewrite (execute_accepted w first rest _ path environment h Hfirst Hv
             Hhome Hopen).
  unfold after_store. rewrite Hprog.
  apply streq_false in Hexit. rewrite Hexit.
  rewrite (check_glob_no_metachar w _ Hglob), mbind_lift_ret.
  unfold dispatch. unfold checked_builtin in Hb.
  destruct (CStr.streq c0 "pwd"); [discriminate |].
  destruct (CStr.streq c0 "cd"); [discriminate |].
  destruct (CStr.streq c0 "history"); [discriminate |].
  rewrite (resolve_program_fits w path c0 Hfit), mbind_lift_ret. rewrite Hx.
  cbn [c_pipes c_input c_output].
  destruct (Z.eqb_spec (Z.of_nat (List.length more)) 0) as [E | _].
  { destruct more; [congruence | discriminate]. }
  apply mbind_lift_programs. apply nospawn_get_programs_loop.
Qed.

Lemma pipeline_line_resolves_then_runs_witness :
  execute_command Sample.plain ["ls"; "-l"; "|"; "wc"] Sample.path [] None
  = (Some ("ls -l | wc" ++ NL)%string,
     ([MkPipe 0;
       PosixSpawn "/bin/ls" [AddDup2 1 1] ["ls"; "-l"] [];
       Close 1;
       PosixSpawn "/bin/wc" [AddDup2 0 0] ["wc"] [];
       Stdout (MSG_STATUS "/bin/wc" 0)], Done tt)).
Proof.
  etransitivity.
  - apply (pipeline_line_resolves_then_runs Sample.plain Sample.path [] None
             None NoOutput "ls" ["-l"] [["wc"]]).
    + discriminate.
    + repeat (apply Forall_cons || apply Forall_nil);
        (split; [discriminate |
                 split; intros Hin; cbn in Hin; intuition discriminate]).
    + reflexivity.
    + repeat constructor.
    + discriminate.
    + discriminate.
    + discriminate.
    + reflexivity.
    + right. reflexivity.
    + reflexivity.
    + discriminate.
    + reflexivity.
  - reflexivity.
Defined.

(** X24.  A line with file redirection and no pipe, whose command is
    not a builtin and for which the path search stays inside its
    1024-byte array, is recorded; then [in_out_redirection] is called
    with the resolved pathname, the two redirection counters and all the
    words of the line, if that pathname is an executable regular file,
    and otherwise the line is answered with command not found.  The
    history file is afterwards what the child has left of it. *)
Theorem redirected_line_runs_the_resolved_program
  (w : World) (path environment : list string) (h : hist)
  (infile : option string) (o : out_target)
  (c0 : string) (a0 : list string) :
  infile <> None \/ o <> NoOutput ->
  validate (input_words infile ++ (c0 :: a0) ++ output_words o)
  = ([], Done (0, {| c_input := input_count infile;
                     c_output := output_count o;
                     c_pipes := 0 |})) ->
  Forall (fun wd => CStr.any_char is_glob_char wd = false)
    (input_words infile ++ (c0 :: a0) ++ output_words o) ->
  c0 <> "!"%string -> c0 <> "<"%string -> c0 <> "exit"%string ->
  checked_builtin c0 = false ->
  fits w path c0 ->
  w_home w <> None -> w_hist_open w = true ->
  let words := input_words infile ++ (c0 :: a0) ++ output_words o in
  let run :=
    in_out_redirection w (count_of words) (resolved w path c0)
      (input_count infile) (output_count o) words environment in
  execute_command w words path environment h
  = if is_executable w (resolved w path c0)
    then (hist_after w (fst run)
            (Some (hist_text h ++ history_entry words)%string),
          run)
    else (Some (hist_text h ++ history_entry words)%string,
          ([Stderr (MSG_NOT_FOUND (resolved w path c0))], Done tt)).
Proof.
  intros Hsome Hv Hglob Hbang Hlt Hexit Hb Hfit Hhome Hopen.
  cbv zeta.
  remember (input_words infile ++ (c0 :: a0) ++ output_words o)
    as words eqn:Hwords.
  assert (Hshape : exists first rest,
             words = first :: rest /\ first <> "!"%string /\
             (if CStr.streq first "<" then word_at (first :: rest) 2
              else Some first) = Some c0).
  { destruct infile as [file |]; cbn [input_words app] in Hwords.
    - exists "<"%string. eexists. split; [exact Hwords |].
      split; [discriminate | reflexivity].
    - exists c0. eexists. split; [exact Hwords |].
      split; [exact Hbang |].
      apply streq_false in Hlt. now rewrite Hlt. }
  destruct Hshape as (first & rest & Hw & Hfirst & Hprog).
  rewrite Hw in Hv, Hglob |- *.
  rewrite (execute_accepted w first rest _ path environment h Hfirst Hv
             Hhome Hopen).
  unfold after_store. rewrite Hprog.
  apply streq_false in Hexit. rewrite Hexit.
  rewrite (check_glob_no_metachar w _ Hglob), mbind_lift_ret.
  destruct (is_executable w (resolved w path c0)) eqn:Hx;
    [| now apply dispatch_not_found].
  unfold dispatch. unfold checked_builtin in Hb.
  destruct (CStr.streq c0 "pwd"); [discriminate |].
  destruct (CStr.streq c0 "cd"); [discriminate |].
  destruct (CStr.streq c0 "history"); [discriminate |].
  rewrite (resolve_program_fits w path c0 Hfit), mbind_lift_ret. rewrite Hx.
  cbn [c_pipes c_input c_output]. change (0 =? 0) with true. cbv iota.
  assert (Hboth : (input_count infile =? 0) && (output_count o =? 0)
                  = false).
  { destruct infile, o; try reflexivity.
    destruct Hsome as [N | N]; congruence. }
  rewrite Hboth. reflexivity.
Qed.

Lemma redirected_line_runs_the_resolved_program_witness :
  execute_command Cases.with_history
    ["echo"; "hi"; ">"; Cases.history_path] Sample.path []
    (Some ("pwd" ++ NL)%string)
  = (Some ("hi" ++ NL ++ NL ++ "echo hi > " ++ Cases.history_path ++ NL)%string,
     ([PosixSpawn "/bin/echo"
         [AddOpen 1 Cases.history_path (Z.lor O_CREAT O_WRONLY) MODE_0644]
         ["echo"; "hi"] [];
       Stdout (MSG_STATUS "/bin/echo" 0)], Done tt)).
Proof.
  etransitivity.
  - apply (redirected_line_runs_the_resolved_program Cases.with_history
             Sample.path [] (Some ("pwd" ++ NL)%string) None
             (Truncate Cases.history_path) "echo" ["hi"]).
    + right. discriminate.
    + reflexivity.
    + repeat constructor.
    + discriminate.
    + discriminate.
    + discriminate.
    + reflexivity.
    + right. reflexivity.
    + discriminate.
    + reflexivity.
  - reflexivity.
Defined.
